(** * Verity: the verification orchestration engine

    A shallow embedding of the Go packages [models], [search], [verify]
    and of the part of [database] the engine relies on.

    Conventions of the embedding.
    - Go [int] is [Z]; the only integers that occur are lengths and
      counters bounded by a slice length, so no wrap-around arises.
    - Go [float64] is modelled by the rational it denotes ([Q]).  The
      operands of the score computation are integers and halves; the
      rounding of its one division and one multiplication is not
      modelled, and the theorems about the score state only what does
      not depend on it: its range and its two extreme values.
    - A Go [error] is represented by its message.
    - Everything outside the process (language model, search sources,
      database, clock, identifier generator) reads and writes an
      abstract [World]; calls are threaded through it explicitly and
      leave an [Event] in a log, so that "no call is made" is a
      statement about the log.  Writing to the process log (zerolog)
      is not modelled.
    - Goroutines are run to completion one after the other in an order
      chosen by a schedule; a [select] receives the case the schedule
      dictates, provided that case is enabled.  A call that would wait
      forever has no result ([None]). *)

From Stdlib Require Import ZArith QArith Lia.
From stdpp Require Import base option list strings pretty gmap.

Local Open Scope string_scope.
Local Open Scope Z_scope.
Local Open Scope list_scope.

Definition error := string.
Definition Time := Z.
Definition float64 := Q.

(* ===================================================================== *)
(** ** Package models *)
(* ===================================================================== *)

Module models.

Definition ClaimType := string.
Definition ClaimTypeStatistical : ClaimType := "statistical".
Definition ClaimTypeFactual : ClaimType := "factual".
Definition ClaimTypeTemporal : ClaimType := "temporal".
Definition ClaimTypeGeographic : ClaimType := "geographic".
Definition ClaimTypeCitation : ClaimType := "citation".
Definition ClaimTypeComparative : ClaimType := "comparative".
Definition ClaimTypeCausal : ClaimType := "causal".
Definition ClaimTypeCustom : ClaimType := "custom".

(** The eight constants of the [ClaimType] block. *)
Definition claimTypes : list ClaimType :=
  [ClaimTypeStatistical; ClaimTypeFactual; ClaimTypeTemporal;
   ClaimTypeGeographic; ClaimTypeCitation; ClaimTypeComparative;
   ClaimTypeCausal; ClaimTypeCustom].

Definition VerificationStatus := string.
Definition StatusVerified : VerificationStatus := "verified".
Definition StatusMixed : VerificationStatus := "mixed".
Definition StatusUnsupported : VerificationStatus := "unsupported".
Definition StatusPending : VerificationStatus := "pending".

Definition SourceType := string.
Definition SourceTypeEvidenceBacked : SourceType := "evidence_backed".
Definition SourceTypeModelBased : SourceType := "model_based".

Module Evidence.
Record t := mk {
  ID : string;
  SourceName : string;
  SourceURL : string;
  SourceType : string;
  Snippet : string;
  RelevanceScore : float64;
  RetrievedAt : Time
}.
End Evidence.

Module Claim.
Record t := mk {
  ID : string;
  Text : string;
  Type_ : ClaimType;
  SentenceIndex : Z;
  Status : VerificationStatus;
  Confidence : float64;
  SourceType : SourceType;
  Evidences : list Evidence.t;
  Reasoning : string;
  CreatedAt : Time
}.
End Claim.

Module AnalysisResult.
Record t := mk {
  ID : string;
  DocumentHash : string;
  OverallScore : float64;
  TotalClaims : Z;
  VerifiedClaims : Z;
  MixedClaims : Z;
  UnsupportedClaims : Z;
  ProcessingTimeMs : Z;
  Status : string;
  CreatedAt : Time
}.
End AnalysisResult.

Module Warning.
Record t := mk { Source : string; Message : string }.
End Warning.

Module VerificationResponse.
Record t := mk {
  ID : string;
  DocumentHash : string;
  Analysis : AnalysisResult.t;
  Claims : list Claim.t;
  Warnings : list Warning.t
}.
End VerificationResponse.

End models.
Import models.

(* ===================================================================== *)
(** ** Calls to the outside: a state monad over the world and a call log *)
(* ===================================================================== *)

Inductive Event :=
| EvGetAnalysisByHash (hash : string)
| EvGetClaimsByAnalysis (analysisID : string)
| EvSaveAnalysis (result : AnalysisResult.t)
| EvSaveClaims (analysisID : string) (claims : list Claim.t)
| EvComplete (system user : string) (maxTokens : Z)
| EvSearch (source query : string) (maxResults : Z).

Definition is_model_call (ev : Event) : bool :=
  match ev with EvComplete _ _ _ => true | _ => false end.

Definition is_search_call (ev : Event) : bool :=
  match ev with EvSearch _ _ _ => true | _ => false end.

Definition is_store_read (ev : Event) : bool :=
  match ev with
  | EvGetAnalysisByHash _ | EvGetClaimsByAnalysis _ => true
  | _ => false
  end.

Section Effects.
Context {World : Type}.

Record St := mkSt { world : World; log : list Event }.

(** [None]: the computation never returns. *)
Definition M (A : Type) : Type := St -> option (A * St).

Definition ret {A} (a : A) : M A := fun s => Some (a, s).

Definition bind {A B} (m : M A) (f : A -> M B) : M B :=
  fun s => match m s with
           | Some (a, s') => f a s'
           | None => None
           end.

Definition stuck {A} : M A := fun _ => None.

(** One call to the outside: logged, then answered by the world. *)
Definition call {A} (ev : Event) (f : World -> A * World) : M A :=
  fun s => let '(a, w) := f (world s) in
           Some (a, mkSt w (log s ++ [ev])).

(** An unlogged read of the environment (clock, fresh identifiers). *)
Definition ask {A} (f : World -> A * World) : M A :=
  fun s => let '(a, w) := f (world s) in Some (a, mkSt w (log s)).

Definition lift_option {A} (o : option A) : M A :=
  match o with Some a => ret a | None => stuck end.

Fixpoint mapM {A B} (f : A -> M B) (l : list A) : M (list B) :=
  match l with
  | [] => ret []
  | x :: l' => bind (f x) (fun y => bind (mapM f l') (fun ys => ret (y :: ys)))
  end.

Fixpoint foldM {A B} (f : A -> B -> M A) (l : list B) (a : A) : M A :=
  match l with
  | [] => ret a
  | x :: l' => bind (f a x) (foldM f l')
  end.
End Effects.

Arguments St : clear implicits.
Arguments M : clear implicits.

Declare Scope go_scope.
Delimit Scope go_scope with go.
Notation "x <- m ;; k" := (bind m (fun x => k))
  (at level 100, m at next level, right associativity) : go_scope.
Local Open Scope go_scope.

(* ===================================================================== *)
(** ** Package search: the evidence aggregator *)
(* ===================================================================== *)

Module search.

(** The [SearchClient] interface.  [Search] returns the pair
    [(evidences, err)] of the Go method. *)
Module SearchClient.
Record t {World : Type} := mk {
  Name : string;
  Available : bool;
  Search : string -> Z -> World -> (list Evidence.t * option error) * World
}.
Arguments t : clear implicits.
End SearchClient.

(** Results from a single source. *)
Module SearchResult.
Record t := mk {
  Source : string;
  Evidences : list Evidence.t;
  Error : option error
}.
End SearchResult.

(** The case a [select] of the collection loop receives. *)
Inductive SelectCase :=
| RecvResult (k : nat)   (* [result := <-results], sent by the k-th client's goroutine *)
| Timeout                (* [<-timeout], the channel of [time.After] *)
| CtxDone.               (* [<-ctx.Done()] *)

(** The variables of the collection loop, with what remains in the
    channels: [time.After] delivers a single value, and each goroutine
    sends a single result. *)
Record collectState := mkCollect {
  allEvidences : list Evidence.t;
  warnings : list Warning.t;
  timerPending : bool;
  received : list nat
}.

Definition collectInit : collectState := mkCollect [] [] true [].

(** One iteration of the loop body.  [None]: the case is not enabled.
    The [break] of the last two cases leaves the [select] statement
    only, so every case ends the iteration in the same way and the
    loop counter advances. *)
Definition selectStep (results : list SearchResult.t) (st : collectState)
    (c : SelectCase) : option collectState :=
  match c with
  | RecvResult k =>
      if decide (k ∈ received st) then None else
      match results !! k with
      | None => None
      | Some result =>
          match SearchResult.Error result with
          | Some err =>
              Some (mkCollect (allEvidences st)
                      (warnings st ++ [Warning.mk (SearchResult.Source result) err])
                      (timerPending st) (k :: received st))
          | None =>
              Some (mkCollect (allEvidences st ++ SearchResult.Evidences result)
                      (warnings st) (timerPending st) (k :: received st))
          end
      end
  | Timeout =>
      if timerPending st then
        Some (mkCollect (allEvidences st)
                (warnings st ++ [Warning.mk "search" "Some sources timed out"])
                false (received st))
      else None
  | CtxDone =>
      Some (mkCollect (allEvidences st)
              (warnings st ++ [Warning.mk "search" "Search cancelled"])
              (timerPending st) (received st))
  end.

(** [for i := 0; i < len(a.clients); i++ { select { ... } }], with
    [remaining = len(a.clients) - i].  An iteration for which the
    schedule has no enabled case waits forever. *)
Fixpoint collect (results : list SearchResult.t) (remaining : nat)
    (st : collectState) (sched : list SelectCase) : option collectState :=
  match remaining with
  | O => Some st
  | S remaining' =>
      match sched with
      | [] => None
      | c :: sched' =>
          match selectStep results st c with
          | None => None
          | Some st' => collect results remaining' st' sched'
          end
      end
  end.

Section Aggregator.
Context {World : Type}.

Record AggregatedSearchClient := mkAggregated {
  clients : list (SearchClient.t World)
}.

(** Filter to only available clients. *)
Definition NewAggregatedSearchClient (cs : list (SearchClient.t World))
    : AggregatedSearchClient :=
  mkAggregated (filter (fun c => SearchClient.Available c = true) cs).

Definition HasClients (a : AggregatedSearchClient) : bool :=
  bool_decide (0 < length (clients a))%nat.

(** The body of one search goroutine. *)
Definition searchOne (query : string) (maxResultsPerSource : Z)
    (c : SearchClient.t World) : M World SearchResult.t :=
  r <- call (EvSearch (SearchClient.Name c) query maxResultsPerSource)
         (SearchClient.Search c query maxResultsPerSource) ;;
  ret (SearchResult.mk (SearchClient.Name c) r.1 r.2).

(** Search searches all configured sources concurrently.  Here the
    goroutines of the sources are run one after the other, in the order
    of the client list, before the collecting loop; in the program
    their calls are made in the order the scheduler picks, and a source
    whose result is not received may still be running when [Search]
    returns.  What the loop receives is fixed by [sched] alone, so the
    evidence and the warnings returned do not depend on that order. *)
Definition Search (a : AggregatedSearchClient) (query : string)
    (maxResultsPerSource : Z) (sched : list SelectCase)
    : M World (list Evidence.t * list Warning.t) :=
  if decide (length (clients a) = 0%nat) then
    ret ([], [Warning.mk "search" "No search sources configured"])
  else
    results <- mapM (searchOne query maxResultsPerSource) (clients a) ;;
    st <- lift_option (collect results (length (clients a)) collectInit sched) ;;
    ret (allEvidences st, warnings st).
End Aggregator.
Arguments AggregatedSearchClient : clear implicits.

(** The DuckDuckGo source.  Its two HTTP searches and its keyword
    extraction are taken as given; the retry loops and the
    deduplication loop of its [Search] are modelled. *)
Section DuckDuckGo.
Context {World : Type}.

Record DuckDuckGoClient := mkDuckDuckGo {
  extractKeywords : string -> string;
  searchInstantAnswer :
    string -> Z -> World -> (list Evidence.t * option error) * World;
  searchHTMLWithContent :
    string -> Z -> World -> (list Evidence.t * option error) * World
}.

(** [for attempt := 0; attempt < 2; attempt++]: the evidence of the
    first attempt without error, and the error last assigned to
    [lastErr] by the loop, if any. *)
Definition retryTwice (f : World -> (list Evidence.t * option error) * World)
    (w : World) : (list Evidence.t * option error) * World :=
  match f w with
  | ((evs, None), w1) => ((evs, None), w1)
  | ((_, Some err0), w1) =>
      match f w1 with
      | ((evs, None), w2) => ((evs, Some err0), w2)
      | ((_, Some err1), w2) => (([], Some err1), w2)
      end
  end.

(** Deduplicate by URL. *)
Fixpoint dedupLoop (evidences : list Evidence.t) (seen : gmap string bool)
    (unique : list Evidence.t) (maxResults : Z) : list Evidence.t :=
  match evidences with
  | [] => unique
  | e :: rest =>
      if negb (default false (seen !! Evidence.SourceURL e))
         && negb (String.eqb (Evidence.Snippet e) EmptyString) then
        let seen := <[Evidence.SourceURL e := true]> seen in
        let unique := unique ++ [e] in
        if maxResults <=? Z.of_nat (length unique) then unique
        else dedupLoop rest seen unique maxResults
      else dedupLoop rest seen unique maxResults
  end.

Definition DuckDuckGo_Search (c : DuckDuckGoClient) (query : string)
    (maxResults : Z) (w : World) : (list Evidence.t * option error) * World :=
  let keywords := extractKeywords c query in
  let '((instantEvidences, err1), w1) :=
    retryTwice (searchInstantAnswer c keywords maxResults) w in
  let '((htmlEvidences, err2), w2) :=
    retryTwice (searchHTMLWithContent c keywords maxResults) w1 in
  let evidences := instantEvidences ++ htmlEvidences in
  let lastErr := match err2 with Some err => Some err | None => err1 end in
  let unique := dedupLoop evidences ∅ [] maxResults in
  match unique, lastErr with
  | [], Some err => (([], Some err), w2)
  | _, _ => ((unique, None), w2)
  end.

Definition DuckDuckGo_asClient (c : DuckDuckGoClient) : SearchClient.t World :=
  SearchClient.mk World "DuckDuckGo" true (DuckDuckGo_Search c).
End DuckDuckGo.
Arguments DuckDuckGoClient : clear implicits.

(** The evidence a schedule delivers: the lists of the results
    received without error, one after the other, as received. *)
Definition delivered (results : list SearchResult.t) (c : SelectCase)
    : list Evidence.t :=
  match c with
  | RecvResult k =>
      match results !! k with
      | Some r =>
          match SearchResult.Error r with
          | Some _ => []
          | None => SearchResult.Evidences r
          end
      | None => []
      end
  | _ => []
  end.

Definition merged (results : list SearchResult.t) (sched : list SelectCase)
    : list Evidence.t :=
  concat (map (delivered results) sched).

End search.

(* ===================================================================== *)
(** ** Package llm: the provider interface *)
(* ===================================================================== *)

Module llm.

Record CompletionOptions := mkOptions {
  MaxTokens : Z;
  Temperature : float64;
  Model : string
}.

Definition DefaultCompletionOptions : CompletionOptions :=
  mkOptions 2048 0%Q EmptyString.

(** The one method of [Provider] the engine uses; it returns the pair
    [(text, err)] of the Go method. *)
Record Provider {World : Type} := mkProvider {
  CompleteWithSystem :
    string -> string -> CompletionOptions -> World -> (string * option error) * World
}.
Arguments Provider : clear implicits.

End llm.

(* ===================================================================== *)
(** ** Package database: the store interface and its SQLite reads *)
(* ===================================================================== *)

Module database.

(** The methods of [Store] the engine uses, each returning what the Go
    method returns. *)
Record Store {World : Type} := mkStore {
  SaveAnalysis : AnalysisResult.t -> World -> option error * World;
  GetAnalysisByHash :
    string -> World -> (option AnalysisResult.t * option error) * World;
  SaveClaims : string -> list Claim.t -> World -> option error * World;
  GetClaimsByAnalysis : string -> World -> (list Claim.t * option error) * World
}.
Arguments Store : clear implicits.

(** What [row.Scan] reports for the single-row query of
    [GetAnalysisByHash]. *)
Inductive ScanOutcome :=
| Scanned (result : AnalysisResult.t)
| ErrNoRows
| ScanFailed (err : error).

(** What iterating the rows of [GetClaimsByAnalysis] reports: the
    query itself fails, a row fails to scan after some rows were read,
    or all rows are read and [rows.Err()] is returned with them. *)
Inductive RowsOutcome :=
| QueryFailed (err : error)
| RowFailed (err : error)
| RowsRead (claims : list Claim.t) (rowsErr : option error).

Section SQLite.
Context {World : Type}.

(** The database behind a [SQLiteStore], seen through the queries
    the engine causes. *)
Record SQLiteStore := mkSQLite {
  queryAnalysisByHash : string -> World -> ScanOutcome * World;
  queryClaimsByAnalysis : string -> World -> RowsOutcome * World;
  execSaveAnalysis : AnalysisResult.t -> World -> option error * World;
  execSaveClaims : string -> list Claim.t -> World -> option error * World
}.

Definition SQLite_GetAnalysisByHash (s : SQLiteStore) (hash : string)
    (w : World) : (option AnalysisResult.t * option error) * World :=
  match queryAnalysisByHash s hash w with
  | (ErrNoRows, w') => ((None, None), w')
  | (ScanFailed err, w') => ((None, Some err), w')
  | (Scanned result, w') => ((Some result, None), w')
  end.

Definition SQLite_GetClaimsByAnalysis (s : SQLiteStore) (analysisID : string)
    (w : World) : (list Claim.t * option error) * World :=
  match queryClaimsByAnalysis s analysisID w with
  | (QueryFailed err, w') => (([], Some err), w')
  | (RowFailed err, w') => (([], Some err), w')
  | (RowsRead claims rowsErr, w') => ((claims, rowsErr), w')
  end.

Definition SQLiteStore_asStore (s : SQLiteStore) : Store World :=
  {| SaveAnalysis := execSaveAnalysis s;
     GetAnalysisByHash := SQLite_GetAnalysisByHash s;
     SaveClaims := execSaveClaims s;
     GetClaimsByAnalysis := SQLite_GetClaimsByAnalysis s |}.
End SQLite.
Arguments SQLiteStore : clear implicits.

End database.

(* ===================================================================== *)
(** ** Package verify: claim verifier, claim extractor, engine *)
(* ===================================================================== *)

Module verify.
Import search llm database.

Record verificationResult := mkVerification {
  vr_Status : string;
  vr_Confidence : float64;
  vr_Reasoning : string
}.

Record extractedClaim := mkExtracted {
  ec_Text : string;
  ec_Type : string;
  ec_SentenceIndex : Z
}.

Record extractionResult := mkExtraction { er_Claims : list extractedClaim }.

Record ClaimTypeConfig := mkClaimTypeConfig {
  Description : string;
  PromptHint : string
}.

(** strings.Index, strings.LastIndex (-1 when absent) and the slice
    expression [s[lo:hi]] on byte strings. *)
Definition strings_Index (s sub : string) : Z :=
  match String.index 0 sub s with
  | Some n => Z.of_nat n
  | None => -1
  end.

Fixpoint lastIndexFrom (sub s : string) (i : nat) : Z :=
  match s with
  | EmptyString => if String.prefix sub s then Z.of_nat i else -1
  | String _ s' =>
      let later := lastIndexFrom sub s' (S i) in
      if 0 <=? later then later
      else if String.prefix sub s then Z.of_nat i else -1
  end.

Definition strings_LastIndex (s sub : string) : Z := lastIndexFrom sub s 0.

Definition slice (s : string) (lo hi : Z) : string :=
  String.substring (Z.to_nat lo) (Z.to_nat (hi - lo)) s.

Definition nl : string := String (Ascii.ascii_of_nat 10) EmptyString.

(** What the packages take from outside the repository: functions of
    the Go standard library and of imported modules, and the literal
    prompt texts, whose wording no statement below depends on.
    [Unmarshal] receives the current value of its target and returns
    the value it leaves there. *)
Record Lib {World : Type} := mkLib {
  strings_TrimSpace : string -> string;
  (** [re.FindStringSubmatch(response)] for the code-fence expression:
      the first group, when [len(matches) > 1]. *)
  fenceSubmatch : string -> option string;
  json_Unmarshal_verification :
    string -> verificationResult -> verificationResult * option error;
  json_Unmarshal_extraction :
    string -> extractionResult -> extractionResult * option error;
  sha256_hex : string -> string;
  uuid_New : World -> string * World;
  time_Now : World -> Time * World;
  verifySystemPrompt : string;
  knowledgeSystemPrompt : string;
  (** [buildSystemPrompt], from the configured custom claim types. *)
  extractionSystemPrompt : list (string * ClaimTypeConfig) -> string
}.
Arguments Lib : clear implicits.

Section Verify.
Context {World : Type} (lib : Lib World).

(* ------------------------------------------------------------- *)
(** *** ClaimVerifier *)

Record ClaimVerifier := mkVerifier { v_provider : Provider World }.

Definition NewClaimVerifier (provider : Provider World) : ClaimVerifier :=
  mkVerifier provider.

Definition stripFence (response : string) : string :=
  if String.prefix "```" response then
    match fenceSubmatch lib response with
    | Some m => m
    | None => response
    end
  else response.

Definition ClaimVerifier_parseResponse (response : string)
    : verificationResult + error :=
  let response := strings_TrimSpace lib response in
  let response := stripFence response in
  let zero := mkVerification EmptyString 0%Q EmptyString in
  match json_Unmarshal_verification lib response zero with
  | (result, None) => inl result
  | (result, Some _) =>
      let start := strings_Index response "{" in
      let end_ := strings_LastIndex response "}" in
      if (0 <=? start) && (start <? end_) then
        let response := slice response start (end_ + 1) in
        match json_Unmarshal_verification lib response result with
        | (_, Some err) => inr ("invalid JSON: " +:+ err)
        | (result, None) => inl result
        end
      else inr "no JSON found in response"
  end.

(** The [switch result.Status] of both verification methods. *)
Definition statusOf (s : string) : VerificationStatus :=
  if decide (s = "verified") then StatusVerified
  else if decide (s = "mixed") then StatusMixed
  else if decide (s = "unsupported") then StatusUnsupported
  else StatusUnsupported.

Definition evidenceText (evidences : list Evidence.t) : string :=
  fold_left (fun acc '(i, e) =>
    acc +:+ nl +:+ "Evidence " +:+ pretty (Z.of_nat i + 1) +:+ ":" +:+ nl
        +:+ "Source: " +:+ Evidence.SourceName e
        +:+ " (" +:+ Evidence.SourceType e +:+ ")" +:+ nl
        +:+ "URL: " +:+ Evidence.SourceURL e +:+ nl
        +:+ "Text: " +:+ Evidence.Snippet e +:+ nl)
    (imap pair evidences) EmptyString.

Definition VerifyResult : Type :=
  VerificationStatus * float64 * string * option error.

(** Verify verifies a claim against provided evidence. *)
Definition Verify (v : ClaimVerifier) (claim : Claim.t)
    (evidences : list Evidence.t) : M World VerifyResult :=
  if decide (length evidences = 0%nat) then
    ret (StatusUnsupported, 0%Q, "No evidence found to support this claim", None)
  else
    let systemPrompt := verifySystemPrompt lib in
    let userPrompt :=
      "Claim: " +:+ Claim.Text claim +:+ nl +:+ nl +:+ "Evidence found:"
      +:+ evidenceText evidences +:+ nl +:+ nl
      +:+ "Analyze and provide verification result." in
    let opts := DefaultCompletionOptions in
    r <- call (EvComplete systemPrompt userPrompt (MaxTokens opts))
           (CompleteWithSystem (v_provider v) systemPrompt userPrompt opts) ;;
    match r.2 with
    | Some err =>
        ret (StatusUnsupported, 0%Q, EmptyString, Some ("verification failed: " +:+ err))
    | None =>
        match ClaimVerifier_parseResponse r.1 with
        | inr err =>
            ret (StatusUnsupported, 0%Q, EmptyString,
                 Some ("failed to parse verification response: " +:+ err))
        | inl result =>
            ret (statusOf (vr_Status result), vr_Confidence result,
                 vr_Reasoning result, None)
        end
    end.

(** VerifyWithoutEvidence uses LLM knowledge to verify a claim
    (air-gapped mode). *)
Definition VerifyWithoutEvidence (v : ClaimVerifier) (claim : Claim.t)
    : M World VerifyResult :=
  let systemPrompt := knowledgeSystemPrompt lib in
  let userPrompt := "Claim to verify: " +:+ Claim.Text claim in
  let opts := DefaultCompletionOptions in
  r <- call (EvComplete systemPrompt userPrompt (MaxTokens opts))
         (CompleteWithSystem (v_provider v) systemPrompt userPrompt opts) ;;
  match r.2 with
  | Some err =>
      ret (StatusUnsupported, 0%Q, EmptyString, Some ("verification failed: " +:+ err))
  | None =>
      match ClaimVerifier_parseResponse r.1 with
      | inr err =>
          ret (StatusUnsupported, 0%Q, EmptyString,
               Some ("failed to parse verification response: " +:+ err))
      | inl result =>
          ret (statusOf (vr_Status result), vr_Confidence result,
               vr_Reasoning result
               +:+ " [Note: Verified using model knowledge only, without external evidence sources]",
               None)
      end
  end.

(* ------------------------------------------------------------- *)
(** *** ClaimExtractor *)

Record ClaimExtractor := mkExtractor {
  x_provider : Provider World;
  customClaimTypes : list (string * ClaimTypeConfig)
}.

Definition NewClaimExtractor (provider : Provider World)
    (customTypes : list (string * ClaimTypeConfig)) : ClaimExtractor :=
  mkExtractor provider customTypes.

(** The loop filling [claims[i]] from [result.Claims]. *)
Definition claimOf (ec : extractedClaim) : M World Claim.t :=
  id <- ask (uuid_New lib) ;;
  ret (Claim.mk id (ec_Text ec) (ec_Type ec) (ec_SentenceIndex ec)
         StatusPending 0%Q EmptyString [] EmptyString 0).

(** The decoding part of [parseResponse]: fence stripping, direct
    parse, brace scan. *)
Definition decodeExtraction (response : string) : extractionResult + error :=
  let response := strings_TrimSpace lib response in
  let response := stripFence response in
  let zero := mkExtraction [] in
  match json_Unmarshal_extraction lib response zero with
  | (result, None) => inl result
  | (result, Some _) =>
      let start := strings_Index response "{" in
      let end_ := strings_LastIndex response "}" in
      if (0 <=? start) && (start <? end_) then
        let response := slice response start (end_ + 1) in
        match json_Unmarshal_extraction lib response result with
        | (_, Some err) => inr ("invalid JSON: " +:+ err)
        | (result, None) => inl result
        end
      else inr "no JSON found in response"
  end.

Definition ClaimExtractor_parseResponse (response : string)
    : M World (list Claim.t + error) :=
  match decodeExtraction response with
  | inr err => ret (inr err)
  | inl result =>
      claims <- mapM claimOf (er_Claims result) ;;
      ret (inl claims)
  end.

(** Extract extracts atomic factual claims from text. *)
Definition Extract (e : ClaimExtractor) (text : string)
    : M World (list Claim.t + error) :=
  let systemPrompt := extractionSystemPrompt lib (customClaimTypes e) in
  let userPrompt := "Text to analyze:" +:+ nl +:+ nl +:+ text in
  let opts := mkOptions 4096 (Temperature DefaultCompletionOptions)
                (Model DefaultCompletionOptions) in
  r <- call (EvComplete systemPrompt userPrompt (MaxTokens opts))
         (CompleteWithSystem (x_provider e) systemPrompt userPrompt opts) ;;
  match r.2 with
  | Some err => ret (inr ("failed to extract claims: " +:+ err))
  | None =>
      parsed <- ClaimExtractor_parseResponse r.1 ;;
      match parsed with
      | inr err => ret (inr ("failed to parse extraction response: " +:+ err))
      | inl claims => ret (inl claims)
      end
  end.

(* ------------------------------------------------------------- *)
(** *** Engine *)

Record SearchConfig := mkSearchConfig {
  cfg_DuckDuckGo : bool;
  cfg_Wikipedia : bool;
  cfg_PubMed : bool
}.

Record Config := mkConfig {
  cfg_Search : SearchConfig;
  cfg_CustomClaimTypes : list (string * ClaimTypeConfig)
}.

(** Engine orchestrates the complete fact-checking pipeline. *)
Record Engine := mkEngine {
  extractor : ClaimExtractor;
  verifier : ClaimVerifier;
  searchClient : AggregatedSearchClient World;
  store : Store World;
  airGapped : bool
}.

(** NewEngine creates a new verification engine.  The two clients
    are what [NewDuckDuckGoClient()] and [NewPubMedClient()]
    return; the Wikipedia client is never added. *)
Definition NewEngine (duckDuckGo pubMed : SearchClient.t World)
    (cfg : Config) (provider : Provider World) (st : Store World) : Engine :=
  let clients :=
    (if cfg_DuckDuckGo (cfg_Search cfg) then [duckDuckGo] else [])
    ++ (if cfg_PubMed (cfg_Search cfg) then [pubMed] else []) in
  let searchClient := NewAggregatedSearchClient clients in
  let airGapped := negb (HasClients searchClient) in
  mkEngine (NewClaimExtractor provider (cfg_CustomClaimTypes cfg))
           (NewClaimVerifier provider) searchClient st airGapped.

(** The choices of the Go scheduler during one run: the order in
    which the [n] verification goroutines run their bodies, and for
    the goroutine of each claim the cases its aggregated search
    receives. *)
Record Schedule := mkSchedule {
  taskOrder : nat -> list nat;
  selectCases : nat -> list SelectCase
}.

(** [wg.Wait()] returns once every goroutine has run, each once. *)
Definition runsEachOnce (sch : Schedule) : Prop :=
  forall n, taskOrder sch n ≡ₚ seq 0 n.

(** The five assignments that end a verification goroutine. *)
Definition finishClaim (claim : Claim.t) (sourceType : SourceType)
    (status : VerificationStatus) (confidence : float64) (reasoning : string)
    (evidences : list Evidence.t) : M World Claim.t :=
  now <- ask (time_Now lib) ;;
  ret (Claim.mk (Claim.ID claim) (Claim.Text claim) (Claim.Type_ claim)
         (Claim.SentenceIndex claim) status confidence sourceType
         evidences reasoning now).

(** [status], [reasoning] after the [if err != nil] of a branch. *)
Definition afterError (r : VerifyResult) (onError : string)
    : VerificationStatus * float64 * string :=
  let '(status, confidence, reasoning, err) := r in
  match err with
  | Some _ => (StatusUnsupported, confidence, onError)
  | None => (status, confidence, reasoning)
  end.

(** The body of the goroutine started for [claims[idx]], between
    acquiring and releasing the semaphore. *)
Definition verifyTask (e : Engine) (sch : Schedule)
    (acc : list Claim.t * list Warning.t) (idx : nat)
    : M World (list Claim.t * list Warning.t) :=
  let '(claims, warnings) := acc in
  match claims !! idx with
  | None => ret acc
  | Some claim =>
      if airGapped e then
        r <- VerifyWithoutEvidence (verifier e) claim ;;
        let '(status, confidence, reasoning) := afterError r "Verification error" in
        c <- finishClaim claim SourceTypeModelBased status confidence reasoning [] ;;
        ret (<[idx := c]> claims, warnings)
      else
        sr <- Search (searchClient e) (Claim.Text claim) 6 (selectCases sch idx) ;;
        let warnings := warnings ++ sr.2 in
        let evidences := sr.1 in
        if decide (length evidences = 0%nat) then
          r <- VerifyWithoutEvidence (verifier e) claim ;;
          let '(status, confidence, reasoning) :=
            afterError r "Verification error - no evidence found" in
          c <- finishClaim claim SourceTypeModelBased status confidence reasoning
                 evidences ;;
          ret (<[idx := c]> claims, warnings)
        else
          r <- Verify (verifier e) claim evidences ;;
          let '(status, confidence, reasoning) := afterError r "Verification error" in
          c <- finishClaim claim SourceTypeEvidenceBacked status confidence reasoning
                 evidences ;;
          ret (<[idx := c]> claims, warnings)
  end.

Definition verifyClaims (e : Engine) (sch : Schedule) (claims : list Claim.t)
    : M World (list Claim.t * list Warning.t) :=
  foldM (verifyTask e sch) (taskOrder sch (length claims)) (claims, []).

(** The counting loop of [calculateAnalysis]. *)
Definition countStep (acc : Z * Z * Z) (claim : Claim.t) : Z * Z * Z :=
  let '(verified, mixed, unsupported) := acc in
  if decide (Claim.Status claim = StatusVerified) then (verified + 1, mixed, unsupported)
  else if decide (Claim.Status claim = StatusMixed) then (verified, mixed + 1, unsupported)
  else if decide (Claim.Status claim = StatusUnsupported) then (verified, mixed, unsupported + 1)
  else acc.

Definition countStatuses (claims : list Claim.t) : Z * Z * Z :=
  fold_left countStep claims (0, 0, 0).

(** Calculate overall score (0-10). *)
Definition overallScore (verified mixed : Z) (total : Z) : float64 :=
  if 0 <? total then
    let scoreSum := (inject_Z verified + inject_Z mixed * (1 # 2))%Q in
    ((scoreSum / inject_Z total) * 10)%Q
  else 0%Q.

Definition calculateAnalysis (docHash : string) (claims : list Claim.t)
    (duration : Z) : M World AnalysisResult.t :=
  let '(verified, mixed, unsupported) := countStatuses claims in
  let score := overallScore verified mixed (Z.of_nat (length claims)) in
  id <- ask (uuid_New lib) ;;
  now <- ask (time_Now lib) ;;
  ret (AnalysisResult.mk id docHash score (Z.of_nat (length claims))
         verified mixed unsupported (duration `quot` 1000000) "completed" now).

(** Steps 1 to 4 of [VerifyText], reached when no analysis is
    stored under the hash. *)
Definition fullRun (e : Engine) (sch : Schedule) (text docHash : string)
    (startTime : Time) : M World (VerificationResponse.t + error) :=
  extracted <- Extract (extractor e) text ;;
  match extracted with
  | inr err => ret (inr err)
  | inl claims =>
      vc <- verifyClaims e sch claims ;;
      let claims := vc.1 in
      let warnings := [] ++ vc.2 in
      now <- ask (time_Now lib) ;;
      analysis <- calculateAnalysis docHash claims (now - startTime) ;;
      _ <- call (EvSaveAnalysis analysis) (SaveAnalysis (store e) analysis) ;;
      _ <- call (EvSaveClaims (AnalysisResult.ID analysis) claims)
             (SaveClaims (store e) (AnalysisResult.ID analysis) claims) ;;
      ret (inl (VerificationResponse.mk (AnalysisResult.ID analysis) docHash
                  analysis claims warnings))
  end.

(** VerifyText processes text through the complete fact-checking
    pipeline. *)
Definition VerifyText (e : Engine) (sch : Schedule) (text : string)
    : M World (VerificationResponse.t + error) :=
  startTime <- ask (time_Now lib) ;;
  let docHash := sha256_hex lib text in
  looked <- call (EvGetAnalysisByHash docHash)
              (GetAnalysisByHash (store e) docHash) ;;
  match looked.1 with
  | Some existing =>
      got <- call (EvGetClaimsByAnalysis (AnalysisResult.ID existing))
               (GetClaimsByAnalysis (store e) (AnalysisResult.ID existing)) ;;
      ret (inl (VerificationResponse.mk (AnalysisResult.ID existing) docHash
                  existing got.1 []))
  | None => fullRun e sch text docHash startTime
  end.
End Verify.
End verify.

(* ===================================================================== *)
(** ** The admission protocol of [verifyClaims] *)
(* ===================================================================== *)

(** The goroutines of [verifyClaims] and the channel [semaphore], as a
    transition system.  A goroutine is started by the loop of the main
    goroutine after [wg.Add(1)]; it sends on [semaphore], runs the
    verification of its claim, receives from [semaphore] (first deferred
    call to run) and calls [wg.Done()] (last deferred call to run). *)
Module admission.

(** [semaphore := make(chan struct{}, 5)] *)
Definition capacity : nat := 5.

Inductive Phase :=
| Waiting     (* started, has not yet sent on [semaphore] *)
| InFlight    (* sent on [semaphore]; verifying its claim *)
| Released    (* received from [semaphore]; [wg.Done()] not yet called *)
| Finished.

Global Instance Phase_eq_dec : EqDecision Phase.
Proof. solve_decision. Defined.

Record State := mkState {
  tasks : list Phase;    (* one entry per goroutine started so far *)
  buffered : nat;        (* [len(semaphore)] *)
  wg : nat;              (* the counter of the wait group *)
  admitted : list nat    (* the claims whose goroutine was admitted, in order *)
}.

Definition init : State := mkState [] 0 0 [].

Definition inFlight (s : State) : nat :=
  length (filter (fun p => p = InFlight) (tasks s)).

(** [n] is [len(claims)]. *)
Inductive step (n : nat) : State -> State -> Prop :=
| step_go s :
    (length (tasks s) < n)%nat ->
    step n s (mkState (tasks s ++ [Waiting]) (buffered s) (S (wg s)) (admitted s))
| step_send s idx :
    tasks s !! idx = Some Waiting ->
    (buffered s < capacity)%nat ->
    step n s (mkState (<[idx := InFlight]> (tasks s)) (S (buffered s)) (wg s)
                (admitted s ++ [idx]))
| step_receive s idx :
    tasks s !! idx = Some InFlight ->
    (0 < buffered s)%nat ->
    step n s (mkState (<[idx := Released]> (tasks s)) (pred (buffered s)) (wg s)
                (admitted s))
| step_done s idx :
    tasks s !! idx = Some Released ->
    step n s (mkState (<[idx := Finished]> (tasks s)) (buffered s) (pred (wg s))
                (admitted s)).

Inductive reachable (n : nat) : State -> Prop :=
| reach_init : reachable n init
| reach_step s s' : reachable n s -> step n s s' -> reachable n s'.

(** [wg.Wait()] returns. *)
Definition waitReturns (n : nat) (s : State) : Prop :=
  length (tasks s) = n /\ wg s = 0%nat.

(** The same transitions, as a function of the action the scheduler
    picks; [None] when the action is not enabled. *)
Inductive Action :=
| Go
| Send (idx : nat)
| Receive (idx : nat)
| Done (idx : nat).

Definition act (n : nat) (s : State) (a : Action) : option State :=
  match a with
  | Go =>
      if decide (length (tasks s) < n)%nat
      then Some (mkState (tasks s ++ [Waiting]) (buffered s) (S (wg s)) (admitted s))
      else None
  | Send idx =>
      if decide (tasks s !! idx = Some Waiting /\ (buffered s < capacity)%nat)
      then Some (mkState (<[idx := InFlight]> (tasks s)) (S (buffered s)) (wg s)
                   (admitted s ++ [idx]))
      else None
  | Receive idx =>
      if decide (tasks s !! idx = Some InFlight /\ (0 < buffered s)%nat)
      then Some (mkState (<[idx := Released]> (tasks s)) (pred (buffered s)) (wg s)
                   (admitted s))
      else None
  | Done idx =>
      if decide (tasks s !! idx = Some Released)
      then Some (mkState (<[idx := Finished]> (tasks s)) (buffered s) (pred (wg s))
                   (admitted s))
      else None
  end.

Fixpoint run (n : nat) (acts : list Action) (s : State) : option State :=
  match acts with
  | [] => Some s
  | a :: acts' =>
      match act n s a with
      | Some s' => run n acts' s'
      | None => None
      end
  end.

End admission.

(* ===================================================================== *)
(** ** Package search, continued: the PubMed source and the DuckDuckGo
       instant answers *)
(* ===================================================================== *)

Module sources.
Import search.

Record HTTPResponse := mkResponse { StatusCode : Z; Body : string }.

(** What the two clients take from outside the repository: the URL
    escaping, the creation of a request (which fails on a URL that does
    not parse), the HTTP round trip, the JSON decoders, identifiers and
    the clock. *)
Record Net {World : Type} := mkNet {
  url_QueryEscape : string -> string;
  http_NewRequest : string -> option error;
  httpClient_Do : string -> World -> (HTTPResponse + error) * World;
  net_uuid_New : World -> string * World;
  net_time_Now : World -> Time * World
}.
Arguments Net : clear implicits.

(* ------------------------------------------------------------------- *)
(** *** PubMed *)

Record article := mkArticle { Title : string; PubDate : string; Source : string }.

Record pubmedSearchResponse := mkSearchResponse { IDList : list string }.

Record pubmedSummaryResponse := mkSummaryResponse { Result : gmap string article }.

Section PubMed.
Context {World : Type}.

Record PubMedClient := mkPubMed {
  pm_net : Net World;
  pm_decodeSearch : string -> pubmedSearchResponse + error;
  pm_decodeSummary : string -> pubmedSummaryResponse + error
}.

Definition searchURL (c : PubMedClient) (query : string) (maxResults : Z) : string :=
  "https://eutils.ncbi.nlm.nih.gov/entrez/eutils/esearch.fcgi?db=pubmed&term="
  +:+ url_QueryEscape (pm_net c) query +:+ "&retmax=" +:+ pretty maxResults
  +:+ "&retmode=json".

Definition summaryURL (ids : list string) : string :=
  "https://eutils.ncbi.nlm.nih.gov/entrez/eutils/esummary.fcgi?db=pubmed&id="
  +:+ String.concat "," ids +:+ "&retmode=json".

Definition articleURL (pmid : string) : string :=
  "https://pubmed.ncbi.nlm.nih.gov/" +:+ pmid +:+ "/".

Definition snippetOf (a : article) : string :=
  if String.eqb (Source a) EmptyString then Title a
  else Title a +:+ " (Published in " +:+ Source a +:+ ", " +:+ PubDate a +:+ ")".

(** The loop over [searchData.ESearchResult.IDList]. *)
Fixpoint buildEvidences (c : PubMedClient) (result : gmap string article)
    (now : Time) (ids : list string) (w : World) : list Evidence.t * World :=
  match ids with
  | [] => ([], w)
  | pmid :: rest =>
      match result !! pmid with
      | None => buildEvidences c result now rest w
      | Some a =>
          if String.eqb (Title a) EmptyString then buildEvidences c result now rest w
          else
            let '(id, w1) := net_uuid_New (pm_net c) w in
            let '(evs, w2) := buildEvidences c result now rest w1 in
            (Evidence.mk id "PubMed" (articleURL pmid) "academic" (snippetOf a) 0%Q now
               :: evs, w2)
      end
  end.

(** Search searches PubMed for academic evidence. *)
Definition PubMed_Search (c : PubMedClient) (query : string) (maxResults : Z)
    (w : World) : (list Evidence.t * option error) * World :=
  match http_NewRequest (pm_net c) (searchURL c query maxResults) with
  | Some err => (([], Some ("failed to create request: " +:+ err)), w)
  | None =>
  match httpClient_Do (pm_net c) (searchURL c query maxResults) w with
  | (inr err, w1) => (([], Some ("PubMed search failed: " +:+ err)), w1)
  | (inl resp, w1) =>
  if negb (StatusCode resp =? 200) then
    (([], Some ("PubMed returned status " +:+ pretty (StatusCode resp))), w1)
  else
  match pm_decodeSearch c (Body resp) with
  | inr err => (([], Some ("failed to decode search response: " +:+ err)), w1)
  | inl searchData =>
  if decide (length (IDList searchData) = 0%nat) then (([], None), w1)
  else
  match http_NewRequest (pm_net c) (summaryURL (IDList searchData)) with
  | Some err => (([], Some ("failed to create summary request: " +:+ err)), w1)
  | None =>
  match httpClient_Do (pm_net c) (summaryURL (IDList searchData)) w1 with
  | (inr err, w2) => (([], Some ("PubMed summary failed: " +:+ err)), w2)
  | (inl resp2, w2) =>
  match pm_decodeSummary c (Body resp2) with
  | inr err => (([], Some ("failed to decode summary response: " +:+ err)), w2)
  | inl summaryData =>
      let '(now, w3) := net_time_Now (pm_net c) w2 in
      let '(evs, w4) := buildEvidences c (Result summaryData) now (IDList searchData) w3 in
      ((evs, None), w4)
  end end end end end end.

Definition PubMed_asClient (c : PubMedClient) : SearchClient.t World :=
  SearchClient.mk World "PubMed" true (PubMed_Search c).
End PubMed.
Arguments PubMedClient : clear implicits.

(* ------------------------------------------------------------------- *)
(** *** DuckDuckGo: the Instant Answer API *)

Record relatedTopic := mkTopic { Text : string; FirstURL : string }.

Record ddgResponse := mkDDG {
  Abstract : string;
  AbstractURL : string;
  Heading : string;
  RelatedTopics : list relatedTopic
}.

Section InstantAnswer.
Context {World : Type}.

Record InstantAnswerClient := mkInstant {
  ia_net : Net World;
  ia_decode : string -> ddgResponse + error
}.

Definition instantURL (c : InstantAnswerClient) (query : string) : string :=
  "https://api.duckduckgo.com/?q=" +:+ url_QueryEscape (ia_net c) query
  +:+ "&format=json&no_html=1&skip_disambig=1".

(** The loop over [data.RelatedTopics], from the evidences collected so
    far. *)
Fixpoint topicEvidences (c : InstantAnswerClient) (now : Time) (maxResults : Z)
    (topics : list relatedTopic) (evidences : list Evidence.t) (w : World)
    : list Evidence.t * World :=
  match topics with
  | [] => (evidences, w)
  | topic :: rest =>
      if maxResults <=? Z.of_nat (length evidences) then (evidences, w)
      else if negb (String.eqb (Text topic) EmptyString) then
        let '(id, w1) := net_uuid_New (ia_net c) w in
        topicEvidences c now maxResults rest
          (evidences ++ [Evidence.mk id "DuckDuckGo" (FirstURL topic) "search_engine"
                           (Text topic) 0%Q now]) w1
      else topicEvidences c now maxResults rest evidences w
  end.

(** searchInstantAnswer uses the Instant Answer API. *)
Definition searchInstantAnswer_impl (c : InstantAnswerClient) (query : string)
    (maxResults : Z) (w : World) : (list Evidence.t * option error) * World :=
  match http_NewRequest (ia_net c) (instantURL c query) with
  | Some err => (([], Some err), w)
  | None =>
  match httpClient_Do (ia_net c) (instantURL c query) w with
  | (inr err, w1) => (([], Some err), w1)
  | (inl resp, w1) =>
  if negb (StatusCode resp =? 200) then
    (([], Some ("status " +:+ pretty (StatusCode resp))), w1)
  else
  match ia_decode c (Body resp) with
  | inr err => (([], Some err), w1)
  | inl data =>
      let '(now, w2) := net_time_Now (ia_net c) w1 in
      let '(first, w3) :=
        if negb (String.eqb (Abstract data) EmptyString) then
          let '(id, w3) := net_uuid_New (ia_net c) w2 in
          ([Evidence.mk id "DuckDuckGo" (AbstractURL data) "search_engine"
              (Abstract data) 0%Q now], w3)
        else ([], w2) in
      let '(evs, w4) := topicEvidences c now maxResults (RelatedTopics data) first w3 in
      ((evs, None), w4)
  end end end.
End InstantAnswer.
Arguments InstantAnswerClient : clear implicits.

End sources.

(* ===================================================================== *)
(** ** Package config *)
(* ===================================================================== *)

Module config.

Record ServerConfig := mkServerConfig { Port : Z; EnableUI : bool }.

Record DatabaseConfig := mkDatabaseConfig {
  Driver : string;
  Path : string;
  URL : string
}.

Record LLMConfig := mkLLMConfig {
  Provider : string;
  Model : string;
  APIKey : string;
  AzureEndpoint : string;
  AzureDeployment : string;
  OllamaURL : string;
  EmbeddingModel : string
}.

Record GoogleConfig := mkGoogleConfig {
  Enabled : bool;
  GoogleAPIKey : string;
  SearchEngineID : string
}.

Record SearchConfig := mkSearchConfig {
  DuckDuckGo : bool;
  Wikipedia : bool;
  PubMed : bool;
  Google : GoogleConfig
}.

Record RateLimitConfig := mkRateLimitConfig {
  RequestsPerMinute : Z;
  TokensPerDay : Z
}.

Record LoggingConfig := mkLoggingConfig { Level : string; Format : string }.

Record Config := mkConfig {
  Server : ServerConfig;
  Database : DatabaseConfig;
  LLM : LLMConfig;
  Search : SearchConfig;
  RateLimits : RateLimitConfig;
  Logging : LoggingConfig;
  CustomClaimTypes : gmap string verify.ClaimTypeConfig
}.

(** DefaultConfig returns a configuration with sensible defaults. *)
Definition DefaultConfig : Config :=
  mkConfig
    (mkServerConfig 8080 true)
    (mkDatabaseConfig "sqlite" "./data/verity.db" EmptyString)
    (mkLLMConfig "openai" "gpt-4o-mini" EmptyString EmptyString EmptyString EmptyString
       "text-embedding-ada-002")
    (mkSearchConfig true true true (mkGoogleConfig false EmptyString EmptyString))
    (mkRateLimitConfig 60 100000)
    (mkLoggingConfig "info" "json")
    ∅.

Definition validProviders : gmap string bool :=
  <["openai" := true]> (<["azure" := true]> (<["anthropic" := true]>
    (<["gemini" := true]> (<["ollama" := true]> ∅)))).

(** Validate checks that the configuration is valid. *)
Definition Validate (c : Config) : option error :=
  if (Port (Server c) <? 1) || (65535 <? Port (Server c)) then
    Some ("invalid port: " +:+ pretty (Port (Server c)))
  else if negb (String.eqb (Driver (Database c)) "sqlite")
          && negb (String.eqb (Driver (Database c)) "postgres") then
    Some ("unsupported database driver: " +:+ Driver (Database c))
  else if negb (default false (validProviders !! Provider (LLM c))) then
    Some ("unsupported LLM provider: " +:+ Provider (LLM c))
  else if String.eqb (Provider (LLM c)) "openai" then
    if String.eqb (APIKey (LLM c)) EmptyString then Some "OpenAI API key is required"
    else None
  else if String.eqb (Provider (LLM c)) "anthropic" then
    if String.eqb (APIKey (LLM c)) EmptyString then Some "Anthropic API key is required"
    else None
  else if String.eqb (Provider (LLM c)) "gemini" then
    if String.eqb (APIKey (LLM c)) EmptyString then Some "Gemini API key is required"
    else None
  else None.

(** What [Load] takes from outside: the file system, the YAML decoder
    (which overwrites the fields the file sets in the configuration it
    is given), and [interpolateEnvVars], a regular-expression
    replacement that reads the environment. *)
Record OS {World : Type} := mkOS {
  os_ReadFile : string -> World -> (string + error) * World;
  os_IsNotExist : error -> bool;
  interpolateEnvVars : string -> World -> string;
  yaml_Unmarshal : string -> Config -> Config * option error
}.
Arguments OS : clear implicits.

(** Load reads configuration from a YAML file. *)
Definition Load {World : Type} (os : OS World) (path : string) (w : World)
    : (Config + error) * World :=
  match os_ReadFile os path w with
  | (inr err, w1) =>
      if os_IsNotExist os err then
        (inr ("config file not found: " +:+ path
              +:+ " (run with --generate-config to create one)"), w1)
      else (inr ("failed to read config file: " +:+ err), w1)
  | (inl data, w1) =>
      let content := interpolateEnvVars os data w1 in
      let '(cfg, err) := yaml_Unmarshal os content DefaultConfig in
      match err with
      | Some err => (inr ("failed to parse config file: " +:+ err), w1)
      | None =>
          match Validate cfg with
          | Some err => (inr ("invalid configuration: " +:+ err), w1)
          | None => (inl cfg, w1)
          end
      end
  end.

End config.

(* ===================================================================== *)
(** ** Package llm, continued: the construction of a provider *)
(* ===================================================================== *)

Module providers.
Import config.

(** The four implementations of [Provider], with the fields their
    constructors set (the HTTP clients apart). *)
Inductive ProviderImpl :=
| OpenAIProvider (apiKey model embeddingModel : string)
| AnthropicProvider (apiKey model : string)
| GeminiProvider (apiKey model : string)
| OllamaProvider (baseURL model : string).

Definition orDefault (value fallback : string) : string :=
  if String.eqb value EmptyString then fallback else value.

Definition NewOpenAIProvider (cfg : LLMConfig) : ProviderImpl + error :=
  if String.eqb (APIKey cfg) EmptyString then inr "OpenAI API key is required"
  else inl (OpenAIProvider (APIKey cfg) (orDefault (Model cfg) "gpt-4o-mini")
              (orDefault (EmbeddingModel cfg) "text-embedding-ada-002")).

Definition NewAnthropicProvider (cfg : LLMConfig) : ProviderImpl + error :=
  if String.eqb (APIKey cfg) EmptyString then inr "Anthropic API key is required"
  else inl (AnthropicProvider (APIKey cfg) (orDefault (Model cfg) "claude-3-haiku-20240307")).

Definition NewGeminiProvider (cfg : LLMConfig) : ProviderImpl + error :=
  if String.eqb (APIKey cfg) EmptyString then inr "Gemini API key is required"
  else inl (GeminiProvider (APIKey cfg) (orDefault (Model cfg) "gemini-1.5-flash")).

Definition NewOllamaProvider (cfg : LLMConfig) : ProviderImpl + error :=
  inl (OllamaProvider (orDefault (OllamaURL cfg) "http://localhost:11434")
         (orDefault (Model cfg) "llama3")).

(** NewProvider creates a new LLM provider based on configuration. *)
Definition NewProvider (cfg : LLMConfig) : ProviderImpl + error :=
  if String.eqb (Provider cfg) "openai" then NewOpenAIProvider cfg
  else if String.eqb (Provider cfg) "anthropic" then NewAnthropicProvider cfg
  else if String.eqb (Provider cfg) "gemini" then NewGeminiProvider cfg
  else if String.eqb (Provider cfg) "ollama" then NewOllamaProvider cfg
  else inr ("unsupported LLM provider: " +:+ Provider cfg).

(** Name returns the provider name. *)
Definition Name (p : ProviderImpl) : string :=
  match p with
  | OpenAIProvider _ _ _ => "openai"
  | AnthropicProvider _ _ => "anthropic"
  | GeminiProvider _ _ => "gemini"
  | OllamaProvider _ _ => "ollama"
  end.

(** The field [model] of each implementation. *)
Definition modelOf (p : ProviderImpl) : string :=
  match p with
  | OpenAIProvider _ model _ => model
  | AnthropicProvider _ model => model
  | GeminiProvider _ model => model
  | OllamaProvider _ model => model
  end.

End providers.

(* ===================================================================== *)
(** ** Package api: the handlers of the verification endpoints *)
(* ===================================================================== *)

Module api.
Import search llm database verify.

Record VerifyRequest := mkVerifyRequest { Text : string; ModelSource : string }.

(** What a handler writes: the status code and the value it encodes as
    the JSON body. *)
Inductive Body :=
| ErrorBody (message : string)
| ResponseBody (response : VerificationResponse.t)
| PageBody (results : list AnalysisResult.t) (limit offset : Z).

Record Reply := mkReply { status : Z; body : Body }.

Definition writeJSON (status : Z) (data : Body) : Reply := mkReply status data.

Definition writeError (status : Z) (message : string) : Reply :=
  mkReply status (ErrorBody message).

Section Handlers.
Context {World : Type} (lib : Lib World).

(** The decoder of the request body, the parser of the query
    parameters, and the method of the store that lists the analyses. *)
Record Handler := mkHandler {
  engine : Engine (World := World);
  json_Decode_VerifyRequest : string -> VerifyRequest + error;
  strconv_Atoi : string -> Z * option error;
  store_ListAnalyses : Z -> Z -> World -> (list AnalysisResult.t * option error) * World
}.

(** VerifyText handles text verification requests. *)
Definition Handler_VerifyText (h : Handler) (sch : Schedule) (requestBody : string)
    : M World Reply :=
  match json_Decode_VerifyRequest h requestBody with
  | inr _ => ret (writeError 400 "Invalid request body")
  | inl req =>
      if String.eqb (Text req) EmptyString then ret (writeError 400 "Text is required")
      else
        r <- VerifyText lib (engine h) sch (Text req) ;;
        match r with
        | inr err => ret (writeError 500 ("Verification failed: " +:+ err))
        | inl result => ret (writeJSON 201 (ResponseBody result))
        end
  end.

(** ListResults returns paginated verification results.  [query] is
    [r.URL.Query().Get]. *)
Definition Handler_ListResults (h : Handler) (query : string -> string) (w : World)
    : Reply * World :=
  let limit := (strconv_Atoi h (query "limit")).1 in
  let limit := if (limit <=? 0) || (100 <? limit) then 20 else limit in
  let offset := (strconv_Atoi h (query "offset")).1 in
  let offset := if offset <? 0 then 0 else offset in
  match store_ListAnalyses h limit offset w with
  | ((_, Some _), w1) => (writeError 500 "Failed to list results", w1)
  | ((results, None), w1) => (writeJSON 200 (PageBody results limit offset), w1)
  end.
End Handlers.
Arguments Handler : clear implicits.

(* ------------------------------------------------------------------- *)
(** *** The authentication middleware *)

Record APIKey := mkAPIKey {
  ak_ID : string;
  ak_KeyHash : string;
  ak_Name : string;
  ak_RequestsPerMinute : Z;
  ak_TokensPerDay : Z;
  ak_CreatedAt : Time;
  ak_LastUsedAt : option Time
}.

(** What the middleware reads of a request: [r.URL.Path] and
    [r.Header.Get("Authorization")], empty when the header is absent. *)
Record Request := mkRequest { URL_Path : string; Authorization : string }.

(** What the middleware does with a request: it writes an error with
    [http.Error], or it calls [next], with the request as it is
    ([Forwarded None]) or, after starting the goroutine that records
    the use of the key, with the key in the context of the request. *)
Inductive Served :=
| Rejected (code : Z) (message : string)
| Forwarded (key : option APIKey).

(** [strings.SplitN(s, " ", 2)]: the text before the first space and
    the text after it, or [s] alone when it has no space. *)
Definition space : Ascii.ascii := Ascii.ascii_of_nat 32.

Fixpoint splitAtSpace (s : string) : option (string * string) :=
  match s with
  | EmptyString => None
  | String a rest =>
      if Ascii.eqb a space then Some (EmptyString, rest)
      else match splitAtSpace rest with
           | Some (before, after) => Some (String a before, after)
           | None => None
           end
  end.

Definition strings_SplitN2 (s : string) : list string :=
  match splitAtSpace s with
  | Some (before, after) => [before; after]
  | None => [s]
  end.

Definition quote : string := String (Ascii.ascii_of_nat 34) EmptyString.

(** The bodies the middleware writes: a JSON object with the one field
    [error]. *)
Definition errorJSON (message : string) : string :=
  "{" +:+ quote +:+ "error" +:+ quote +:+ ": " +:+ quote +:+ message +:+ quote +:+ "}".

Record AuthStore {World : Type} := mkAuthStore {
  strings_ToLower : string -> string;
  auth_sha256_hex : string -> string;
  GetAPIKeyByHash : string -> World -> (option APIKey * option error) * World
}.
Arguments AuthStore : clear implicits.

(** AuthMiddleware validates API keys. *)
Definition AuthMiddleware {World : Type} (store : AuthStore World) (r : Request)
    (w : World) : Served * World :=
  if String.eqb (URL_Path r) "/api/v1/health" then (Forwarded None, w)
  else if String.eqb (Authorization r) EmptyString then
    (Rejected 401 (errorJSON "Missing Authorization header"), w)
  else
    match strings_SplitN2 (Authorization r) with
    | [scheme; apiKey] =>
        if negb (String.eqb (strings_ToLower store scheme) "bearer") then
          (Rejected 401 (errorJSON "Invalid Authorization header format"), w)
        else
          match GetAPIKeyByHash store (auth_sha256_hex store apiKey) w with
          | ((_, Some _), w1) => (Rejected 500 (errorJSON "Internal server error"), w1)
          | ((None, None), w1) => (Rejected 401 (errorJSON "Invalid API key"), w1)
          | ((Some key, None), w1) => (Forwarded (Some key), w1)
          end
    | _ => (Rejected 401 (errorJSON "Invalid Authorization header format"), w)
    end.

End api.

(* ===================================================================== *)
(** ** A small concrete world, used to run the definitions *)
(* ===================================================================== *)

Module Demo.
Import search llm database verify.

(** The world is a tick counter, read by the clock and by the
    identifier generator. *)
Definition W : Type := nat.

Definition ev (url snippet : string) : Evidence.t :=
  Evidence.mk "e" "src" url "web_page" snippet 0%Q 0.

Definition source (name : string) (answer : list Evidence.t * option error)
    : SearchClient.t W :=
  SearchClient.mk W name true (fun _ _ w => (answer, w)).

(** The two sources [NewEngine] can configure. *)
Definition twoSources : AggregatedSearchClient W :=
NewAggregatedSearchClient
  [source "DuckDuckGo" ([ev "http://d/1" "delta"], None);
   source "PubMed" ([ev "http://p/1" "pi"], None)].

(** Two sources that report the same page, one with an empty snippet. *)
Definition overlapping : AggregatedSearchClient W :=
  NewAggregatedSearchClient
    [source "A" ([ev "http://x/1" "alpha"], None);
     source "B" ([ev "http://x/1" EmptyString], None)].

Definition lib : Lib W :=
  {| strings_TrimSpace := fun s => s;
     fenceSubmatch := fun _ => None;
     json_Unmarshal_verification := fun txt cur =>
       if decide (txt = "V") then (mkVerification "verified" (9 # 10) "fine", None)
       else if decide (txt = "M") then (mkVerification "mixed" (1 # 2) "partly", None)
       else if decide (txt = "U") then (mkVerification "unsupported" (1 # 10) "no", None)
       else if decide (txt = "X") then (mkVerification "plausible" (1 # 2) "hm", None)
       else (cur, Some "unexpected token");
     json_Unmarshal_extraction := fun txt cur =>
       if decide (txt = "E0") then (mkExtraction [], None)
       else if decide (txt = "E2") then
         (mkExtraction [mkExtracted "Water boils at 100 C" "factual" 0;
                        mkExtracted "The moon is made of cheese" "opinion" 1], None)
       else (cur, Some "unexpected token");
     sha256_hex := fun text => "sha256:" +:+ text;
     uuid_New := fun w => ("id-" +:+ pretty w, S w);
     time_Now := fun w => (Z.of_nat w * 1000000, S w);
     verifySystemPrompt := "verify";
     knowledgeSystemPrompt := "knowledge";
     extractionSystemPrompt := fun _ => "extract" |}.

(** A provider that answers the extraction prompt with [extraction]
    and every other prompt with [verdict]. *)
Definition provider (extraction verdict : string * option error) : Provider W :=
  {| CompleteWithSystem := fun system _ _ w =>
       if decide (system = "extract") then (extraction, w) else (verdict, w) |}.

Definition cached : AnalysisResult.t :=
  AnalysisResult.mk "cached-id" "sha256:hello" (10 # 1) 2 2 0 0 12 "completed" 7.

Definition sqlite (lookup : ScanOutcome) (rows : RowsOutcome) : SQLiteStore W :=
  {| queryAnalysisByHash := fun _ w => (lookup, w);
     queryClaimsByAnalysis := fun _ w => (rows, w);
     execSaveAnalysis := fun _ w => (None, w);
     execSaveClaims := fun _ _ w => (None, w) |}.

Definition cfg (ddg pubmed : bool) : Config :=
  mkConfig (mkSearchConfig ddg false pubmed) [].

Definition engine (ddg pubmed : bool) (extraction verdict : string * option error)
    (lookup : ScanOutcome) (rows : RowsOutcome) : Engine :=
  NewEngine (source "DuckDuckGo" ([ev "http://d/1" "delta"], None))
            (source "PubMed" ([], Some "PubMed returned status 500"))
            (cfg ddg pubmed) (provider extraction verdict)
            (SQLiteStore_asStore (sqlite lookup rows)).

Definition inOrder : Schedule :=
  mkSchedule (fun n => seq 0 n) (fun _ => [RecvResult 0; RecvResult 1]).

Definition s0 : St W := mkSt 0%nat [].

Definition someClaim : Claim.t :=
  Claim.mk "c1" "Water boils at 100 C" "factual" 0 StatusPending 0%Q
           EmptyString [] EmptyString 0.

Definition twoClaims : list Claim.t :=
  [someClaim;
   Claim.mk "c2" "The moon is made of cheese" "opinion" 1 StatusPending 0%Q
     EmptyString [] EmptyString 0].

(** The aggregator of the concrete engine: DuckDuckGo answers, PubMed
    fails. *)
Definition oneFails : AggregatedSearchClient W :=
  searchClient (engine true true ("E2", None) ("V", None) ErrNoRows (RowsRead [] None)).

(** A network that answers every request with status 200 and the URL
    as the body. *)
Definition net : sources.Net W :=
  {| sources.url_QueryEscape := fun s => s;
     sources.http_NewRequest := fun _ => None;
     sources.httpClient_Do := fun url w => (inl (sources.mkResponse 200 url), S w);
     sources.net_uuid_New := fun w => ("id-" +:+ pretty w, S w);
     sources.net_time_Now := fun w => (Z.of_nat w * 1000000, S w) |}.

(** PubMed finds three ids; the summary knows two of them, one without
    a title. *)
Definition pubmed : sources.PubMedClient W :=
  {| sources.pm_net := net;
     sources.pm_decodeSearch := fun _ => inl (sources.mkSearchResponse ["11"; "22"; "33"]);
     sources.pm_decodeSummary := fun _ =>
       inl (sources.mkSummaryResponse
              (<["11" := sources.mkArticle "Boiling points" "2020" "Nature"]>
                 (<["22" := sources.mkArticle EmptyString "2021" "Science"]> ∅))) |}.

Definition instant : sources.InstantAnswerClient W :=
  {| sources.ia_net := net;
     sources.ia_decode := fun _ =>
       inl (sources.mkDDG "Water boils at 100 C at sea level" "http://d/water" "Water"
              [sources.mkTopic "Boiling" "http://d/boiling";
               sources.mkTopic EmptyString "http://d/none";
               sources.mkTopic "Steam" "http://d/steam"]) |}.

Definition handler (extraction : string * option error) : api.Handler W :=
  {| api.engine := engine true true extraction ("V", None) ErrNoRows (RowsRead [] None);
     api.json_Decode_VerifyRequest := fun body =>
       if decide (body = "{") then inr "unexpected end of JSON input"
       else inl (api.mkVerifyRequest body EmptyString);
     api.strconv_Atoi := fun s =>
       if decide (s = "7") then (7, None)
       else if decide (s = "500") then (500, None)
       else (0, Some "invalid syntax");
     api.store_ListAnalyses := fun limit offset w => (([cached], None), w) |}.

(** A store that holds nothing and refuses every save. *)
Definition fullDisk : SQLiteStore W :=
  {| queryAnalysisByHash := fun _ w => (ErrNoRows, w);
     queryClaimsByAnalysis := fun _ w => (RowsRead [] None, w);
     execSaveAnalysis := fun _ w => (Some "disk full", w);
     execSaveClaims := fun _ _ w => (Some "disk full", w) |}.

Definition knownKey : api.APIKey :=
  api.mkAPIKey "k1" "sha256:vrt_abc" "ci" 60 100000 0 None.

(** A store that knows one key. *)
Definition auth : api.AuthStore W :=
  {| api.strings_ToLower := fun s => if decide (s = "Bearer") then "bearer" else s;
     api.auth_sha256_hex := fun s => "sha256:" +:+ s;
     api.GetAPIKeyByHash := fun hash w =>
       if decide (hash = "sha256:vrt_abc") then ((Some knownKey, None), S w)
       else ((None, None), S w) |}.

Definition os (answer : config.Config * option error) : config.OS W :=
  {| config.os_ReadFile := fun path w => (inl path, w);
     config.os_IsNotExist := fun _ => false;
     config.interpolateEnvVars := fun content _ => content;
     config.yaml_Unmarshal := fun _ _ => answer |}.

Definition azure : config.Config :=
  config.mkConfig
    (config.mkServerConfig 8080 true)
    (config.mkDatabaseConfig "sqlite" "./data/verity.db" EmptyString)
    (config.mkLLMConfig "azure" "gpt-4o" EmptyString "https://example" "dep"
       EmptyString EmptyString)
    (config.mkSearchConfig true true true
       (config.mkGoogleConfig false EmptyString EmptyString))
    (config.mkRateLimitConfig 60 100000)
    (config.mkLoggingConfig "info" "json")
    ∅.

Definition ollama : config.Config :=
  config.mkConfig
    (config.mkServerConfig 8080 true)
    (config.mkDatabaseConfig "sqlite" "./data/verity.db" EmptyString)
    (config.mkLLMConfig "ollama" EmptyString EmptyString EmptyString EmptyString
       EmptyString EmptyString)
    (config.mkSearchConfig false false false
       (config.mkGoogleConfig false EmptyString EmptyString))
    (config.mkRateLimitConfig 60 100000)
    (config.mkLoggingConfig "info" "json")
    ∅.
End Demo.

(* ===================================================================== *)
(** ** Properties of the monad *)
(* ===================================================================== *)

Section EffectLemmas.
Context {World : Type}.
Implicit Types s : St World.

Lemma bind_Some {A B} (m : M World A) (f : A -> M World B) s b s' :
  bind m f s = Some (b, s') <->
  exists a s1, m s = Some (a, s1) /\ f a s1 = Some (b, s').
Proof.
  unfold bind. split.
  - destruct (m s) as [[a s1]|]; [eauto | discriminate].
  - intros (a & s1 & -> & H). exact H.
Qed.

Lemma ret_Some {A} (a b : A) s s' :
  ret a s = Some (b, s') <-> a = b /\ s = s'.
Proof. unfold ret. split; [intros [= -> ->] | intros [-> ->]]; done. Qed.

Lemma call_Some {A} ev (f : World -> A * World) s a s' :
  call ev f s = Some (a, s') <->
  a = (f (world s)).1 /\ s' = mkSt (f (world s)).2 (log s ++ [ev]).
Proof.
  unfold call. destruct (f (world s)) as [a0 w]. simpl.
  split; [intros [= -> <-] | intros [-> ->]]; done.
Qed.

Lemma ask_Some {A} (f : World -> A * World) s a s' :
  ask f s = Some (a, s') <->
  a = (f (world s)).1 /\ s' = mkSt (f (world s)).2 (log s).
Proof.
  unfold ask. destruct (f (world s)) as [a0 w]. simpl.
  split; [intros [= -> <-] | intros [-> ->]]; done.
Qed.

(** A computation made of calls only always returns. *)
Lemma mapM_total {A B} (f : A -> M World B) (l : list A) :
  (forall x s, is_Some (f x s)) -> forall s, is_Some (mapM f l s).
Proof.
  intros Hf. induction l as [|x l IH]; intros s; simpl.
  - by eexists.
  - unfold bind. destruct (Hf x s) as [[y s1] ->].
    destruct (IH s1) as [[ys s2] ->]. by eexists.
Qed.

Lemma mapM_length {A B} (f : A -> M World B) (l : list A) s ys s' :
  mapM f l s = Some (ys, s') -> length ys = length l.
Proof.
  revert s ys s'. induction l as [|x l IH]; intros s ys s'; simpl.
  - by intros [= <- _].
  - intros (y & s1 & _ & (ys' & s2 & Hl & [<- _]%ret_Some)%bind_Some)%bind_Some.
    simpl. f_equal. eauto.
Qed.

(** The log only grows; [adds P m] says the events [m] appends to it
    all satisfy [P]. *)
Definition adds {A} (P : Event -> Prop) (m : M World A) : Prop :=
  forall s a s', m s = Some (a, s') ->
    exists evs, log s' = log s ++ evs /\ Forall P evs.

Lemma adds_ret {A} P (a : A) : adds P (ret a).
Proof.
  intros s b s' [_ <-]%ret_Some. exists []. by rewrite app_nil_r.
Qed.

Lemma adds_ask {A} P (f : World -> A * World) : adds P (ask f).
Proof.
  intros s b s' [_ ->]%ask_Some. exists []. by rewrite app_nil_r.
Qed.

Lemma adds_call {A} (P : Event -> Prop) ev (f : World -> A * World) :
  P ev -> adds P (call ev f).
Proof.
  intros HP s b s' [_ ->]%call_Some. exists [ev]. split; [done | by constructor].
Qed.

Lemma adds_bind {A B} P (m : M World A) (f : A -> M World B) :
  adds P m -> (forall a, adds P (f a)) -> adds P (bind m f).
Proof.
  intros Hm Hf s b s' (a & s1 & H1 & H2)%bind_Some.
  destruct (Hm _ _ _ H1) as (e1 & E1 & F1).
  destruct (Hf a _ _ _ H2) as (e2 & E2 & F2).
  exists (e1 ++ e2). split; [by rewrite E2, E1, app_assoc | by apply Forall_app].
Qed.

Lemma adds_mapM {A B} P (f : A -> M World B) (l : list A) :
  (forall x, adds P (f x)) -> adds P (mapM f l).
Proof.
  intros Hf. induction l as [|x l IH]; simpl.
  - apply adds_ret.
  - apply adds_bind; [done | intros y].
    apply adds_bind; [done | intros ys]. apply adds_ret.
Qed.
Lemma adds_foldM {A B} P (f : A -> B -> M World A) (l : list B) :
  (forall a x, adds P (f a x)) -> forall a, adds P (foldM f l a).
Proof.
  intros Hf. induction l as [|x l IH]; intros a; simpl.
  - apply adds_ret.
  - apply adds_bind; [apply Hf | apply IH].
Qed.
End EffectLemmas.

(* ===================================================================== *)
(** ** The evidence aggregator *)
(* ===================================================================== *)

Section SearchProperties.
Import search.
Context {World : Type}.
Implicit Types (a : AggregatedSearchClient World) (s : St World).

Lemma selectStep_evidences results st c st' :
  selectStep results st c = Some st' ->
  allEvidences st' = allEvidences st ++ delivered results c.
Proof.
  destruct c as [k| |]; simpl.
  - case_decide; [done|].
    destruct (results !! k) as [r|]; [|done].
    destruct (SearchResult.Error r); intros [= <-]; simpl; [by rewrite app_nil_r | done].
  - destruct (timerPending st); intros [= <-]; simpl; by rewrite app_nil_r.
  - intros [= <-]; simpl; by rewrite app_nil_r.
Qed.

Lemma collect_evidences results n st sched st' :
  collect results n st sched = Some st' ->
  allEvidences st' = allEvidences st ++ merged results (take n sched).
Proof.
  revert st sched. induction n as [|n IH]; intros st sched; simpl.
  - intros [= <-]. unfold merged. simpl. by rewrite app_nil_r.
  - destruct sched as [|c sched]; [done|].
    destruct (selectStep results st c) as [st1|] eqn:E; [|done].
    intros H. rewrite (IH _ _ H), (selectStep_evidences _ _ _ _ E).
    unfold merged. simpl. by rewrite app_assoc.
Qed.

(** When every goroutine's result is received, in whatever order, the
    loop ends. *)
Lemma collect_receives_all results l st :
  NoDup l ->
  (forall k, k ∈ l -> (k < length results)%nat /\ k ∉ received st) ->
  is_Some (collect results (length l) st (map RecvResult l)).
Proof.
  intros Hnd. revert st. induction Hnd as [|k l Hk Hnd IH]; intros st Hl; simpl.
  - by eexists.
  - destruct (Hl k) as [Hlt Hnew]; [by left|].
    rewrite decide_False by done.
    destruct (lookup_lt_is_Some_2 results k Hlt) as [r ->].
    destruct (SearchResult.Error r); apply IH; simpl; intros j Hj;
      (destruct (Hl j) as [? ?]; [by right|]; split; [done|];
       rewrite not_elem_of_cons; split; [intros ->; done | done]).
Qed.

Lemma searchOne_total query maxR (c : SearchClient.t World) s :
  is_Some (searchOne query maxR c s).
Proof.
  unfold searchOne, bind, call, ret.
  destruct (SearchClient.Search c query maxR (world s)). by eexists.
Qed.

Lemma Search_no_sources a query maxR sched s :
  clients a = [] ->
  Search a query maxR sched s
  = Some (([], [Warning.mk "search" "No search sources configured"]), s).
Proof. intros E. unfold Search. rewrite E. reflexivity. Qed.

(** C1, as the code has it.  With at least one source, [Search]
    returns the lists of the sources received without error, one
    after the other in the order received, and nothing else: no
    evidence is removed, whether its URL repeats or its snippet is
    empty.  It returns whenever every source's result is received,
    in whatever order. *)
Theorem Search_concatenates_what_is_received a query maxR s :
  clients a <> [] ->
  exists results s1,
    mapM (searchOne query maxR) (clients a) s = Some (results, s1)
    /\ length results = length (clients a)
    /\ (forall sched evs ws s',
          Search a query maxR sched s = Some ((evs, ws), s') ->
          s' = s1 /\ evs = merged results (take (length (clients a)) sched))
    /\ (forall order, order ≡ₚ seq 0 (length (clients a)) ->
          exists ws,
            Search a query maxR (map RecvResult order) s
            = Some ((merged results (map RecvResult order), ws), s1)).
Proof.
  intros Hne.
  destruct (mapM_total (searchOne query maxR) (clients a) (searchOne_total _ _) s)
    as [[results s1] Hres].
  pose proof (mapM_length _ _ _ _ _ Hres) as Hlen.
  assert (Hn : length (clients a) <> 0%nat) by (destruct (clients a); done).
  exists results, s1. split; [done|]. split; [done|]. split.
  - intros sched evs ws s'. unfold Search. rewrite decide_False by done.
    unfold bind at 1. rewrite Hres.
    intros (st & s2 & Hc & [[= <- <-] <-]%ret_Some)%bind_Some.
    unfold lift_option in Hc.
    destruct (collect _ _ _ _) as [st'|] eqn:E; [|done].
    apply ret_Some in Hc as [-> ->]. split; [done|].
    by rewrite (collect_evidences _ _ _ _ _ E).
  - intros order Hperm.
    assert (Hlo : length order = length (clients a)).
    { by rewrite Hperm, length_seq. }
    destruct (collect_receives_all results order collectInit) as [st Hst].
    + rewrite Hperm. apply NoDup_seq.
    + intros k Hk. rewrite Hperm, elem_of_seq in Hk. simpl.
      split; [lia | apply not_elem_of_nil].
    + rewrite Hlo in Hst. exists (warnings st).
      unfold Search. rewrite decide_False by done.
      unfold bind at 1. rewrite Hres. unfold bind, lift_option. rewrite Hst.
      unfold ret. do 3 f_equal.
      rewrite (collect_evidences _ _ _ _ _ Hst). simpl.
      by rewrite <- Hlo, <- (length_map RecvResult), firstn_all.
Qed.
End SearchProperties.

(** C1, witness: the aggregator over two overlapping sources. *)
Lemma Search_concatenates_what_is_received_witness :
  search.clients Demo.overlapping <> []
  /\ exists results s1,
      mapM (search.searchOne "q" 6) (search.clients Demo.overlapping) Demo.s0
      = Some (results, s1)
      /\ length results = length (search.clients Demo.overlapping)
      /\ (forall sched evs ws s',
            search.Search Demo.overlapping "q" 6 sched Demo.s0 = Some ((evs, ws), s') ->
            s' = s1
            /\ evs = search.merged results
                       (take (length (search.clients Demo.overlapping)) sched))
      /\ (forall order,
            order ≡ₚ seq 0 (length (search.clients Demo.overlapping)) ->
            exists ws,
              search.Search Demo.overlapping "q" 6 (map search.RecvResult order) Demo.s0
              = Some ((search.merged results (map search.RecvResult order), ws), s1)).
Proof.
  split; [discriminate|].
  apply (Search_concatenates_what_is_received Demo.overlapping "q" 6 Demo.s0).
  discriminate.
Defined.

(** C1, as stated, fails: two sources reporting the same page, one of
    them with an empty snippet, both reach the merged list. *)
Lemma Search_keeps_duplicate_urls_and_empty_snippets :
  exists evs ws s',
    search.clients Demo.overlapping <> []
    /\ search.Search Demo.overlapping "q" 6
         [search.RecvResult 0; search.RecvResult 1] Demo.s0
       = Some ((evs, ws), s')
    /\ ~ NoDup (map Evidence.SourceURL evs)
    /\ Exists (fun e => Evidence.Snippet e = EmptyString) evs.
Proof.
  eexists _, _, _. split; [discriminate|]. split; [vm_compute; reflexivity|].
  split.
  - intros Hnd. apply NoDup_cons in Hnd as [Hnotin _]. apply Hnotin. by left.
  - apply Exists_cons_tl, Exists_cons_hd. reflexivity.
Qed.

(** The timer of [time.After] fires once: the iteration that receives
    it appends one warning and the loop goes on to its next iteration,
    where the timer is no longer enabled. *)
Lemma selectStep_timeout_once results st st' :
  search.selectStep results st search.Timeout = Some st' ->
  search.warnings st'
  = search.warnings st ++ [Warning.mk "search" "Some sources timed out"]
  /\ search.allEvidences st' = search.allEvidences st
  /\ search.selectStep results st' search.Timeout = None.
Proof.
  simpl. destruct (search.timerPending st); [|done].
  intros [= <-]. simpl. done.
Qed.

(** With iterations left after the one that receives the timer, the
    loop has not ended. *)
Lemma collect_waits_after_timeout results n st :
  search.collect results (S (S n)) st [search.Timeout] = None.
Proof.
  simpl. destruct (search.timerPending st); reflexivity.
Qed.

(** C7, on the two sources of a deployment, neither of which has
    answered when the timer fires.  After the timer the search has not
    returned, and a second timer event never comes: the search returns
    only once one of the two pending sources has delivered (or the
    context is cancelled).  The evidence of that source is merged, and
    a single warning stands for the timeout.  Cancellation, whose
    channel stays ready, does end every remaining iteration. *)
Theorem Search_timeout_does_not_end_collection :
  search.Search Demo.twoSources "q" 6 [search.Timeout] Demo.s0 = None
  /\ search.Search Demo.twoSources "q" 6 [search.Timeout; search.Timeout] Demo.s0 = None
  /\ search.Search Demo.twoSources "q" 6 [search.Timeout; search.RecvResult 1] Demo.s0
     = Some (([Demo.ev "http://p/1" "pi"],
              [Warning.mk "search" "Some sources timed out"]),
             mkSt 0%nat [EvSearch "DuckDuckGo" "q" 6; EvSearch "PubMed" "q" 6])
  /\ search.Search Demo.twoSources "q" 6 [search.CtxDone; search.CtxDone] Demo.s0
     = Some (([],
              [Warning.mk "search" "Search cancelled";
               Warning.mk "search" "Search cancelled"]),
             mkSt 0%nat [EvSearch "DuckDuckGo" "q" 6; EvSearch "PubMed" "q" 6]).
Proof. repeat split; vm_compute; reflexivity. Qed.

(* --------------------------------------------------------------------- *)
(** *** The DuckDuckGo source removes its own duplicates *)

Section DuckDuckGoProperties.
Import search.
Context {World : Type}.

Definition uniqueAndNonEmpty (evs : list Evidence.t) : Prop :=
  NoDup (map Evidence.SourceURL evs)
  /\ Forall (fun e => Evidence.Snippet e <> EmptyString) evs.

Lemma dedupLoop_unique evidences (seen : gmap string bool) unique maxResults :
  (forall url, default false (seen !! url) = true <->
               url ∈ map Evidence.SourceURL unique) ->
  uniqueAndNonEmpty unique ->
  uniqueAndNonEmpty (dedupLoop evidences seen unique maxResults).
Proof.
  revert seen unique.
  induction evidences as [|e rest IH]; intros seen unique Hseen [Hnd Hne]; simpl.
  - done.
  - destruct (default false (seen !! Evidence.SourceURL e)) eqn:Es; simpl.
    { by apply IH. }
    destruct (String.eqb (Evidence.Snippet e) EmptyString) eqn:Eq; simpl.
    { by apply IH. }
    apply String.eqb_neq in Eq.
    assert (Hnew : uniqueAndNonEmpty (unique ++ [e])).
    { split.
      - rewrite map_app. simpl. apply NoDup_app. split; [done|]. split.
        + intros url Hin [->|[]%elem_of_nil]%elem_of_cons.
          apply Hseen in Hin. congruence.
        + apply NoDup_singleton.
      - apply Forall_app. split; [done|]. by constructor. }
    destruct (maxResults <=? Z.of_nat (length (unique ++ [e]))); [done|].
    apply IH; [|done].
    intros url. rewrite map_app, elem_of_app. simpl.
    rewrite list_elem_of_singleton, <- Hseen.
    destruct (decide (url = Evidence.SourceURL e)) as [->|Hneq].
    + rewrite lookup_insert_eq. simpl. split; [by right | done].
    + rewrite lookup_insert_ne by done. split; [by left | by intros [?|?]].
Qed.

(** Whatever its two searches return, the list the DuckDuckGo source
    hands to the aggregator has no repeated URL and no empty
    snippet. *)
Theorem DuckDuckGo_Search_unique (c : DuckDuckGoClient World) query maxResults
    (w : World) :
  uniqueAndNonEmpty (DuckDuckGo_Search c query maxResults w).1.1.
Proof.
  unfold DuckDuckGo_Search.
  destruct (retryTwice _ w) as [[ev1 err1] w1].
  destruct (retryTwice _ w1) as [[ev2 err2] w2].
  pose proof (dedupLoop_unique (ev1 ++ ev2) ∅ [] maxResults) as H.
  assert (Hu : uniqueAndNonEmpty (dedupLoop (ev1 ++ ev2) ∅ [] maxResults)).
  { apply H.
    - intros url. rewrite lookup_empty. simpl. split; [done|].
      by intros ?%elem_of_nil.
    - split; [apply NoDup_nil_2 | apply Forall_nil_2]. }
  destruct (dedupLoop _ _ _ _) as [|e l] eqn:E.
  - destruct err2, err1; simpl; split; constructor.
  - destruct err2, err1; exact Hu.
Qed.
End DuckDuckGoProperties.

(* ===================================================================== *)
(** ** The claim verifier *)
(* ===================================================================== *)

Section VerifierProperties.
Import search llm database verify.
Context {World : Type} (lib : Lib World).
Implicit Types (v : ClaimVerifier (World := World)) (s : St World).

(** A status a verification can end in. *)
Definition resolved (status : VerificationStatus) : Prop :=
  status = StatusVerified \/ status = StatusMixed \/ status = StatusUnsupported.

Lemma statusOf_resolved str : resolved (statusOf str).
Proof.
  unfold statusOf, resolved. repeat case_decide; auto.
Qed.

Lemma Verify_resolved v claim evidences s r s' :
  Verify lib v claim evidences s = Some (r, s') -> resolved r.1.1.1.
Proof.
  unfold Verify. case_decide.
  - intros [<- _]%ret_Some. simpl. unfold resolved; auto.
  - intros (a & s1 & _ & Hr)%bind_Some.
    destruct a.2; [apply ret_Some in Hr as [<- _]; simpl; unfold resolved; auto|].
    destruct (ClaimVerifier_parseResponse lib a.1);
      apply ret_Some in Hr as [<- _]; simpl;
      [apply statusOf_resolved | unfold resolved; auto].
Qed.

Lemma VerifyWithoutEvidence_resolved v claim s r s' :
  VerifyWithoutEvidence lib v claim s = Some (r, s') -> resolved r.1.1.1.
Proof.
  unfold VerifyWithoutEvidence.
  intros (a & s1 & _ & H)%bind_Some.
  destruct a.2; [apply ret_Some in H as [<- _]; simpl; unfold resolved; auto|].
  destruct (ClaimVerifier_parseResponse lib a.1);
    apply ret_Some in H as [<- _]; simpl;
    [apply statusOf_resolved | unfold resolved; auto].
Qed.

Lemma afterError_resolved r onError :
  resolved r.1.1.1 -> resolved (afterError r onError).1.1.
Proof.
  destruct r as [[[status confidence] reasoning] [err|]]; simpl; [|done].
  intros _. unfold resolved; auto.
Qed.

(** C5, as the code has it.  On an evidence list of length 0 [Verify]
    returns at once, without error and leaving the world and the call
    log as they were: status unsupported, confidence 0, and the
    reasoning text of the source. *)
Theorem Verify_without_evidence_short_circuits v claim evidences s :
  length evidences = 0%nat ->
  Verify lib v claim evidences s
  = Some ((StatusUnsupported, 0%Q, "No evidence found to support this claim", None), s).
Proof.
  intros Hlen. unfold Verify. rewrite decide_True by done. reflexivity.
Qed.
End VerifierProperties.

(** C5, witness. *)
Lemma Verify_without_evidence_short_circuits_witness :
  length ([] : list Evidence.t) = 0%nat
  /\ verify.Verify Demo.lib
       (verify.NewClaimVerifier (Demo.provider ("E2", None) ("V", None)))
       Demo.someClaim [] Demo.s0
     = Some ((StatusUnsupported, 0%Q, "No evidence found to support this claim", None),
             Demo.s0).
Proof.
  split; [reflexivity|].
  apply (Verify_without_evidence_short_circuits Demo.lib). reflexivity.
Defined.

(** C5, as stated, fails on the reasoning text. *)
Lemma Verify_without_evidence_reasoning_text :
  verify.Verify Demo.lib
    (verify.NewClaimVerifier (Demo.provider ("E2", None) ("V", None)))
    Demo.someClaim [] Demo.s0
  <> Some ((StatusUnsupported, 0%Q, "No evidence found", None), Demo.s0).
Proof. vm_compute. discriminate. Qed.

(* ===================================================================== *)
(** ** The engine: verifying the claims *)
(* ===================================================================== *)

Ltac inv_bind H :=
  let a := fresh "a" in
  let s1 := fresh "s" in
  let H1 := fresh "Hrun" in
  apply bind_Some in H as (a & s1 & H1 & H).

Section EngineProperties.
Import search llm database verify.
Context {World : Type} (lib : Lib World).
Implicit Types (e : Engine (World := World)) (s : St World).

(** What a verification goroutine leaves in its claim. *)
Definition verifiedClaim e (c : Claim.t) : Prop :=
  resolved (Claim.Status c)
  /\ (airGapped e = true -> Claim.SourceType c = SourceTypeModelBased)
  /\ (Claim.Evidences c = [] <-> Claim.SourceType c = SourceTypeModelBased)
  /\ (Claim.Evidences c <> [] <-> Claim.SourceType c = SourceTypeEvidenceBacked).

Lemma finishClaim_spec claim sourceType status confidence reasoning evidences s c s' :
  finishClaim lib claim sourceType status confidence reasoning evidences s = Some (c, s') ->
  Claim.Status c = status /\ Claim.SourceType c = sourceType
  /\ Claim.Evidences c = evidences /\ Claim.Confidence c = confidence
  /\ Claim.Reasoning c = reasoning
  /\ Claim.ID c = Claim.ID claim /\ Claim.Text c = Claim.Text claim
  /\ Claim.Type_ c = Claim.Type_ claim
  /\ Claim.SentenceIndex c = Claim.SentenceIndex claim.
Proof.
  unfold finishClaim. intros H. inv_bind H.
  apply ret_Some in H as [<- _]. simpl. done.
Qed.

Lemma verifyTask_spec e sch claims ws idx s claims' ws' s' :
  verifyTask lib e sch (claims, ws) idx s = Some ((claims', ws'), s') ->
  length claims' = length claims
  /\ (forall j, j <> idx -> claims' !! j = claims !! j)
  /\ (forall c, claims !! idx = Some c ->
        exists c', claims' !! idx = Some c' /\ verifiedClaim e c'
                   /\ Claim.Type_ c' = Claim.Type_ c).
Proof.
  unfold verifyTask.
  destruct (claims !! idx) as [claim|] eqn:Eidx.
  2:{ intros [[= <- <-] _]%ret_Some. split; [done|]. split; [done|]. done. }
  assert (Hlt : (idx < length claims)%nat) by (eapply lookup_lt_Some; eauto).
  assert (Hfin : forall (r : VerifyResult) onError sourceType evidences s0,
    resolved r.1.1.1 ->
    (airGapped e = true -> sourceType = SourceTypeModelBased) ->
    (evidences = [] <-> sourceType = SourceTypeModelBased) ->
    (evidences <> [] <-> sourceType = SourceTypeEvidenceBacked) ->
    forall wsx,
    (let '(status, confidence, reasoning) := afterError r onError in
     bind (finishClaim lib claim sourceType status confidence reasoning evidences)
          (fun c => ret (<[idx := c]> claims, wsx))) s0
    = Some ((claims', ws'), s') ->
    length claims' = length claims
    /\ (forall j, j <> idx -> claims' !! j = claims !! j)
    /\ (forall c, Some claim = Some c ->
          exists c', claims' !! idx = Some c' /\ verifiedClaim e c'
                     /\ Claim.Type_ c' = Claim.Type_ c)).
  { intros r onError sourceType evidences s0 Hres Hag Hev1 Hev2 wsx.
    pose proof (afterError_resolved r onError Hres) as Hres'.
    destruct (afterError r onError) as [[status confidence] reasoning].
    simpl in Hres'. intros H. inv_bind H.
    apply ret_Some in H as [[= <- <-] <-].
    apply finishClaim_spec in Hrun
      as (Est & Esrc & Eev & _ & _ & _ & _ & Ety & _).
    split; [by rewrite length_insert|].
    split; [intros j Hj; by rewrite list_lookup_insert_ne|].
    intros c [= <-]. exists a. split; [by apply list_lookup_insert_eq|].
    split; [|done]. unfold verifiedClaim. rewrite Est, Esrc, Eev. done. }
  destruct (airGapped e) eqn:Eag.
  - intros H. inv_bind H. eapply Hfin; [| | | |exact H].
    + eapply VerifyWithoutEvidence_resolved; eauto.
    + done.
    + done.
    + split; [done | discriminate].
  - intros H. inv_bind H. case_decide as Hlen.
    + apply nil_length_inv in Hlen. inv_bind H.
      eapply Hfin; [| | | |exact H].
      * eapply VerifyWithoutEvidence_resolved; eauto.
      * discriminate.
      * done.
      * rewrite Hlen. split; [done | discriminate].
    + inv_bind H. eapply Hfin; [| | | |exact H].
      * eapply Verify_resolved; eauto.
      * discriminate.
      * split; [|discriminate]. intros E. by rewrite E in Hlen.
      * split; [done|]. intros _ E. by rewrite E in Hlen.
Qed.

Lemma foldM_verifyTask e sch order :
  forall claims ws s claims' ws' s',
  foldM (verifyTask lib e sch) order (claims, ws) s = Some ((claims', ws'), s') ->
  length claims' = length claims
  /\ forall j c', claims' !! j = Some c' ->
       (j ∈ order ->
          verifiedClaim e c'
          /\ exists c, claims !! j = Some c /\ Claim.Type_ c' = Claim.Type_ c)
       /\ (j ∉ order -> claims !! j = Some c').
Proof.
  induction order as [|idx order IH]; intros claims ws s claims' ws' s'; simpl.
  - intros [[= <- <-] _]%ret_Some. split; [done|].
    intros j c' Hj. split; [by intros ?%elem_of_nil | done].
  - intros H. inv_bind H. destruct a as [claims1 ws1].
    apply verifyTask_spec in Hrun as (Hlen1 & Hother & Hidx).
    apply IH in H as (Hlen & Hall).
    split; [congruence|].
    intros j c' Hj. destruct (Hall j c' Hj) as [Hin Hout].
    assert (Hstep : claims1 !! j = Some c' -> j = idx ->
              verifiedClaim e c'
              /\ exists c, claims !! j = Some c /\ Claim.Type_ c' = Claim.Type_ c).
    { intros H1 ->.
      destruct (claims !! idx) as [c|] eqn:Ec.
      - destruct (Hidx c eq_refl) as (c1 & E1 & Hv & Ety).
        rewrite E1 in H1. injection H1 as <-. eauto.
      - apply lookup_lt_Some in H1. apply lookup_ge_None in Ec. lia. }
    split.
    + intros Hmem. destruct (decide (j ∈ order)) as [Hjo|Hjo].
      * destruct (Hin Hjo) as (Hv & c1 & E1 & Ety). split; [done|].
        destruct (decide (j = idx)) as [->|Hne].
        -- destruct (claims !! idx) as [c|] eqn:Ec.
           ++ destruct (Hidx c eq_refl) as (c2 & E2 & _ & Ety2).
              rewrite E2 in E1. injection E1 as <-. exists c. split; [done|congruence].
           ++ apply lookup_lt_Some in E1. apply lookup_ge_None in Ec. lia.
        -- exists c1. by rewrite <- Hother.
      * apply elem_of_cons in Hmem as [->|?]; [|done].
        apply Hstep; [by apply Hout | done].
    + intros Hnot. apply not_elem_of_cons in Hnot as [Hne Hjo].
      rewrite <- Hother by done. by apply Hout.
Qed.

(** Every goroutine having run once, each claim is resolved, in its
    original slot. *)
Lemma verifyClaims_spec e sch claims s claims' ws s' :
  runsEachOnce sch ->
  verifyClaims lib e sch claims s = Some ((claims', ws), s') ->
  length claims' = length claims
  /\ Forall (verifiedClaim e) claims'
  /\ map Claim.Type_ claims' = map Claim.Type_ claims.
Proof.
  intros Hsch H. apply foldM_verifyTask in H as [Hlen Hall].
  split; [done|]. split.
  - apply Forall_lookup. intros j c' Hj.
    apply (Hall j c' Hj). rewrite (Hsch (length claims)), elem_of_seq.
    apply lookup_lt_Some in Hj. lia.
  - apply list_eq. intros j. rewrite !list_lookup_fmap.
    destruct (claims' !! j) as [c'|] eqn:Ej; simpl.
    + destruct (Hall j c' Ej) as [Hin _].
      destruct Hin as (_ & c & -> & ->); [|done].
      rewrite (Hsch (length claims)), elem_of_seq.
      apply lookup_lt_Some in Ej. lia.
    + apply lookup_ge_None in Ej. rewrite lookup_ge_None_2; [done | lia].
Qed.
End EngineProperties.

(* ===================================================================== *)
(** ** The engine: scoring *)
(* ===================================================================== *)

Section Scoring.
Import verify.

Definition countOf (status : VerificationStatus) (claims : list Claim.t) : Z :=
  Z.of_nat (length (filter (fun c => Claim.Status c = status) claims)).

Lemma countOf_cons status c claims :
  countOf status (c :: claims)
  = (if decide (Claim.Status c = status) then 1 else 0) + countOf status claims.
Proof.
  unfold countOf. case_decide.
  - rewrite filter_cons_True by done. simpl length. lia.
  - rewrite filter_cons_False by done. lia.
Qed.

Lemma countOf_range status claims :
  0 <= countOf status claims <= Z.of_nat (length claims).
Proof.
  unfold countOf. pose proof (length_filter (fun c => Claim.Status c = status) claims).
  lia.
Qed.


Lemma fold_countStep claims verified mixed unsupported :
  fold_left countStep claims (verified, mixed, unsupported)
  = (verified + countOf StatusVerified claims,
     mixed + countOf StatusMixed claims,
     unsupported + countOf StatusUnsupported claims).
Proof.
  revert verified mixed unsupported.
  induction claims as [|c claims IH]; intros verified mixed unsupported.
  - unfold countOf. simpl. repeat apply (f_equal2 pair); lia.
  - simpl fold_left. rewrite !countOf_cons. unfold countStep.
    repeat case_decide; rewrite IH;
      unfold StatusVerified, StatusMixed, StatusUnsupported in *;
      first [congruence | repeat apply (f_equal2 pair); lia].
Qed.

(** The three counters are the numbers of claims of each status. *)
Lemma countStatuses_spec claims :
  countStatuses claims
  = (countOf StatusVerified claims, countOf StatusMixed claims,
     countOf StatusUnsupported claims).
Proof. unfold countStatuses. by rewrite fold_countStep. Qed.

(** Resolved claims are counted exactly once. *)
Lemma counts_partition claims :
  Forall (fun c => resolved (Claim.Status c)) claims ->
  countOf StatusVerified claims + countOf StatusMixed claims
  + countOf StatusUnsupported claims = Z.of_nat (length claims).
Proof.
  induction 1 as [|c claims Hc _ IH]; [reflexivity|].
  rewrite !countOf_cons. simpl length.
  unfold resolved, StatusVerified, StatusMixed, StatusUnsupported in *.
  repeat case_decide; destruct Hc as [?|[?|?]]; try congruence; lia.
Qed.


Lemma overallScore_range verified mixed total :
  0 <= verified -> 0 <= mixed -> verified + mixed <= total ->
  (0 <= overallScore verified mixed total /\ overallScore verified mixed total <= 10)%Q.
Proof.
  intros Hv Hm Hn. unfold overallScore.
  destruct (Z.ltb_spec 0 total); [|split; discriminate].
  destruct total as [|p|p]; try lia.
  unfold Qle, Qdiv, Qmult, Qplus, Qinv, inject_Z. simpl. split; nia.
Qed.


End Scoring.

(* ===================================================================== *)
(** ** The engine: one run of [VerifyText] *)
(* ===================================================================== *)

Section RunProperties.
Import search llm database verify.
Context {World : Type} (lib : Lib World).
Implicit Types (e : Engine (World := World)) (s : St World).

(** What the store answers to the cache lookup of a run started in
    [s]: the lookup follows the reading of the clock. *)
Definition cacheLookup e (text : string) s
    : (option AnalysisResult.t * option error) * World :=
  GetAnalysisByHash (store e) (sha256_hex lib text) (time_Now lib (world s)).2.

(** The state in which the run goes on after the lookup. *)
Definition afterLookup e (text : string) s : St World :=
  mkSt (cacheLookup e text s).2 (log s ++ [EvGetAnalysisByHash (sha256_hex lib text)]).

Lemma VerifyText_unfold e sch text s :
  VerifyText lib e sch text s
  = match (cacheLookup e text s).1.1 with
    | Some existing =>
        let got := GetClaimsByAnalysis (store e) (AnalysisResult.ID existing)
                     (cacheLookup e text s).2 in
        Some (inl (VerificationResponse.mk (AnalysisResult.ID existing)
                     (sha256_hex lib text) existing got.1.1 []),
              mkSt got.2
                (log s ++ [EvGetAnalysisByHash (sha256_hex lib text);
                           EvGetClaimsByAnalysis (AnalysisResult.ID existing)]))
    | None =>
        fullRun lib e sch text (sha256_hex lib text) (time_Now lib (world s)).1
          (afterLookup e text s)
    end.
Proof.
  unfold VerifyText, afterLookup, cacheLookup, bind at 1, ask.
  destruct (time_Now lib (world s)) as [start w0]. simpl.
  unfold bind at 1, call. simpl.
  destruct (GetAnalysisByHash (store e) (sha256_hex lib text) w0)
    as [[[existing|] err] w1]; simpl; [|done].
  unfold bind, call, ret. simpl.
  destruct (GetClaimsByAnalysis (store e) (AnalysisResult.ID existing) w1)
    as [[claims cerr] w2]. simpl. by rewrite <- app_assoc.
Qed.

Lemma calculateAnalysis_spec docHash claims duration s a s' :
  calculateAnalysis lib docHash claims duration s = Some (a, s') ->
  AnalysisResult.TotalClaims a = Z.of_nat (length claims)
  /\ AnalysisResult.VerifiedClaims a = countOf StatusVerified claims
  /\ AnalysisResult.MixedClaims a = countOf StatusMixed claims
  /\ AnalysisResult.UnsupportedClaims a = countOf StatusUnsupported claims
  /\ AnalysisResult.OverallScore a
     = overallScore (countOf StatusVerified claims) (countOf StatusMixed claims)
         (Z.of_nat (length claims)).
Proof.
  unfold calculateAnalysis. rewrite countStatuses_spec.
  intros H. inv_bind H. inv_bind H. apply ret_Some in H as [<- _]. done.
Qed.

(** The stages a completed full run went through. *)
Lemma fullRun_stages e sch text docHash startTime s resp s' :
  fullRun lib e sch text docHash startTime s = Some (inl resp, s') ->
  exists extracted s1 s2,
    Extract lib (extractor e) text s = Some (inl extracted, s1)
    /\ verifyClaims lib e sch extracted s1
       = Some ((VerificationResponse.Claims resp,
                VerificationResponse.Warnings resp), s2)
    /\ exists duration s3 s4,
         calculateAnalysis lib docHash (VerificationResponse.Claims resp) duration s3
         = Some (VerificationResponse.Analysis resp, s4)
         /\ VerificationResponse.ID resp
            = AnalysisResult.ID (VerificationResponse.Analysis resp).
Proof.
  unfold fullRun. intros H. inv_bind H.
  destruct a as [extracted|err]; [|by apply ret_Some in H as [[=] _]].
  inv_bind H. destruct a as [claims ws]. inv_bind H. inv_bind H.
  inv_bind H. inv_bind H. apply ret_Some in H as [[= <-] _]. simpl.
  exists extracted, s0, s1. split; [done|]. split; [done|].
  eexists _, _, _. split; [exact Hrun2 | done].
Qed.

(** A completed uncached run, with every goroutine run once. *)
Definition completes e sch text s resp s' : Prop :=
  runsEachOnce sch
  /\ (cacheLookup e text s).1.1 = None
  /\ VerifyText lib e sch text s = Some (inl resp, s').

Lemma completes_stages e sch text s resp s' :
  completes e sch text s resp s' ->
  let claims := VerificationResponse.Claims resp in
  let a := VerificationResponse.Analysis resp in
  (exists extracted s1,
      Extract lib (extractor e) text (afterLookup e text s) = Some (inl extracted, s1)
      /\ length claims = length extracted
      /\ map Claim.Type_ claims = map Claim.Type_ extracted)
  /\ Forall (verifiedClaim e) claims
  /\ AnalysisResult.TotalClaims a = Z.of_nat (length claims)
  /\ AnalysisResult.VerifiedClaims a = countOf StatusVerified claims
  /\ AnalysisResult.MixedClaims a = countOf StatusMixed claims
  /\ AnalysisResult.UnsupportedClaims a = countOf StatusUnsupported claims
  /\ AnalysisResult.OverallScore a
     = overallScore (countOf StatusVerified claims) (countOf StatusMixed claims)
         (Z.of_nat (length claims)).
Proof.
  intros (Hsch & Hmiss & Hrun). rewrite VerifyText_unfold, Hmiss in Hrun.
  apply fullRun_stages in Hrun
    as (extracted & s1 & s2 & Hex & Hvc & duration & s3 & s4 & Hcalc & _).
  apply (verifyClaims_spec lib) in Hvc as (Hlen & Hall & Hty); [|done].
  apply calculateAnalysis_spec in Hcalc. simpl. split; [|by split].
  eauto 10.
Qed.

Lemma verified_resolved e claims :
  Forall (verifiedClaim e) claims ->
  Forall (fun c => resolved (Claim.Status c)) claims.
Proof. intros H. eapply Forall_impl; [exact H|]. by intros c [? _]. Qed.

(** C2.  A completed uncached run counts every claim exactly once:
    the three counters add up to [TotalClaims], which is the number
    of claims the extractor returned, and the overall score lies
    between 0 and 10. *)
Theorem VerifyText_counts_add_up e sch text s resp s' :
  completes e sch text s resp s' ->
  let a := VerificationResponse.Analysis resp in
  AnalysisResult.VerifiedClaims a + AnalysisResult.MixedClaims a
    + AnalysisResult.UnsupportedClaims a = AnalysisResult.TotalClaims a
  /\ (exists extracted s1,
        Extract lib (extractor e) text (afterLookup e text s) = Some (inl extracted, s1)
        /\ AnalysisResult.TotalClaims a = Z.of_nat (length extracted))
  /\ (0 <= AnalysisResult.OverallScore a /\ AnalysisResult.OverallScore a <= 10)%Q.
Proof.
  intros Hc. cbv zeta. destruct (completes_stages _ _ _ _ _ _ Hc)
    as ((extracted & s1 & Hex & Hlen & _) & Hall & -> & -> & -> & -> & ->).
  pose proof (counts_partition _ (verified_resolved _ _ Hall)) as Hsum.
  split; [done|]. split.
  - exists extracted, s1. split; [done | by rewrite Hlen].
  - pose proof (countOf_range StatusVerified (VerificationResponse.Claims resp)).
    pose proof (countOf_range StatusMixed (VerificationResponse.Claims resp)).
    pose proof (countOf_range StatusUnsupported (VerificationResponse.Claims resp)).
    apply overallScore_range; lia.
Qed.

End RunProperties.

(** C2, witness: two claims, both sources configured, nothing cached. *)
Lemma VerifyText_counts_add_up_witness :
  exists resp s',
    completes Demo.lib
      (Demo.engine true true ("E2", None) ("M", None)
         database.ErrNoRows (database.RowsRead [] None))
      Demo.inOrder "hello" Demo.s0 resp s'
    /\ (let a := VerificationResponse.Analysis resp in
        AnalysisResult.VerifiedClaims a + AnalysisResult.MixedClaims a
          + AnalysisResult.UnsupportedClaims a = AnalysisResult.TotalClaims a
        /\ (exists extracted s1,
              verify.Extract Demo.lib
                (verify.extractor
                   (Demo.engine true true ("E2", None) ("M", None)
                      database.ErrNoRows (database.RowsRead [] None)))
                "hello"
                (afterLookup Demo.lib
                   (Demo.engine true true ("E2", None) ("M", None)
                      database.ErrNoRows (database.RowsRead [] None))
                   "hello" Demo.s0)
              = Some (inl extracted, s1)
              /\ AnalysisResult.TotalClaims a = Z.of_nat (length extracted))
        /\ (0 <= AnalysisResult.OverallScore a
            /\ AnalysisResult.OverallScore a <= 10)%Q).
Proof.
  assert (Hc : exists resp s',
    completes Demo.lib
      (Demo.engine true true ("E2", None) ("M", None)
         database.ErrNoRows (database.RowsRead [] None))
      Demo.inOrder "hello" Demo.s0 resp s').
  { eexists _, _. split; [intros n; reflexivity|].
    split; [reflexivity | vm_compute; reflexivity]. }
  destruct Hc as (resp & s' & Hc). exists resp, s'. split; [exact Hc|].
  exact (VerifyText_counts_add_up Demo.lib _ _ _ _ _ _ Hc).
Defined.



(* ===================================================================== *)
(** ** Air-gapped runs, cached runs, extraction *)
(* ===================================================================== *)

Section ModeProperties.
Import search llm database verify.
Context {World : Type} (lib : Lib World).
Implicit Types (e : Engine (World := World)) (s : St World).

(** In an air-gapped engine the verification of the claims calls no
    search source. *)
Lemma airGapped_verifyClaims_calls_no_source e sch claims :
  airGapped e = true ->
  adds (fun c => is_search_call c = false) (verifyClaims lib e sch claims).
Proof.
  intros Hag. unfold verifyClaims. apply adds_foldM.
  intros [cs ws] idx. unfold verifyTask. rewrite Hag.
  destruct (cs !! idx) as [claim|]; [|apply adds_ret].
  apply adds_bind.
  - unfold VerifyWithoutEvidence. apply adds_bind; [by apply adds_call|].
    intros r. destruct r.2; [apply adds_ret|].
    destruct (ClaimVerifier_parseResponse lib r.1); apply adds_ret.
  - intros r. destruct (afterError r _) as [[status confidence] reasoning].
    apply adds_bind; [|intros c; apply adds_ret].
    unfold finishClaim. apply adds_bind; [apply adds_ask | intros now; apply adds_ret].
Qed.

(** What a run that finds no analysis under the hash does, stage by
    stage: the extraction; on its error, that error; otherwise the
    verifying stage, the clock, the analysis, the two saves (whose
    answers are not looked at) and the response.  The error of the
    lookup plays no part. *)
Lemma VerifyText_miss_stages e sch text s r s' :
  (cacheLookup lib e text s).1.1 = None ->
  VerifyText lib e sch text s = Some (r, s') <->
  exists x s1,
    Extract lib (extractor e) text (afterLookup lib e text s) = Some (x, s1)
    /\ match x with
       | inr err => r = inr err /\ s' = s1
       | inl extracted =>
           exists claims ws s2 a s3,
             verifyClaims lib e sch extracted s1 = Some ((claims, ws), s2)
             /\ calculateAnalysis lib (sha256_hex lib text) claims
                  ((time_Now lib (world s2)).1 - (time_Now lib (world s)).1)
                  (mkSt (time_Now lib (world s2)).2 (log s2))
                = Some (a, s3)
             /\ r = inl (VerificationResponse.mk (AnalysisResult.ID a)
                           (sha256_hex lib text) a claims ws)
             /\ s' = mkSt (SaveClaims (store e) (AnalysisResult.ID a) claims
                             (SaveAnalysis (store e) a (world s3)).2).2
                          (log s3 ++ [EvSaveAnalysis a;
                                      EvSaveClaims (AnalysisResult.ID a) claims])
       end.
Proof.
  intros Hmiss. rewrite VerifyText_unfold, Hmiss. unfold fullRun. split.
  - intros Hrun. inv_bind Hrun. exists a, s0. split; [done|].
    destruct a as [extracted|err]; [|by apply ret_Some in Hrun as [<- <-]].
    inv_bind Hrun. destruct a as [claims ws].
    inv_bind Hrun. apply ask_Some in Hrun2 as [-> ->].
    inv_bind Hrun. inv_bind Hrun. apply call_Some in Hrun3 as [_ ->].
    inv_bind Hrun. apply call_Some in Hrun3 as [_ ->].
    apply ret_Some in Hrun as [<- <-]. simpl.
    exists claims, ws, s1, a, s2. split; [done|]. split; [done|]. split; [done|].
    by rewrite <- app_assoc.
  - intros (x & s1 & Hx & Hrest). apply bind_Some. exists x, s1. split; [done|].
    destruct x as [extracted|err]; [|destruct Hrest as [-> ->]; by apply ret_Some].
    destruct Hrest as (claims & ws & s2 & a & s3 & Hvc & Hca & -> & ->).
    apply bind_Some. exists (claims, ws), s2. split; [done|].
    apply bind_Some. eexists _, _. split; [by apply ask_Some|].
    apply bind_Some. exists a, s3. split; [exact Hca|].
    apply bind_Some. eexists _, _. split; [by apply call_Some|].
    apply bind_Some. eexists _, _. split; [by apply call_Some|].
    apply ret_Some. simpl. split; [done|]. by rewrite <- app_assoc.
Qed.

(** C3.  When the lookup by hash yields a stored analysis, [VerifyText]
    returns a response with that analysis and its id, and the only
    calls of the run are the two reads of the store: no model call
    and no search call.  When the lookup yields none, whether or not
    it reports an error, the run is a full run: it returns exactly
    what the extraction, the verifying stage, the scoring and the two
    saves make of the text, beginning with the extraction call in the
    state the lookup left; the error of the lookup is not returned. *)
Theorem VerifyText_cache_hit_does_no_work e sch text s :
  (forall existing,
      (cacheLookup lib e text s).1.1 = Some existing ->
      exists resp s',
        VerifyText lib e sch text s = Some (inl resp, s')
        /\ VerificationResponse.ID resp = AnalysisResult.ID existing
        /\ VerificationResponse.Analysis resp = existing
        /\ exists calls,
             log s' = log s ++ calls
             /\ Forall (fun c => is_store_read c = true
                                 /\ is_model_call c = false
                                 /\ is_search_call c = false) calls)
  /\ ((cacheLookup lib e text s).1.1 = None ->
      forall r s',
        VerifyText lib e sch text s = Some (r, s') <->
        exists x s1,
          Extract lib (extractor e) text (afterLookup lib e text s) = Some (x, s1)
          /\ match x with
             | inr err => r = inr err /\ s' = s1
             | inl extracted =>
                 exists claims ws s2 a s3,
                   verifyClaims lib e sch extracted s1 = Some ((claims, ws), s2)
                   /\ calculateAnalysis lib (sha256_hex lib text) claims
                        ((time_Now lib (world s2)).1 - (time_Now lib (world s)).1)
                        (mkSt (time_Now lib (world s2)).2 (log s2))
                      = Some (a, s3)
                   /\ r = inl (VerificationResponse.mk (AnalysisResult.ID a)
                                 (sha256_hex lib text) a claims ws)
                   /\ s' = mkSt (SaveClaims (store e) (AnalysisResult.ID a) claims
                                   (SaveAnalysis (store e) a (world s3)).2).2
                                (log s3 ++ [EvSaveAnalysis a;
                                            EvSaveClaims (AnalysisResult.ID a) claims])
             end).
Proof.
  split.
  - rewrite VerifyText_unfold. intros existing ->. eexists _, _.
    split; [reflexivity|]. simpl.
    split; [done|]. split; [done|]. eexists. split; [reflexivity|].
    repeat constructor.
  - intros Hmiss r s'. by apply VerifyText_miss_stages.
Qed.

(** The SQLite store reports a failed lookup as "none, with an
    error", and never a result together with an error. *)
Lemma SQLite_GetAnalysisByHash_outcomes (db : SQLiteStore World) hash w :
  let r := SQLite_GetAnalysisByHash db hash w in
  match (queryAnalysisByHash db hash w).1 with
  | Scanned result => r.1 = (Some result, None)
  | ErrNoRows => r.1 = (None, None)
  | ScanFailed err => r.1 = (None, Some err)
  end.
Proof.
  unfold SQLite_GetAnalysisByHash.
  by destruct (queryAnalysisByHash db hash w) as [[result| |err] w'].
Qed.

(** C9.  On a cache hit the response has no warnings, and its claims
    are whatever the store returned next to its error, which is not
    looked at; with the SQLite store a failed query leaves the claims
    empty, whatever [TotalClaims] the cached analysis records. *)
Theorem VerifyText_cache_hit_ignores_claim_errors e sch text s existing :
  (cacheLookup lib e text s).1.1 = Some existing ->
  let got := GetClaimsByAnalysis (store e) (AnalysisResult.ID existing)
               (cacheLookup lib e text s).2 in
  exists resp s',
    VerifyText lib e sch text s = Some (inl resp, s')
    /\ VerificationResponse.Analysis resp = existing
    /\ VerificationResponse.Warnings resp = []
    /\ VerificationResponse.Claims resp = got.1.1
    /\ forall db,
         store e = SQLiteStore_asStore db ->
         (forall claims rowsErr,
            (queryClaimsByAnalysis db (AnalysisResult.ID existing)
               (cacheLookup lib e text s).2).1 <> RowsRead claims rowsErr) ->
         VerificationResponse.Claims resp = [].
Proof.
  intros Hhit got. rewrite VerifyText_unfold, Hhit.
  eexists _, _. split; [reflexivity|]. simpl.
  split; [done|]. split; [done|]. split; [done|].
  intros db Hdb Hfail. subst got. rewrite Hdb. simpl.
  unfold SQLite_GetClaimsByAnalysis.
  destruct (queryClaimsByAnalysis db _ _) as [[err|err|claims rowsErr] w']; simpl;
    [done | done | by destruct (Hfail claims rowsErr)].
Qed.

Lemma mapM_claimOf_types (ecs : list extractedClaim) s claims s' :
  mapM (claimOf lib) ecs s = Some (claims, s') ->
  map Claim.Type_ claims = map ec_Type ecs
  /\ map Claim.Text claims = map ec_Text ecs
  /\ Forall (fun c => Claim.Status c = StatusPending) claims.
Proof.
  revert s claims s'. induction ecs as [|ec ecs IH]; intros s claims s'; simpl.
  - intros [<- _]%ret_Some. by repeat split.
  - intros H. inv_bind H. inv_bind H. apply ret_Some in H as [<- _].
    unfold claimOf in Hrun. inv_bind Hrun. apply ret_Some in Hrun as [<- _].
    destruct (IH _ _ _ Hrun0) as (E1 & E2 & Hp). simpl. rewrite E1, E2.
    split; [done|]. split; [done|]. by constructor.
Qed.

Lemma claimOf_total ec s : is_Some (claimOf lib ec s).
Proof.
  unfold claimOf, bind, ask, ret. destruct (uuid_New lib (world s)). by eexists.
Qed.

(** C10.  Whenever the provider answers the extraction call without an
    error and the answer decodes, [Extract] returns one claim per entry
    of the decoded answer, in order, each carrying the type string of
    its entry as its [Type], whatever that string is: no entry is
    rejected or rewritten, and the eight claim types are not
    consulted. *)
Theorem Extract_copies_type x text s answer result :
  (CompleteWithSystem (x_provider x) (extractionSystemPrompt lib (customClaimTypes x))
     ("Text to analyze:" +:+ nl +:+ nl +:+ text)
     (mkOptions 4096 0%Q EmptyString) (world s)).1 = (answer, None) ->
  decodeExtraction lib answer = inl result ->
  exists claims s',
    Extract lib x text s = Some (inl claims, s')
    /\ map Claim.Type_ claims = map ec_Type (er_Claims result)
    /\ map Claim.Text claims = map ec_Text (er_Claims result).
Proof.
  intros Hans Hdec. unfold Extract, bind at 1, call.
  change (mkOptions 4096 (Temperature DefaultCompletionOptions)
            (Model DefaultCompletionOptions)) with (mkOptions 4096 0%Q EmptyString).
  destruct (CompleteWithSystem _ _ _ _ _) as [[answer0 err] w]. simpl in *.
  injection Hans as -> ->.
  unfold bind at 1, ClaimExtractor_parseResponse. rewrite Hdec. unfold bind at 1.
  destruct (mapM_total (claimOf lib) (er_Claims result) claimOf_total
              (mkSt w (log s ++ [EvComplete (extractionSystemPrompt lib (customClaimTypes x))
                                   ("Text to analyze:" +:+ nl +:+ nl +:+ text) 4096])))
    as [[claims s'] Hm].
  rewrite Hm. exists claims, s'. split; [reflexivity|].
  apply mapM_claimOf_types in Hm as (Hty & Htx & _). by split.
Qed.

Lemma Extract_total (x : ClaimExtractor (World := World)) text s :
  is_Some (Extract lib x text s).
Proof.
  unfold Extract, bind at 1, call.
  destruct (CompleteWithSystem _ _ _ _ _) as [[answer err] w]. simpl.
  destruct err; [by eexists|].
  unfold bind, ClaimExtractor_parseResponse.
  destruct (decodeExtraction lib answer) as [result|err]; [|by eexists].
  unfold bind.
  destruct (mapM_total (claimOf lib) (er_Claims result) claimOf_total
              (mkSt w (log s ++ [EvComplete (extractionSystemPrompt lib (customClaimTypes x))
                                   ("Text to analyze:" +:+ nl +:+ nl +:+ text) 4096])))
    as [[claims s1] ->].
  by eexists.
Qed.

Lemma calculateAnalysis_total docHash claims duration s :
  is_Some (calculateAnalysis lib docHash claims duration s).
Proof.
  unfold calculateAnalysis. destruct (countStatuses claims) as [[verified mixed] unsupported].
  unfold bind, ask, ret.
  destruct (uuid_New lib (world s)) as [id w1]. simpl.
  destruct (time_Now lib w1) as [now w2]. by eexists.
Qed.

(** [Extract] hands on the claims of [parseResponse] as they are. *)
Lemma Extract_returns_parsed x text s claims s' :
  Extract lib x text s = Some (inl claims, s') ->
  exists response s1,
    ClaimExtractor_parseResponse lib response s1 = Some (inl claims, s').
Proof.
  unfold Extract. intros H. inv_bind H.
  destruct a.2; [by apply ret_Some in H as [[=] _]|].
  inv_bind H. destruct a0 as [cs|err]; apply ret_Some in H as [[= <-] <-].
  eauto.
Qed.
End ModeProperties.

(* ===================================================================== *)
(** ** The admission semaphore *)
(* ===================================================================== *)

Section AdmissionProperties.
Import admission.

Definition countPhase (P : Phase -> Prop) `{!forall p, Decision (P p)}
    (l : list Phase) : nat :=
  length (filter P l).

Lemma countPhase_app P `{!forall p, Decision (P p)} l1 l2 :
  countPhase P (l1 ++ l2) = (countPhase P l1 + countPhase P l2)%nat.
Proof. unfold countPhase. by rewrite filter_app, length_app. Qed.

(** Overwriting one slot moves one goroutine from the count of its
    old phase to the count of its new one. *)
Lemma countPhase_insert P `{!forall p, Decision (P p)} l idx old new :
  l !! idx = Some old ->
  (countPhase P (<[idx := new]> l) + (if decide (P old) then 1 else 0)
   = countPhase P l + (if decide (P new) then 1 else 0))%nat.
Proof.
  unfold countPhase. revert idx.
  induction l as [|p l IH]; intros [|idx] Hl; simpl in *; try done.
  - injection Hl as ->. rewrite !filter_cons.
    repeat case_decide; simpl; lia.
  - specialize (IH idx Hl). rewrite !filter_cons.
    destruct (decide (P p)), (decide (P old)), (decide (P new)); simpl in *; lia.
Qed.

Definition invariant (n : nat) (s : State) : Prop :=
  buffered s = inFlight s
  /\ (buffered s <= capacity)%nat
  /\ wg s = countPhase (fun p => p <> Finished) (tasks s)
  /\ (length (tasks s) <= n)%nat.

Lemma invariant_init n : invariant n init.
Proof. unfold invariant, init, inFlight, countPhase, capacity. simpl. lia. Qed.

Lemma invariant_step n s s' : invariant n s -> step n s s' -> invariant n s'.
Proof.
  unfold invariant, inFlight.
  fold (countPhase (fun p => p = InFlight) (tasks s)).
  fold (countPhase (fun p => p = InFlight) (tasks s')).
  intros (Hbuf & Hcap & Hwg & Hlen) Hstep.
  destruct Hstep as [s Hn | s idx Hidx Hfree | s idx Hidx Hpos | s idx Hidx]; simpl.
  - rewrite !countPhase_app, length_app. unfold countPhase at 2 4. simpl. lia.
  - pose proof (countPhase_insert (fun p => p = InFlight) _ _ _ InFlight Hidx) as H1.
    pose proof (countPhase_insert (fun p => p <> Finished) _ _ _ InFlight Hidx) as H2.
    rewrite length_insert. repeat case_decide; try done. unfold capacity in *. lia.
  - pose proof (countPhase_insert (fun p => p = InFlight) _ _ _ Released Hidx) as H1.
    pose proof (countPhase_insert (fun p => p <> Finished) _ _ _ Released Hidx) as H2.
    rewrite length_insert. repeat case_decide; try done. lia.
  - pose proof (countPhase_insert (fun p => p = InFlight) _ _ _ Finished Hidx) as H1.
    pose proof (countPhase_insert (fun p => p <> Finished) _ _ _ Finished Hidx) as H2.
    rewrite length_insert. repeat case_decide; try done. lia.
Qed.

Lemma reachable_invariant n s : reachable n s -> invariant n s.
Proof.
  induction 1 as [|s s' _ IH Hstep]; [apply invariant_init|].
  by eapply invariant_step.
Qed.

Lemma countPhase_none P `{!forall p, Decision (P p)} l :
  countPhase P l = 0%nat -> Forall (fun p => ~ P p) l.
Proof.
  unfold countPhase. induction l as [|p l IH]; [constructor|].
  rewrite filter_cons. case_decide; simpl; [done|].
  intros E. constructor; [done | by apply IH].
Qed.

Lemma act_step n s a s' : act n s a = Some s' -> step n s s'.
Proof.
  destruct a as [|idx|idx|idx]; simpl; case_decide; intros [= <-];
    try destruct_and!; by constructor.
Qed.

Lemma run_reachable n acts s s' :
  reachable n s -> run n acts s = Some s' -> reachable n s'.
Proof.
  revert s. induction acts as [|a acts IH]; intros s Hr; simpl.
  - by intros [= <-].
  - destruct (act n s a) as [s1|] eqn:E; [|done].
    apply (IH s1). apply (reach_step n s s1 Hr). by apply (act_step n s a).
Qed.

(** The goroutines admitted so far are those that have left [Waiting],
    each listed once. *)
Definition admittedInvariant (s : State) : Prop :=
  NoDup (admitted s)
  /\ forall idx, idx ∈ admitted s <->
                 exists p, tasks s !! idx = Some p /\ p <> Waiting.

Lemma admittedInvariant_step n s s' :
  admittedInvariant s -> step n s s' -> admittedInvariant s'.
Proof.
  intros [Hnd Hmem] Hstep.
  assert (Hkeep : forall idx (old new : Phase),
    tasks s !! idx = Some old -> old <> Waiting -> new <> Waiting ->
    forall j, (exists p, <[idx := new]> (tasks s) !! j = Some p /\ p <> Waiting)
              <-> (exists p, tasks s !! j = Some p /\ p <> Waiting)).
  { intros idx old new Hidx Ho Hn j.
    destruct (decide (j = idx)) as [->|Hne].
    - rewrite list_lookup_insert_eq by (by eapply lookup_lt_Some).
      split; intros _; [by exists old | by exists new].
    - by rewrite list_lookup_insert_ne. }
  destruct Hstep as [s Hn | s idx Hidx Hfree | s idx Hidx Hpos | s idx Hidx];
    split; simpl; try done.
  - intros idx. rewrite Hmem. split; intros (p & Hp & Hw); exists p; split; try done.
    + by apply lookup_app_l_Some.
    + apply lookup_app_Some in Hp as [?|[_ Hp]]; [done|].
      destruct (idx - length (tasks s))%nat; simpl in Hp; [congruence | done].
  - apply NoDup_app. split; [done|]. split; [|apply NoDup_singleton].
    intros j Hj ->%list_elem_of_singleton. apply Hmem in Hj as (p & Hp & Hw). congruence.
  - intros j. rewrite elem_of_app, list_elem_of_singleton, Hmem.
    destruct (decide (j = idx)) as [->|Hne].
    + rewrite list_lookup_insert_eq by (by eapply lookup_lt_Some).
      split; [|by right]. intros _. by exists InFlight.
    + rewrite list_lookup_insert_ne by done.
      split; [by intros [?|?] | by left].
  - intros j. rewrite Hmem. symmetry. by eapply Hkeep.
  - intros j. rewrite Hmem. symmetry. by eapply Hkeep.
Qed.

Lemma reachable_admittedInvariant n s : reachable n s -> admittedInvariant s.
Proof.
  induction 1 as [|s s' _ IH Hstep]; [|by eapply admittedInvariant_step].
  split; [apply NoDup_nil_2|]. intros idx. simpl. split.
  - by intros ?%elem_of_nil.
  - by intros (p & Hp & _).
Qed.

Lemma countPhase_some P `{!forall p, Decision (P p)} l :
  (0 < countPhase P l)%nat -> exists idx p, l !! idx = Some p /\ P p.
Proof.
  unfold countPhase. destruct (filter P l) as [|p l'] eqn:E; simpl; [lia|].
  intros _. assert (Hin : p ∈ filter P l) by (rewrite E; by left).
  apply list_elem_of_filter in Hin as [HP Hin].
  apply list_elem_of_lookup in Hin as [idx Hidx]. eauto.
Qed.

(** No deadlock: until [wg.Wait()] can return, some goroutine can move. *)
Lemma admission_progress n s :
  reachable n s -> ~ waitReturns n s -> exists a s', act n s a = Some s'.
Proof.
  intros (Hbuf & Hcap & Hwg & Hlen)%reachable_invariant Hnot.
  destruct (decide (length (tasks s) < n)%nat) as [Hlt|Hge].
  { exists Go. simpl. rewrite decide_True by done. eauto. }
  assert (Hpos : (0 < countPhase (fun p => p <> Finished) (tasks s))%nat).
  { destruct (wg s) eqn:E; [|lia]. destruct Hnot. split; [lia | done]. }
  apply countPhase_some in Hpos as (idx & p & Hidx & Hp).
  assert (Hrecv : (0 < buffered s)%nat ->
            exists a s', act n s a = Some s').
  { intros Hb. rewrite Hbuf in Hb. unfold inFlight in Hb.
    apply (countPhase_some (fun p => p = InFlight)) in Hb as (j & q & Hj & ->).
    exists (Receive j). simpl. rewrite decide_True; [eauto|].
    split; [done|]. rewrite Hbuf. unfold inFlight.
    pose proof (countPhase_insert (fun p => p = InFlight) _ _ _ InFlight Hj) as Hc.
    destruct (filter (fun p => p = InFlight) (tasks s)) as [|x l] eqn:E; simpl; [|lia].
    assert (Hin : InFlight ∈ filter (fun p => p = InFlight) (tasks s)).
    { apply list_elem_of_filter. split; [done|]. by eapply list_elem_of_lookup_2. }
    rewrite E in Hin. by apply elem_of_nil in Hin. }
  destruct p; try done.
  - destruct (decide (buffered s < capacity)%nat) as [Hfree|Hfull].
    + exists (Send idx). simpl. rewrite decide_True by done. eauto.
    + apply Hrecv. unfold capacity in *. lia.
  - apply Hrecv. rewrite Hbuf. unfold inFlight.
    destruct (filter (fun p => p = InFlight) (tasks s)) as [|x l] eqn:E; simpl; [|lia].
    assert (Hin : InFlight ∈ filter (fun p => p = InFlight) (tasks s)).
    { apply list_elem_of_filter. split; [done|]. by eapply list_elem_of_lookup_2. }
    rewrite E in Hin. by apply elem_of_nil in Hin.
  - exists (Done idx). simpl. rewrite decide_True by done. eauto.
Qed.

(** [wg.Wait()] returns only when every goroutine has finished. *)
Lemma waitReturns_all_finished n s :
  reachable n s -> waitReturns n s -> tasks s = replicate n Finished.
Proof.
  intros (_ & _ & Hwg & _)%reachable_invariant [Hn Hzero].
  rewrite Hzero in Hwg. symmetry in Hwg.
  apply countPhase_none in Hwg. symmetry.
  apply replicate_as_Forall_2; [done|].
  eapply Forall_impl; [exact Hwg|]. intros p Hp. simpl in Hp.
  by destruct (decide (p = Finished)).
Qed.

(** C8.  In every state the goroutines of one call of [verifyClaims]
    can reach, at most five of them are between their send on the
    semaphore and their receive from it, that is, verifying their
    claim; their number is the number of values buffered in the
    channel, which is created by that call; and [wg.Wait()] returns
    only when every claim's goroutine has finished. *)
Theorem at_most_five_in_flight n s :
  reachable n s ->
  (inFlight s <= 5)%nat
  /\ inFlight s = buffered s
  /\ (waitReturns n s -> tasks s = replicate n Finished).
Proof.
  intros Hr. pose proof (reachable_invariant n s Hr) as (Hbuf & Hcap & _ & _).
  unfold capacity in Hcap. split; [lia|]. split; [done|].
  by apply waitReturns_all_finished.
Qed.
(** When [wg.Wait()] returns, the goroutines admitted are those of all
    the claims, each once: the order of admission is a schedule in the
    sense of [runsEachOnce]. *)
Lemma admitted_each_once n s :
  reachable n s -> waitReturns n s -> admitted s ≡ₚ seq 0 n.
Proof.
  intros Hr Hw.
  destruct (reachable_admittedInvariant n s Hr) as [Hnd Hmem].
  pose proof (waitReturns_all_finished n s Hr Hw) as Hfin.
  destruct Hw as [Hlen _].
  apply NoDup_Permutation; [done | apply NoDup_seq|].
  intros idx. rewrite Hmem, elem_of_seq, Hfin. split.
  - intros (p & Hp & _). apply lookup_replicate in Hp. lia.
  - intros Hlt. exists Finished. split; [|done]. apply lookup_replicate. split; [done | lia].
Qed.
End AdmissionProperties.

(** C8, witness: seven claims, six goroutines started, five admitted;
    the sixth has to wait. *)
Lemma at_most_five_in_flight_witness :
  let s := admission.mkState
             (replicate 5 admission.InFlight ++ [admission.Waiting]) 5 6
             [0; 1; 2; 3; 4]%nat in
  admission.reachable 7 s
  /\ ((admission.inFlight s <= 5)%nat
      /\ admission.inFlight s = admission.buffered s
      /\ (admission.waitReturns 7 s -> admission.tasks s = replicate 7 admission.Finished)).
Proof.
  intros s.
  assert (Hr : admission.reachable 7 s).
  { apply (run_reachable 7
             (replicate 6 admission.Go
              ++ map admission.Send [0; 1; 2; 3; 4]%nat) admission.init);
      [apply admission.reach_init | reflexivity]. }
  split; [exact Hr|]. exact (at_most_five_in_flight 7 s Hr).
Defined.

(** A sixth send is not enabled while five goroutines are in flight. *)
Example sixth_goroutine_waits :
  admission.run 7
    (replicate 6 admission.Go ++ map admission.Send [0; 1; 2; 3; 4; 5]%nat)
    admission.init = None
  /\ admission.run 7
       (replicate 6 admission.Go ++ map admission.Send [0; 1; 2; 3; 4]%nat
        ++ [admission.Receive 2; admission.Send 5]%nat)
       admission.init
     = Some (admission.mkState
               [admission.InFlight; admission.InFlight; admission.Released;
                admission.InFlight; admission.InFlight; admission.InFlight] 5 6
               [0; 1; 2; 3; 4; 5]%nat).
Proof. split; reflexivity. Qed.

(* ===================================================================== *)
(** ** The theorems at work in the concrete world *)
(* ===================================================================== *)

(** An air-gapped run: two claims, each judged from model knowledge,
    and no search call in the log. *)
Example airgapped_run :
  exists resp s',
    verify.VerifyText Demo.lib
      (Demo.engine false false ("E2", None) ("V", None)
         database.ErrNoRows (database.RowsRead [] None))
      Demo.inOrder "hello" Demo.s0 = Some (inl resp, s')
    /\ map Claim.SourceType (VerificationResponse.Claims resp)
       = [SourceTypeModelBased; SourceTypeModelBased]
    /\ VerificationResponse.Warnings resp = []
    /\ filter (fun c => is_search_call c = true) (log s') = [].
Proof. eexists _, _. split; [vm_compute; reflexivity|]. by repeat split. Qed.

(** C3, witness: an analysis is stored under the hash of "hello". *)
Lemma VerifyText_cache_hit_does_no_work_witness :
  let e := Demo.engine true true ("E2", None) ("V", None)
             (database.Scanned Demo.cached) (database.RowsRead [] None) in
  (cacheLookup Demo.lib e "hello" Demo.s0).1.1 = Some Demo.cached
  /\ exists resp s',
       verify.VerifyText Demo.lib e Demo.inOrder "hello" Demo.s0 = Some (inl resp, s')
       /\ VerificationResponse.ID resp = AnalysisResult.ID Demo.cached
       /\ VerificationResponse.Analysis resp = Demo.cached
       /\ exists calls,
            log s' = log Demo.s0 ++ calls
            /\ Forall (fun c => is_store_read c = true
                                /\ is_model_call c = false
                                /\ is_search_call c = false) calls.
Proof.
  intros e. split; [reflexivity|].
  apply (proj1 (VerifyText_cache_hit_does_no_work Demo.lib e Demo.inOrder "hello" Demo.s0)).
  reflexivity.
Defined.

(** A lookup that fails in the SQLite store is followed by a full run:
    the extraction call comes next in the log. *)
Example failed_lookup_falls_through :
  exists resp s',
    verify.VerifyText Demo.lib
      (Demo.engine false false ("E0", None) ("V", None)
         (database.ScanFailed "database is locked") (database.RowsRead [] None))
      Demo.inOrder "hello" Demo.s0 = Some (inl resp, s')
    /\ take 2 (log s')
       = [EvGetAnalysisByHash "sha256:hello";
          EvComplete "extract" ("Text to analyze:" +:+ verify.nl +:+ verify.nl +:+ "hello")
            4096].
Proof. eexists _, _. split; [vm_compute; reflexivity|]. reflexivity. Qed.

(** C9, witness: the cached analysis records two claims and the query
    for its claims fails. *)
Lemma VerifyText_cache_hit_ignores_claim_errors_witness :
  let e := Demo.engine true true ("E2", None) ("V", None)
             (database.Scanned Demo.cached) (database.QueryFailed "database is locked") in
  (cacheLookup Demo.lib e "hello" Demo.s0).1.1 = Some Demo.cached
  /\ (let got := database.GetClaimsByAnalysis (verify.store e)
                   (AnalysisResult.ID Demo.cached) (cacheLookup Demo.lib e "hello" Demo.s0).2 in
      exists resp s',
        verify.VerifyText Demo.lib e Demo.inOrder "hello" Demo.s0 = Some (inl resp, s')
        /\ VerificationResponse.Analysis resp = Demo.cached
        /\ VerificationResponse.Warnings resp = []
        /\ VerificationResponse.Claims resp = got.1.1
        /\ forall db,
             verify.store e = database.SQLiteStore_asStore db ->
             (forall claims rowsErr,
                (database.queryClaimsByAnalysis db (AnalysisResult.ID Demo.cached)
                   (cacheLookup Demo.lib e "hello" Demo.s0).2).1
                <> database.RowsRead claims rowsErr) ->
             VerificationResponse.Claims resp = []).
Proof.
  intros e. split; [reflexivity|].
  apply (VerifyText_cache_hit_ignores_claim_errors Demo.lib e Demo.inOrder "hello"
           Demo.s0 Demo.cached).
  reflexivity.
Defined.

(** The same run, evaluated: no claims and no warnings are returned,
    although the cached analysis counts two claims. *)
Example cache_hit_with_failed_claim_query :
  exists resp s',
    verify.VerifyText Demo.lib
      (Demo.engine true true ("E2", None) ("V", None)
         (database.Scanned Demo.cached) (database.QueryFailed "database is locked"))
      Demo.inOrder "hello" Demo.s0 = Some (inl resp, s')
    /\ AnalysisResult.TotalClaims (VerificationResponse.Analysis resp) = 2
    /\ VerificationResponse.Claims resp = []
    /\ VerificationResponse.Warnings resp = [].
Proof. eexists _, _. split; [vm_compute; reflexivity|]. by repeat split. Qed.

(** C10, witness: an answer whose second claim has a type outside the
    eight claim types. *)
Lemma Extract_copies_type_witness :
  let x := verify.extractor
             (Demo.engine true true ("E2", None) ("V", None)
                database.ErrNoRows (database.RowsRead [] None)) in
  let result :=
    verify.mkExtraction
      [verify.mkExtracted "Water boils at 100 C" "factual" 0;
       verify.mkExtracted "The moon is made of cheese" "opinion" 1] in
  ((llm.CompleteWithSystem (verify.x_provider x)
      (verify.extractionSystemPrompt Demo.lib (verify.customClaimTypes x))
      ("Text to analyze:" +:+ verify.nl +:+ verify.nl +:+ "hello")
      (llm.mkOptions 4096 0%Q EmptyString) (world Demo.s0)).1 = ("E2", None)
   /\ verify.decodeExtraction Demo.lib "E2" = inl result)
  /\ exists claims s',
       verify.Extract Demo.lib x "hello" Demo.s0 = Some (inl claims, s')
       /\ map Claim.Type_ claims = map verify.ec_Type (verify.er_Claims result)
       /\ map Claim.Text claims = map verify.ec_Text (verify.er_Claims result).
Proof.
  intros x result. split; [by split|].
  apply (Extract_copies_type Demo.lib x "hello" Demo.s0 "E2" result); reflexivity.
Defined.

(** The type "opinion" is none of the eight claim types, and the claim
    keeps it through extraction and verification. *)
Example unknown_claim_type_survives :
  ("opinion" ∉ claimTypes)
  /\ exists resp s',
       verify.VerifyText Demo.lib
         (Demo.engine true true ("E2", None) ("V", None)
            database.ErrNoRows (database.RowsRead [] None))
         Demo.inOrder "hello" Demo.s0 = Some (inl resp, s')
       /\ map Claim.Type_ (VerificationResponse.Claims resp) = ["factual"; "opinion"].
Proof.
  split.
  - unfold claimTypes. rewrite !not_elem_of_cons. repeat split; try discriminate.
    apply not_elem_of_nil.
  - eexists _, _. split; [vm_compute; reflexivity|]. reflexivity.
Qed.

(* ===================================================================== *)
(** ** Further properties: what a run calls, and in which order *)
(* ===================================================================== *)

Definition is_save (ev : Event) : bool :=
  match ev with
  | EvSaveAnalysis _ | EvSaveClaims _ _ => true
  | _ => false
  end.

Section CallProperties.
Import search llm database verify.
Context {World : Type} (lib : Lib World).
Implicit Types (e : Engine (World := World)) (s : St World).

(** [m] appends exactly the calls [evs] to the log. *)
Definition callsExactly {A} (evs : list Event) (m : M World A) : Prop :=
  forall s a s', m s = Some (a, s') -> log s' = log s ++ evs.

Lemma callsExactly_ret {A} (a : A) : callsExactly [] (ret (World := World) a).
Proof. intros s b s' [_ <-]%ret_Some. by rewrite app_nil_r. Qed.

Lemma callsExactly_ask {A} (f : World -> A * World) : callsExactly [] (ask f).
Proof. intros s b s' [_ ->]%ask_Some. simpl. by rewrite app_nil_r. Qed.

Lemma callsExactly_call {A} ev (f : World -> A * World) : callsExactly [ev] (call ev f).
Proof. by intros s b s' [_ ->]%call_Some. Qed.

Lemma callsExactly_bind {A B} evs1 evs2 (m : M World A) (f : A -> M World B) :
  callsExactly evs1 m -> (forall a, callsExactly evs2 (f a)) ->
  callsExactly (evs1 ++ evs2) (bind m f).
Proof.
  intros Hm Hf s b s' (a & s1 & H1 & H2)%bind_Some.
  by rewrite (Hf a _ _ _ H2), (Hm _ _ _ H1), app_assoc.
Qed.

Lemma callsExactly_mapM {A B} (f : A -> M World B) (l : list A) :
  (forall x, callsExactly [] (f x)) -> callsExactly [] (mapM f l).
Proof.
  intros Hf. induction l as [|x l IH]; simpl; [apply callsExactly_ret|].
  apply (callsExactly_bind [] []); [done|]. intros y.
  apply (callsExactly_bind [] []); [done|]. intros ys. apply callsExactly_ret.
Qed.

Lemma claimOf_calls_nothing ec : callsExactly [] (claimOf lib ec).
Proof.
  unfold claimOf. apply (callsExactly_bind [] []); [apply callsExactly_ask|].
  intros id. apply callsExactly_ret.
Qed.

Lemma parseResponse_calls_nothing response :
  callsExactly [] (ClaimExtractor_parseResponse lib response).
Proof.
  unfold ClaimExtractor_parseResponse.
  destruct (decodeExtraction lib response) as [result|err]; [|apply callsExactly_ret].
  apply (callsExactly_bind [] []).
  - apply callsExactly_mapM. apply claimOf_calls_nothing.
  - intros claims. apply callsExactly_ret.
Qed.

(** The one model call of an extraction. *)
Definition extractionCall (x : ClaimExtractor (World := World)) (text : string) : Event :=
  EvComplete (extractionSystemPrompt lib (customClaimTypes x))
    ("Text to analyze:" +:+ nl +:+ nl +:+ text) 4096.

Lemma Extract_calls_once x text : callsExactly [extractionCall x text] (Extract lib x text).
Proof.
  unfold Extract.
  apply (callsExactly_bind [extractionCall x text] []); [apply callsExactly_call|].
  intros r. destruct r.2; [apply callsExactly_ret|].
  apply (callsExactly_bind [] []); [apply parseResponse_calls_nothing|].
  intros [claims|err]; apply callsExactly_ret.
Qed.

(** The error of a failed extraction names the stage that failed. *)
Lemma Extract_error x text s err s' :
  Extract lib x text s = Some (inr err, s') ->
  (exists cause, err = "failed to extract claims: " +:+ cause)
  \/ (exists cause, err = "failed to parse extraction response: " +:+ cause).
Proof.
  unfold Extract. intros H. inv_bind H.
  destruct a.2 as [cause|].
  - apply ret_Some in H as [[= <-] _]. left. by exists cause.
  - inv_bind H. destruct a0 as [claims|cause]; apply ret_Some in H as [[= <-] _].
    right. by exists cause.
Qed.

(** X1.  When the extraction fails, an uncached run ends with that
    error and with nothing after the extraction call in its log: no
    search, no verification, and nothing is saved. *)
Theorem VerifyText_extraction_failure_aborts e sch text s err s1 :
  (cacheLookup lib e text s).1.1 = None ->
  Extract lib (extractor e) text (afterLookup lib e text s) = Some (inr err, s1) ->
  VerifyText lib e sch text s = Some (inr err, s1)
  /\ log s1 = log s ++ [EvGetAnalysisByHash (sha256_hex lib text);
                        extractionCall (extractor e) text]
  /\ ((exists cause, err = "failed to extract claims: " +:+ cause)
      \/ (exists cause, err = "failed to parse extraction response: " +:+ cause)).
Proof.
  intros Hmiss Hex. rewrite VerifyText_unfold, Hmiss. unfold fullRun, bind at 1.
  rewrite Hex. split; [reflexivity|]. split.
  - rewrite (Extract_calls_once _ _ _ _ _ Hex). simpl. by rewrite <- app_assoc.
  - by eapply Extract_error.
Qed.
End CallProperties.

(** X1, witness: the provider is unreachable. *)
Lemma VerifyText_extraction_failure_aborts_witness :
  let e := Demo.engine true true (EmptyString, Some "connection refused") ("V", None)
             database.ErrNoRows (database.RowsRead [] None) in
  let err := "failed to extract claims: connection refused" in
  let s1 := mkSt 1%nat
              [EvGetAnalysisByHash "sha256:hello";
               EvComplete "extract"
                 ("Text to analyze:" +:+ verify.nl +:+ verify.nl +:+ "hello") 4096] in
  ((cacheLookup Demo.lib e "hello" Demo.s0).1.1 = None
   /\ verify.Extract Demo.lib (verify.extractor e) "hello"
        (afterLookup Demo.lib e "hello" Demo.s0) = Some (inr err, s1))
  /\ (verify.VerifyText Demo.lib e Demo.inOrder "hello" Demo.s0 = Some (inr err, s1)
      /\ log s1 = log Demo.s0
                  ++ [EvGetAnalysisByHash (verify.sha256_hex Demo.lib "hello");
                      extractionCall Demo.lib (verify.extractor e) "hello"]
      /\ ((exists cause, err = "failed to extract claims: " +:+ cause)
          \/ (exists cause, err = "failed to parse extraction response: " +:+ cause))).
Proof.
  intros e err s1.
  assert (H1 : (cacheLookup Demo.lib e "hello" Demo.s0).1.1 = None) by reflexivity.
  assert (H2 : verify.Extract Demo.lib (verify.extractor e) "hello"
                 (afterLookup Demo.lib e "hello" Demo.s0) = Some (inr err, s1))
    by reflexivity.
  split; [by split|].
  exact (VerifyText_extraction_failure_aborts Demo.lib e Demo.inOrder "hello" Demo.s0
           err s1 H1 H2).
Defined.

Section StageCalls.
Import search llm database verify.
Context {World : Type} (lib : Lib World).
Implicit Types (e : Engine (World := World)) (s : St World).

(** A call that leaves the process for a model or a search source. *)
Definition outward (ev : Event) : Prop :=
  is_model_call ev = true \/ is_search_call ev = true.

Lemma adds_lift_option {A} P (o : option A) : adds (World := World) P (lift_option o).
Proof. destruct o; [apply adds_ret | by intros s a s' H]. Qed.

Lemma adds_Search P (a : AggregatedSearchClient World) query maxR sched :
  (forall src, P (EvSearch src query maxR)) -> adds P (Search a query maxR sched).
Proof.
  intros HP. unfold Search. case_decide; [apply adds_ret|].
  apply adds_bind.
  - apply adds_mapM. intros c. unfold searchOne.
    apply adds_bind; [by apply adds_call | intros r; apply adds_ret].
  - intros results. apply adds_bind; [apply adds_lift_option|].
    intros st. apply adds_ret.
Qed.

Lemma adds_Verify P v claim evidences :
  (forall system user maxTokens, P (EvComplete system user maxTokens)) ->
  adds P (Verify lib v claim evidences).
Proof.
  intros HP. unfold Verify. case_decide; [apply adds_ret|].
  apply adds_bind; [by apply adds_call|].
  intros r. destruct r.2; [apply adds_ret|].
  destruct (ClaimVerifier_parseResponse lib r.1); apply adds_ret.
Qed.

Lemma adds_VerifyWithoutEvidence P v claim :
  (forall system user maxTokens, P (EvComplete system user maxTokens)) ->
  adds P (VerifyWithoutEvidence lib v claim).
Proof.
  intros HP. unfold VerifyWithoutEvidence.
  apply adds_bind; [by apply adds_call|].
  intros r. destruct r.2; [apply adds_ret|].
  destruct (ClaimVerifier_parseResponse lib r.1); apply adds_ret.
Qed.

Lemma adds_finish P (claims : list Claim.t) (ws : list Warning.t) idx claim
    sourceType (r : VerifyResult) onError evidences :
  adds P (let '(status, confidence, reasoning) := afterError r onError in
          bind (finishClaim lib claim sourceType status confidence reasoning evidences)
               (fun c => ret (<[idx := c]> claims, ws))).
Proof.
  destruct (afterError r onError) as [[status confidence] reasoning].
  apply adds_bind; [|intros c; apply adds_ret].
  unfold finishClaim. apply adds_bind; [apply adds_ask | intros now; apply adds_ret].
Qed.

Lemma adds_verifyTask P e sch acc idx :
  (forall system user maxTokens, P (EvComplete system user maxTokens)) ->
  (forall src query maxR, P (EvSearch src query maxR)) ->
  adds P (verifyTask lib e sch acc idx).
Proof.
  intros HPm HPs. destruct acc as [claims ws]. unfold verifyTask.
  destruct (claims !! idx) as [claim|]; [|apply adds_ret].
  destruct (airGapped e).
  - apply adds_bind; [by apply adds_VerifyWithoutEvidence|].
    intros r. apply adds_finish.
  - apply adds_bind; [by apply adds_Search|]. intros sr. case_decide.
    + apply adds_bind; [by apply adds_VerifyWithoutEvidence|].
      intros r. apply adds_finish.
    + apply adds_bind; [by apply adds_Verify|]. intros r. apply adds_finish.
Qed.

(** The verifying stage calls models and search sources only. *)
Lemma verifyClaims_calls_outward e sch claims :
  adds outward (verifyClaims lib e sch claims).
Proof.
  unfold verifyClaims. apply adds_foldM. intros acc idx.
  apply adds_verifyTask; intros; unfold outward; simpl; auto.
Qed.

Lemma calculateAnalysis_calls_nothing docHash claims duration :
  callsExactly [] (calculateAnalysis lib docHash claims duration).
Proof.
  unfold calculateAnalysis. destruct (countStatuses claims) as [[verified mixed] unsupported].
  apply (callsExactly_bind [] []); [apply callsExactly_ask|]. intros id.
  apply (callsExactly_bind [] []); [apply callsExactly_ask|]. intros now.
  apply callsExactly_ret.
Qed.

(** X2.  Once the extraction of an uncached text has given claims and
    the verifying stage has returned, [VerifyText] returns a response,
    whatever the two saves answer: it carries the claims and the
    warnings of the stage, its id is the id of its analysis, and both
    carry the hash of the text.  The calls of the run other than
    searches are, in this order: the lookup by hash, the extraction
    call, model calls, then [SaveAnalysis] once and [SaveClaims] once
    under the id of the analysis, with exactly the analysis and the
    claims of the response. *)
Theorem VerifyText_saves_what_it_returns e sch text s extracted s1 claims ws s2 :
  (cacheLookup lib e text s).1.1 = None ->
  Extract lib (extractor e) text (afterLookup lib e text s) = Some (inl extracted, s1) ->
  verifyClaims lib e sch extracted s1 = Some ((claims, ws), s2) ->
  exists resp s' calls verdicts,
    VerifyText lib e sch text s = Some (inl resp, s')
    /\ VerificationResponse.Claims resp = claims
    /\ VerificationResponse.Warnings resp = ws
    /\ VerificationResponse.ID resp
       = AnalysisResult.ID (VerificationResponse.Analysis resp)
    /\ VerificationResponse.DocumentHash resp = sha256_hex lib text
    /\ AnalysisResult.DocumentHash (VerificationResponse.Analysis resp)
       = sha256_hex lib text
    /\ AnalysisResult.Status (VerificationResponse.Analysis resp) = "completed"
    /\ log s' = log s ++ calls
    /\ filter (fun ev => is_search_call ev = false) calls
       = [EvGetAnalysisByHash (sha256_hex lib text);
          extractionCall lib (extractor e) text]
         ++ verdicts
         ++ [EvSaveAnalysis (VerificationResponse.Analysis resp);
             EvSaveClaims (AnalysisResult.ID (VerificationResponse.Analysis resp))
               claims]
    /\ Forall (fun ev => is_model_call ev = true) verdicts.
Proof.
  intros Hmiss Hex Hvc.
  destruct (calculateAnalysis_total lib (sha256_hex lib text) claims
              ((time_Now lib (world s2)).1 - (time_Now lib (world s)).1)
              (mkSt (time_Now lib (world s2)).2 (log s2))) as [[a s3] Hca].
  pose proof (Extract_calls_once lib _ _ _ _ _ Hex) as Lx.
  destruct (verifyClaims_calls_outward _ _ _ _ _ _ Hvc) as (stage & Ls & Hstage).
  pose proof (calculateAnalysis_calls_nothing _ _ _ _ _ _ Hca) as Lc.
  assert (Ha : AnalysisResult.DocumentHash a = sha256_hex lib text
               /\ AnalysisResult.Status a = "completed").
  { unfold calculateAnalysis in Hca.
    destruct (countStatuses claims) as [[verified mixed] unsupported].
    inv_bind Hca. inv_bind Hca. by apply ret_Some in Hca as [<- _]. }
  destruct Ha as [Hh Hst]. simpl in Lx, Lc. rewrite app_nil_r in Lc.
  eexists (VerificationResponse.mk (AnalysisResult.ID a) (sha256_hex lib text) a claims ws),
    _,
    ([EvGetAnalysisByHash (sha256_hex lib text); extractionCall lib (extractor e) text]
     ++ stage ++ [EvSaveAnalysis a; EvSaveClaims (AnalysisResult.ID a) claims]),
    (filter (fun ev => is_search_call ev = false) stage).
  split.
  { apply (VerifyText_miss_stages lib); [done|].
    exists (inl extracted), s1. split; [done|].
    exists claims, ws, s2, a, s3. by repeat split. }
  simpl. do 6 (split; [done|]). split; [|split].
  - rewrite Lc, Ls, Lx. rewrite <- !app_assoc. reflexivity.
  - rewrite filter_cons_True by done. rewrite filter_cons_True by done.
    by rewrite filter_app.
  - apply Forall_forall. intros ev [Hns Hin]%list_elem_of_filter.
    destruct (proj1 (Forall_forall _ _) Hstage ev Hin) as [Hm|Hs]; [done | congruence].
Qed.
End StageCalls.

(* ===================================================================== *)
(** ** Further properties: what the verifying stage does to a claim *)
(* ===================================================================== *)

Section TaskProperties.
Import search llm database verify.
Context {World : Type} (lib : Lib World).
Implicit Types (e : Engine (World := World)) (s : St World).

(** What extraction fixed in a claim. *)
Definition identity (c : Claim.t) : string * string * ClaimType * Z :=
  (Claim.ID c, Claim.Text c, Claim.Type_ c, Claim.SentenceIndex c).

(** The claim [c] records the verdict [r] of a branch of the goroutine
    whose error message is [onError]. *)
Definition records (c : Claim.t) (r : VerifyResult) (onError : string)
    (sourceType : SourceType) (evidences : list Evidence.t) : Prop :=
  Claim.Status c = (afterError r onError).1.1
  /\ Claim.Confidence c = (afterError r onError).1.2
  /\ Claim.Reasoning c = (afterError r onError).2
  /\ Claim.SourceType c = sourceType
  /\ Claim.Evidences c = evidences.

Lemma finish_records (claims : list Claim.t) (wsx : list Warning.t) idx claim
    sourceType (r : VerifyResult) onError evidences s0 claims' ws' s' :
  (let '(status, confidence, reasoning) := afterError r onError in
   bind (finishClaim lib claim sourceType status confidence reasoning evidences)
        (fun c => ret (<[idx := c]> claims, wsx))) s0
  = Some ((claims', ws'), s') ->
  ws' = wsx
  /\ log s' = log s0
  /\ exists c, claims' = <[idx := c]> claims
               /\ identity c = identity claim
               /\ records c r onError sourceType evidences.
Proof.
  unfold records. destruct (afterError r onError) as [[status confidence] reasoning].
  intros H. inv_bind H. apply ret_Some in H as [[= <- <-] <-].
  unfold finishClaim in Hrun. inv_bind Hrun.
  apply ask_Some in Hrun0 as [_ ->]. apply ret_Some in Hrun as [<- <-].
  split; [done|]. split; [done|]. eexists. split; [reflexivity|]. by repeat split.
Qed.

(** The three ways a goroutine deals with its claim. *)
Lemma verifyTask_cases e sch claims ws idx claim s claims' ws' s' :
  claims !! idx = Some claim ->
  verifyTask lib e sch (claims, ws) idx s = Some ((claims', ws'), s') ->
  exists c, claims' = <[idx := c]> claims /\ identity c = identity claim /\
    ((airGapped e = true /\ ws' = ws /\
      exists r s1, VerifyWithoutEvidence lib (verifier e) claim s = Some (r, s1)
                   /\ records c r "Verification error" SourceTypeModelBased [])
     \/ (airGapped e = false /\
         exists evidences found s1 r s2,
           Search (searchClient e) (Claim.Text claim) 6 (selectCases sch idx) s
           = Some ((evidences, found), s1)
           /\ ws' = ws ++ found
           /\ ((evidences = []
                /\ VerifyWithoutEvidence lib (verifier e) claim s1 = Some (r, s2)
                /\ records c r "Verification error - no evidence found"
                     SourceTypeModelBased [])
               \/ (evidences <> []
                   /\ Verify lib (verifier e) claim evidences s1 = Some (r, s2)
                   /\ records c r "Verification error"
                        SourceTypeEvidenceBacked evidences)))).
Proof.
  intros Hidx. unfold verifyTask. rewrite Hidx.
  destruct (airGapped e) eqn:Eag.
  - intros H. inv_bind H.
    apply finish_records in H as (-> & _ & c & -> & Hid & Hrec).
    exists c. split; [done|]. split; [done|]. left. eauto 10.
  - intros H. inv_bind H. destruct a as [evidences found]. simpl in H.
    case_decide as Hlen.
    + apply nil_length_inv in Hlen. subst evidences. inv_bind H.
      apply finish_records in H as (-> & _ & c & -> & Hid & Hrec).
      exists c. split; [done|]. split; [done|]. right. split; [done|].
      exists [], found, s0, a, s1. split; [done|]. split; [done|]. left. done.
    + inv_bind H.
      apply finish_records in H as (-> & _ & c & -> & Hid & Hrec).
      exists c. split; [done|]. split; [done|]. right. split; [done|].
      exists evidences, found, s0, a, s1. split; [done|]. split; [done|]. right.
      split; [|done]. intros ->. done.
Qed.

(** A property every goroutine establishes of its claim holds of every
    claim once each goroutine has run. *)
Lemma verifyClaims_each (Q : Claim.t -> Claim.t -> Prop) e sch :
  (forall claims ws idx claim s claims' ws' s',
      claims !! idx = Some claim ->
      verifyTask lib e sch (claims, ws) idx s = Some ((claims', ws'), s') ->
      exists c, claims' = <[idx := c]> claims /\ Q claim c) ->
  (forall c0 c1 c2, Q c0 c1 -> Q c1 c2 -> Q c0 c2) ->
  forall order claims ws s claims' ws' s',
    foldM (verifyTask lib e sch) order (claims, ws) s = Some ((claims', ws'), s') ->
    length claims' = length claims
    /\ forall j c c', claims !! j = Some c -> claims' !! j = Some c' ->
         (j ∈ order -> Q c c') /\ (j ∉ order -> c' = c).
Proof.
  intros Htask Htrans.
  induction order as [|idx order IH]; intros claims ws s claims' ws' s'; simpl.
  - intros [[= <- <-] _]%ret_Some. split; [done|].
    intros j c c' Hc Hc'. split; [by intros ?%elem_of_nil | congruence].
  - intros H. inv_bind H. destruct a as [claims1 ws1].
    assert (Hstep : length claims1 = length claims
              /\ forall j c, claims !! j = Some c ->
                   exists c1, claims1 !! j = Some c1
                              /\ (j = idx -> Q c c1) /\ (j <> idx -> c1 = c)).
    { destruct (le_lt_dec (length claims) idx) as [Hge|Hlt];
        [apply lookup_ge_None_2 in Hge as Eidx
        |destruct (lookup_lt_is_Some_2 claims idx Hlt) as [claim Eidx]]; cycle 1.
      - destruct (Htask _ _ _ _ _ _ _ _ Eidx Hrun) as (c1 & -> & HQ).
        split; [by rewrite length_insert|]. intros j c Hj.
        destruct (decide (j = idx)) as [->|Hne].
        + exists c1. rewrite list_lookup_insert_eq by (by eapply lookup_lt_Some).
          split; [done|]. split; [|done]. intros _. congruence.
        + exists c. rewrite list_lookup_insert_ne by done. done.
      - unfold verifyTask in Hrun. rewrite Eidx in Hrun.
        apply ret_Some in Hrun as [[= <- <-] _]. split; [done|].
        intros j c Hj. exists c. split; [done|]. split; [|done].
        intros ->. congruence. }
    destruct Hstep as [Hlen1 Hstep].
    apply IH in H as (Hlen & Hall). split; [congruence|].
    intros j c c' Hc Hc'. destruct (Hstep j c Hc) as (c1 & Hc1 & Hat & Hoff).
    destruct (Hall j c1 c' Hc1 Hc') as [Hin Hout]. split.
    + intros Hmem. destruct (decide (j ∈ order)) as [Hjo|Hjo].
      * destruct (decide (j = idx)) as [->|Hne].
        -- eapply Htrans; [by apply Hat | by apply Hin].
        -- rewrite <- (Hoff Hne). by apply Hin.
      * apply elem_of_cons in Hmem as [->|?]; [|done].
        rewrite (Hout Hjo). by apply Hat.
    + intros Hnot. apply not_elem_of_cons in Hnot as [Hne Hjo].
      rewrite (Hout Hjo). by apply Hoff.
Qed.
End TaskProperties.

(* ===================================================================== *)
(** ** Further properties of the evidence aggregator *)
(* ===================================================================== *)

(** The warning one iteration of the collection loop appends, if any. *)
Definition warned (results : list search.SearchResult.t) (c : search.SelectCase)
    : list Warning.t :=
  match c with
  | search.RecvResult k =>
      match results !! k with
      | Some r =>
          match search.SearchResult.Error r with
          | Some err => [Warning.mk (search.SearchResult.Source r) err]
          | None => []
          end
      | None => []
      end
  | search.Timeout => [Warning.mk "search" "Some sources timed out"]
  | search.CtxDone => [Warning.mk "search" "Search cancelled"]
  end.

(** The iteration receives the result of a source that did not fail. *)
Definition receivesEvidence (results : list search.SearchResult.t)
    (c : search.SelectCase) : bool :=
  match c with
  | search.RecvResult k =>
      match results !! k with
      | Some r => bool_decide (search.SearchResult.Error r = None)
      | None => false
      end
  | _ => false
  end.

Section AggregatorProperties.
Import search.
Context {World : Type}.
Implicit Types (a : AggregatedSearchClient World) (s : St World).

Lemma selectStep_warnings results st c st' :
  selectStep results st c = Some st' ->
  warnings st' = warnings st ++ warned results c
  /\ length (warned results c) = (if receivesEvidence results c then 0 else 1)%nat.
Proof.
  destruct c as [k| |]; simpl.
  - case_decide; [done|].
    destruct (results !! k) as [r|]; [|done].
    destruct (SearchResult.Error r); intros [= <-]; simpl; [done|].
    by rewrite app_nil_r.
  - destruct (timerPending st); by intros [= <-].
  - by intros [= <-].
Qed.

Lemma collect_warnings results n st sched st' :
  collect results n st sched = Some st' ->
  warnings st' = warnings st ++ concat (map (warned results) (take n sched))
  /\ (length (concat (map (warned results) (take n sched)))
      + length (filter (fun c => receivesEvidence results c = true) (take n sched))
      = n)%nat.
Proof.
  revert st sched. induction n as [|n IH]; intros st sched; simpl.
  - intros [= <-]. simpl. by rewrite app_nil_r.
  - destruct sched as [|c sched]; [done|].
    destruct (selectStep results st c) as [st1|] eqn:E; [|done].
    intros H. destruct (IH _ _ H) as [Hw Hn].
    destruct (selectStep_warnings _ _ _ _ E) as [Hw1 Hl1].
    simpl. rewrite Hw, Hw1, <- app_assoc. split; [done|].
    rewrite length_app, Hl1, filter_cons.
    case_decide as Hc; rewrite Hc || apply not_true_is_false in Hc;
      try rewrite Hc; simpl in *; lia.
Qed.

Lemma mapM_searchOne query maxR (cs : list (SearchClient.t World)) s results s' :
  mapM (searchOne query maxR) cs s = Some (results, s') ->
  map SearchResult.Source results = map SearchClient.Name cs
  /\ log s' = log s ++ map (fun c => EvSearch (SearchClient.Name c) query maxR) cs.
Proof.
  revert s results s'. induction cs as [|c cs IH]; intros s results s'; simpl.
  - intros [<- <-]%ret_Some. by rewrite app_nil_r.
  - intros H. inv_bind H. inv_bind H. apply ret_Some in H as [<- <-].
    unfold searchOne in Hrun. inv_bind Hrun.
    apply call_Some in Hrun1 as [_ ->]. apply ret_Some in Hrun as [<- <-].
    destruct (IH _ _ _ Hrun0) as [E1 E2]. simpl in *.
    rewrite E1, E2. simpl. by rewrite <- app_assoc.
Qed.

Lemma Search_warns_instead_of_failing_aux a query maxR sched s evs ws s' :
  clients a <> [] ->
  Search a query maxR sched s = Some ((evs, ws), s') ->
  exists results,
    map SearchResult.Source results = map SearchClient.Name (clients a)
    /\ ws = concat (map (warned results) (take (length (clients a)) sched)).
Proof.
  intros Hne. unfold Search.
  rewrite decide_False by (destruct (clients a); done).
  intros H. inv_bind H. inv_bind H. apply ret_Some in H as [[= <- <-] <-].
  unfold lift_option in Hrun0.
  destruct (collect _ _ _ _) as [st|] eqn:E; [|done].
  apply ret_Some in Hrun0 as [-> ->].
  destruct (collect_warnings _ _ _ _ _ E) as [Hw _]. simpl in Hw.
  exists a0. split; [by eapply mapM_searchOne | done].
Qed.

(** X3.  With at least one source, a search that returns has turned
    every iteration of its loop into exactly one warning, except those
    that received the result of a source that did not fail: a failed
    source gives a warning with its name and its error, the timer and
    the cancellation each a warning of their own.  No error is
    returned, and the warnings and the error-free results received
    account for all the sources. *)
Theorem Search_warns_instead_of_failing a query maxR sched s evs ws s' :
  clients a <> [] ->
  Search a query maxR sched s = Some ((evs, ws), s') ->
  exists results,
    mapM (searchOne query maxR) (clients a) s = Some (results, s')
    /\ map SearchResult.Source results = map SearchClient.Name (clients a)
    /\ ws = concat (map (warned results) (take (length (clients a)) sched))
    /\ (length ws
        + length (filter (fun c => receivesEvidence results c = true)
                    (take (length (clients a)) sched))
        = length (clients a))%nat.
Proof.
  intros Hne. unfold Search.
  rewrite decide_False by (destruct (clients a); done).
  intros H. inv_bind H. inv_bind H. apply ret_Some in H as [[= <- <-] <-].
  unfold lift_option in Hrun0.
  destruct (collect _ _ _ _) as [st|] eqn:E; [|done].
  apply ret_Some in Hrun0 as [-> ->].
  destruct (collect_warnings _ _ _ _ _ E) as [Hw Hn]. simpl in Hw.
  exists a0. split; [done|]. split; [by eapply mapM_searchOne|].
  split; [done|]. by rewrite Hw.
Qed.

(** X4.  The calls of a search are calls of its own sources only, each
    source at most once, each with the query and the limit the search
    was given; without sources it calls nothing.  (Nothing is said of
    the order of the calls, which in the program is the scheduler's.) *)
Theorem Search_calls_only_its_sources a query maxR sched s r s' :
  Search a query maxR sched s = Some (r, s') ->
  exists calls,
    log s' = log s ++ calls
    /\ calls ⊆+ map (fun c => EvSearch (SearchClient.Name c) query maxR) (clients a)
    /\ (clients a = [] -> calls = []).
Proof.
  unfold Search. case_decide as Hn.
  - apply nil_length_inv in Hn. rewrite Hn. intros [_ <-]%ret_Some.
    exists []. by rewrite app_nil_r.
  - intros H. inv_bind H. inv_bind H. apply ret_Some in H as [_ <-].
    unfold lift_option in Hrun0.
    destruct (collect _ _ _ _) as [st|]; [|done].
    apply ret_Some in Hrun0 as [_ <-].
    exists (map (fun c => EvSearch (SearchClient.Name c) query maxR) (clients a)).
    split; [by eapply mapM_searchOne|]. split; [done|].
    intros Hnil. by rewrite Hnil.
Qed.

(** Every warning of a search names the aggregator or one of its
    sources. *)
Lemma Search_warning_sources a query maxR sched s evs ws s' :
  Search a query maxR sched s = Some ((evs, ws), s') ->
  Forall (fun w => Warning.Source w = "search"
                   \/ Warning.Source w ∈ map SearchClient.Name (clients a)) ws.
Proof.
  destruct (decide (clients a = [])) as [Hnil|Hne].
  - rewrite (Search_no_sources a query maxR sched s Hnil).
    intros [= <- <- <-]. constructor; [by left | constructor].
  - intros H.
    destruct (Search_warns_instead_of_failing_aux a query maxR sched s evs ws s' Hne H)
      as (results & Hsrc & ->).
    apply Forall_concat, Forall_fmap, Forall_forall. intros c _.
    destruct c as [k| |]; simpl;
      [|constructor; [by left | constructor]..].
    destruct (results !! k) as [r|] eqn:Ek; [|constructor].
    destruct (SearchResult.Error r); constructor; [|constructor].
    right. simpl. rewrite <- Hsrc. apply list_elem_of_fmap. exists r.
    split; [done|]. by eapply list_elem_of_lookup_2.
Qed.
End AggregatorProperties.

(* ===================================================================== *)
(** ** Further properties of the verifying stage *)
(* ===================================================================== *)

Section StageProperties.
Import search llm database verify.
Context {World : Type} (lib : Lib World).
Implicit Types (e : Engine (World := World)) (s : St World).

(** X5.  Whatever the schedule, the verifying stage returns as many
    claims as it was given, in the same slots: the claim returned at an
    index has the id, text, type and sentence index extraction gave the
    claim at that index. *)
Theorem verifyClaims_keeps_claims_in_place e sch claims s claims' ws s' :
  verifyClaims lib e sch claims s = Some ((claims', ws), s') ->
  Forall2 (fun c c' =>
             Claim.ID c' = Claim.ID c /\ Claim.Text c' = Claim.Text c
             /\ Claim.Type_ c' = Claim.Type_ c
             /\ Claim.SentenceIndex c' = Claim.SentenceIndex c)
          claims claims'.
Proof.
  intros H.
  apply (verifyClaims_each lib (fun c c' => identity c' = identity c)) in H
    as [Hlen Hall].
  - apply Forall2_same_length_lookup_2; [done|].
    intros j c c' Hc Hc'. destruct (Hall j c c' Hc Hc') as [Hin Hout].
    assert (Hid : identity c' = identity c).
    { destruct (decide (j ∈ taskOrder sch (length claims))) as [Hj|Hj];
        [by apply Hin | by rewrite (Hout Hj)]. }
    unfold identity in Hid. by injection Hid as -> -> -> ->.
  - intros cs ws0 idx claim s0 cs' ws0' s0' Hidx Hrun.
    destruct (verifyTask_cases lib _ _ _ _ _ _ _ _ _ _ Hidx Hrun) as (c & -> & Hid & _).
    eauto.
  - intros c0 c1 c2 H1 H2. congruence.
Qed.

(** X6.  Once every goroutine has run, each claim is tagged by what it
    carries: evidence_backed with a non-empty evidence list, or
    model_based with none.  A claim whose search found nothing is
    never judged against evidence. *)
Theorem verifyClaims_tags_follow_evidence e sch claims s claims' ws s' :
  runsEachOnce sch ->
  verifyClaims lib e sch claims s = Some ((claims', ws), s') ->
  Forall (fun c =>
            (Claim.SourceType c = SourceTypeEvidenceBacked /\ Claim.Evidences c <> [])
            \/ (Claim.SourceType c = SourceTypeModelBased /\ Claim.Evidences c = []))
         claims'.
Proof.
  intros Hsch H.
  apply (verifyClaims_each lib (fun _ c =>
           (Claim.SourceType c = SourceTypeEvidenceBacked /\ Claim.Evidences c <> [])
           \/ (Claim.SourceType c = SourceTypeModelBased /\ Claim.Evidences c = [])))
    in H as [Hlen Hall].
  - apply Forall_lookup. intros j c' Hc'.
    destruct (lookup_lt_is_Some_2 claims j) as [c Hc].
    { rewrite <- Hlen. by eapply lookup_lt_Some. }
    apply (Hall j c c' Hc Hc'). rewrite (Hsch (length claims)), elem_of_seq.
    apply lookup_lt_Some in Hc. lia.
  - intros cs ws0 idx claim s0 cs' ws0' s0' Hidx Hrun.
    destruct (verifyTask_cases lib _ _ _ _ _ _ _ _ _ _ Hidx Hrun)
      as (c & -> & _ & Hcase).
    exists c. split; [done|].
    destruct Hcase as [(_ & _ & r & s1 & _ & Hrec)
                      |(_ & evs & found & s1 & r & s2 & _ & _ & Hcase)].
    + destruct Hrec as (_ & _ & _ & -> & ->). by right.
    + destruct Hcase as [(_ & _ & Hrec)|(Hne & _ & Hrec)];
        destruct Hrec as (_ & _ & _ & -> & ->); [by right | by left].
  - intros c0 c1 c2 _ H2. exact H2.
Qed.

(** The verifier gets no usable verdict: every answer of the provider
    is an error or a text that does not decode. *)
Definition neverAnswers (p : Provider World) : Prop :=
  forall system user opts w,
    let r := (CompleteWithSystem p system user opts w).1 in
    r.2 <> None \/ exists err, ClaimVerifier_parseResponse lib r.1 = inr err.

Lemma Verify_unanswered v claim evidences s r s' :
  neverAnswers (v_provider v) -> evidences <> [] ->
  Verify lib v claim evidences s = Some (r, s') ->
  exists err, r = (StatusUnsupported, 0%Q, EmptyString, Some err).
Proof.
  intros Hno Hne. unfold Verify.
  rewrite decide_False by (destruct evidences; done).
  intros H. inv_bind H. apply call_Some in Hrun as [-> _].
  destruct (Hno (verifySystemPrompt lib)
              ("Claim: " +:+ Claim.Text claim +:+ nl +:+ nl +:+ "Evidence found:"
               +:+ evidenceText evidences +:+ nl +:+ nl
               +:+ "Analyze and provide verification result.")
              DefaultCompletionOptions (world s)) as [Herr|[err Hparse]].
  - destruct (_.1.2) as [err|]; [|done]. apply ret_Some in H as [<- _]. eauto.
  - destruct (_.1.2) as [err'|]; [apply ret_Some in H as [<- _]; eauto|].
    rewrite Hparse in H. apply ret_Some in H as [<- _]. eauto.
Qed.

Lemma VerifyWithoutEvidence_unanswered v claim s r s' :
  neverAnswers (v_provider v) ->
  VerifyWithoutEvidence lib v claim s = Some (r, s') ->
  exists err, r = (StatusUnsupported, 0%Q, EmptyString, Some err).
Proof.
  intros Hno. unfold VerifyWithoutEvidence.
  intros H. inv_bind H. apply call_Some in Hrun as [-> _].
  destruct (Hno (knowledgeSystemPrompt lib) ("Claim to verify: " +:+ Claim.Text claim)
              DefaultCompletionOptions (world s)) as [Herr|[err Hparse]].
  - destruct (_.1.2) as [err|]; [|done]. apply ret_Some in H as [<- _]. eauto.
  - destruct (_.1.2) as [err'|]; [apply ret_Some in H as [<- _]; eauto|].
    rewrite Hparse in H. apply ret_Some in H as [<- _]. eauto.
Qed.

(** X7.  A verifier that never gets a usable verdict does not stop the
    stage: once every goroutine has run, each claim is unsupported with
    confidence 0 and one of the two fixed error texts as reasoning. *)
Theorem verifyClaims_degrades_to_unsupported e sch claims s claims' ws s' :
  neverAnswers (v_provider (verifier e)) ->
  runsEachOnce sch ->
  verifyClaims lib e sch claims s = Some ((claims', ws), s') ->
  length claims' = length claims
  /\ Forall (fun c =>
               Claim.Status c = StatusUnsupported
               /\ Claim.Confidence c = 0%Q
               /\ (Claim.Reasoning c = "Verification error"
                   \/ Claim.Reasoning c = "Verification error - no evidence found"))
            claims'.
Proof.
  intros Hno Hsch H.
  apply (verifyClaims_each lib (fun _ c =>
           Claim.Status c = StatusUnsupported /\ Claim.Confidence c = 0%Q
           /\ (Claim.Reasoning c = "Verification error"
               \/ Claim.Reasoning c = "Verification error - no evidence found")))
    in H as [Hlen Hall].
  - split; [done|]. apply Forall_lookup. intros j c' Hc'.
    destruct (lookup_lt_is_Some_2 claims j) as [c Hc].
    { rewrite <- Hlen. by eapply lookup_lt_Some. }
    apply (Hall j c c' Hc Hc'). rewrite (Hsch (length claims)), elem_of_seq.
    apply lookup_lt_Some in Hc. lia.
  - intros cs ws0 idx claim s0 cs' ws0' s0' Hidx Hrun.
    destruct (verifyTask_cases lib _ _ _ _ _ _ _ _ _ _ Hidx Hrun)
      as (c & -> & _ & Hcase).
    exists c. split; [done|].
    destruct Hcase as [(_ & _ & r & s1 & Hv & Hrec)
                      |(_ & evs & found & s1 & r & s2 & _ & _
                        & [(_ & Hv & Hrec)|(Hne & Hv & Hrec)])].
    + apply VerifyWithoutEvidence_unanswered in Hv as [err ->]; [|done].
      destruct Hrec as (-> & -> & -> & _). simpl. auto.
    + apply VerifyWithoutEvidence_unanswered in Hv as [err ->]; [|done].
      destruct Hrec as (-> & -> & -> & _). simpl. auto.
    + apply Verify_unanswered in Hv as [err ->]; [|done..].
      destruct Hrec as (-> & -> & -> & _). simpl. auto.
  - intros c0 c1 c2 _ H2. exact H2.
Qed.
End StageProperties.

Section AirGappedStage.
Import search llm database verify.
Context {World : Type} (lib : Lib World).
Implicit Types (e : Engine (World := World)) (s : St World).

(** The one model call of a knowledge-only verification of a claim
    with the given text. *)
Definition knowledgeCall (text : string) : Event :=
  EvComplete (knowledgeSystemPrompt lib) ("Claim to verify: " +:+ text) 2048.

Lemma VerifyWithoutEvidence_calls_once v claim :
  callsExactly [knowledgeCall (Claim.Text claim)] (VerifyWithoutEvidence lib v claim).
Proof.
  unfold VerifyWithoutEvidence.
  apply (callsExactly_bind [knowledgeCall (Claim.Text claim)] []);
    [apply callsExactly_call|].
  intros r. destruct r.2; [apply callsExactly_ret|].
  destruct (ClaimVerifier_parseResponse lib r.1); apply callsExactly_ret.
Qed.

Lemma VerifyWithoutEvidence_total v claim s :
  is_Some (VerifyWithoutEvidence lib v claim s).
Proof.
  unfold VerifyWithoutEvidence, bind, call.
  destruct (CompleteWithSystem _ _ _ _ _) as [[text err] w]. simpl.
  destruct err; [by eexists|].
  destruct (ClaimVerifier_parseResponse lib text); by eexists.
Qed.

Lemma verifyTask_airGapped_total e sch acc idx s :
  airGapped e = true -> is_Some (verifyTask lib e sch acc idx s).
Proof.
  intros Hag. destruct acc as [claims ws]. unfold verifyTask. rewrite Hag.
  destruct (claims !! idx) as [claim|]; [|by eexists].
  unfold bind at 1.
  destruct (VerifyWithoutEvidence_total (verifier e) claim s) as [[r s1] ->].
  destruct (afterError r "Verification error") as [[status confidence] reasoning].
  unfold bind, finishClaim, bind, ask, ret.
  destruct (time_Now lib (world s1)). by eexists.
Qed.

Lemma texts_insert (claims : list Claim.t) idx claim c :
  claims !! idx = Some claim -> identity c = identity claim ->
  map Claim.Text (<[idx := c]> claims) = map Claim.Text claims.
Proof.
  intros Hidx Hid. change (map Claim.Text) with (fmap (M := list) Claim.Text).
  rewrite list_fmap_insert. apply list_insert_id.
  rewrite list_lookup_fmap, Hidx. simpl. f_equal.
  unfold identity in Hid. by injection Hid.
Qed.

Lemma airGapped_fold e sch order :
  airGapped e = true ->
  forall claims ws s claims' ws' s',
    foldM (verifyTask lib e sch) order (claims, ws) s = Some ((claims', ws'), s') ->
    ws' = ws
    /\ map Claim.Text claims' = map Claim.Text claims
    /\ log s' = log s
                ++ (order ≫= fun idx =>
                      from_option (fun t => [knowledgeCall t]) []
                                  (map Claim.Text claims !! idx)).
Proof.
  intros Hag. induction order as [|idx order IH]; intros claims ws s claims' ws' s'; simpl.
  - intros [[= <- <-] <-]%ret_Some. by rewrite app_nil_r.
  - intros H. inv_bind H. destruct a as [claims1 ws1].
    assert (Hstep : ws1 = ws /\ map Claim.Text claims1 = map Claim.Text claims
              /\ log s0 = log s ++ from_option (fun t => [knowledgeCall t]) []
                                     (map Claim.Text claims !! idx)).
    { destruct (le_lt_dec (length claims) idx) as [Hge|Hlt];
        [apply lookup_ge_None_2 in Hge as Eidx
        |destruct (lookup_lt_is_Some_2 claims idx Hlt) as [claim Eidx]].
      - unfold verifyTask in Hrun. rewrite Eidx in Hrun.
        apply ret_Some in Hrun as [[= <- <-] <-].
        rewrite list_lookup_fmap, Eidx. simpl. by rewrite app_nil_r.
      - rewrite list_lookup_fmap, Eidx. simpl.
        unfold verifyTask in Hrun. rewrite Eidx, Hag in Hrun. inv_bind Hrun.
        rewrite <- (VerifyWithoutEvidence_calls_once _ _ _ _ _ Hrun0).
        apply finish_records in Hrun as (-> & -> & c & -> & Hid & _).
        split; [done|]. split; [by eapply texts_insert | done]. }
    destruct Hstep as (-> & Htexts & Hlog).
    destruct (IH _ _ _ _ _ _ H) as (-> & Ht & Hl).
    split; [done|]. split; [congruence|].
    rewrite Hl, Hlog, Htexts, <- app_assoc. done.
Qed.

Lemma seq_bind_lookup {A B} (g : A -> list B) (pre l : list A) :
  seq (length pre) (length l) ≫= (fun i => from_option g [] ((pre ++ l) !! i))
  = l ≫= g.
Proof.
  revert pre. induction l as [|x l IH]; intros pre; [done|].
  cbn [length seq]. rewrite !bind_cons. f_equal.
  - by rewrite list_lookup_middle.
  - rewrite cons_middle, app_assoc.
    specialize (IH (pre ++ [x])). rewrite length_app in IH. simpl in IH.
    by rewrite Nat.add_1_r in IH.
Qed.

(** X8.  In an air-gapped engine the verifying stage always returns,
    adds no warning, and makes exactly one model call per claim, the
    knowledge-only call for that claim's text, and no other call. *)
Theorem verifyClaims_airGapped_one_call_per_claim e sch claims s :
  airGapped e = true ->
  runsEachOnce sch ->
  exists claims' s' calls,
    verifyClaims lib e sch claims s = Some ((claims', []), s')
    /\ log s' = log s ++ calls
    /\ calls ≡ₚ map (fun c => knowledgeCall (Claim.Text c)) claims.
Proof.
  intros Hag Hsch. unfold verifyClaims.
  assert (Htot : forall order acc s0,
            is_Some (foldM (verifyTask lib e sch) order acc s0)).
  { induction order as [|idx order IH]; intros acc s0; simpl; [by eexists|].
    unfold bind. destruct (verifyTask_airGapped_total e sch acc idx s0 Hag) as [[a s1] ->].
    apply IH. }
  destruct (Htot (taskOrder sch (length claims)) (claims, []) s) as [[[claims' ws] s'] Hrun].
  destruct (airGapped_fold e sch _ Hag _ _ _ _ _ _ Hrun) as (-> & _ & Hlog).
  eexists claims', s', _. split; [exact Hrun|]. split; [exact Hlog|].
  rewrite (Hsch (length claims)).
  pose proof (seq_bind_lookup (fun t => [knowledgeCall t]) [] (map Claim.Text claims)) as E.
  simpl in E. rewrite length_map in E. rewrite E.
  clear. induction claims as [|c claims IH]; [done|].
  cbn [map]. rewrite bind_cons. cbn [app]. by f_equiv.
Qed.

(** X9.  Every warning the verifying stage returns comes from a
    search: it names the aggregator ("search") or one of the engine's
    sources. *)
Theorem verifyClaims_warnings_name_their_source e sch claims s claims' ws s' :
  verifyClaims lib e sch claims s = Some ((claims', ws), s') ->
  Forall (fun w => Warning.Source w = "search"
                   \/ Warning.Source w ∈ map SearchClient.Name (clients (searchClient e)))
         ws.
Proof.
  unfold verifyClaims.
  assert (Hgen : forall order cs ws0 s0 cs' ws' s0',
    Forall (fun w => Warning.Source w = "search"
                     \/ Warning.Source w ∈ map SearchClient.Name (clients (searchClient e)))
           ws0 ->
    foldM (verifyTask lib e sch) order (cs, ws0) s0 = Some ((cs', ws'), s0') ->
    Forall (fun w => Warning.Source w = "search"
                     \/ Warning.Source w ∈ map SearchClient.Name (clients (searchClient e)))
           ws').
  { induction order as [|idx order IH]; intros cs ws0 s0 cs' ws' s0' Hws; simpl.
    - by intros [[= <- <-] _]%ret_Some.
    - intros H. inv_bind H. destruct a as [cs1 ws1]. eapply IH; [|exact H].
      destruct (le_lt_dec (length cs) idx) as [Hge|Hlt];
        [apply lookup_ge_None_2 in Hge as Eidx
        |destruct (lookup_lt_is_Some_2 cs idx Hlt) as [claim Eidx]].
      + unfold verifyTask in Hrun. rewrite Eidx in Hrun.
        by apply ret_Some in Hrun as [[= <- <-] _].
      + destruct (verifyTask_cases lib _ _ _ _ _ _ _ _ _ _ Eidx Hrun)
          as (c & _ & _ & [(_ & -> & _)|(_ & evs & found & sA & r & sB & Hs & -> & _)]);
          [done|].
        apply Forall_app. split; [done|]. by eapply Search_warning_sources. }
  intros H. eapply Hgen; [|exact H]. constructor.
Qed.
End AirGappedStage.

(* ===================================================================== *)
(** ** Air-gapped engines *)
(* ===================================================================== *)

Section AirGappedRuns.
Import search llm database verify.
Context {World : Type} (lib : Lib World).
Implicit Types (e : Engine (World := World)) (s : St World).

Lemma verifyClaims_airGapped_returns e sch claims s :
  airGapped e = true ->
  exists claims' s', verifyClaims lib e sch claims s = Some ((claims', []), s').
Proof.
  intros Hag. unfold verifyClaims.
  assert (Htot : forall order acc s0,
            is_Some (foldM (verifyTask lib e sch) order acc s0)).
  { induction order as [|idx order IH]; intros acc s0; simpl; [by eexists|].
    unfold bind. destruct (verifyTask_airGapped_total lib e sch acc idx s0 Hag)
      as [[a s1] ->].
    apply IH. }
  destruct (Htot (taskOrder sch (length claims)) (claims, []) s)
    as [[[claims' ws] s'] Hrun].
  destruct (airGapped_fold lib e sch _ Hag _ _ _ _ _ _ Hrun) as (-> & _).
  by exists claims', s'.
Qed.

(** C6, as the code has it.  An engine built with no available search
    source is air-gapped.  Its aggregator answers every search with no
    evidence and the single warning "No search sources configured",
    calling nothing.  Its verifying stage always returns, without a
    warning, and tags every claim model_based.  And a run of it that
    finds no analysis under the hash of the text always returns: the
    error of the extraction, or a response without warnings in which
    every claim is tagged model_based. *)
Theorem NewEngine_without_sources_is_model_based
    (duckDuckGo pubMed : SearchClient.t World) cfg provider st :
  let e := NewEngine duckDuckGo pubMed cfg provider st in
  clients (searchClient e) = [] ->
  airGapped e = true
  /\ (forall query maxR sched s,
        Search (searchClient e) query maxR sched s
        = Some (([], [Warning.mk "search" "No search sources configured"]), s))
  /\ (forall sch claims s,
        runsEachOnce sch ->
        exists claims' s',
          verifyClaims lib e sch claims s = Some ((claims', []), s')
          /\ length claims' = length claims
          /\ Forall (fun c => Claim.SourceType c = SourceTypeModelBased) claims')
  /\ (forall sch text s,
        runsEachOnce sch ->
        (cacheLookup lib e text s).1.1 = None ->
        exists r s',
          VerifyText lib e sch text s = Some (r, s')
          /\ match r with
             | inl resp =>
                 Forall (fun c => Claim.SourceType c = SourceTypeModelBased)
                        (VerificationResponse.Claims resp)
                 /\ VerificationResponse.Warnings resp = []
             | inr err =>
                 Extract lib (extractor e) text (afterLookup lib e text s)
                 = Some (inr err, s')
             end).
Proof.
  intros e Hnone.
  assert (Hag : airGapped e = true).
  { change (airGapped e) with (negb (HasClients (searchClient e))).
    unfold HasClients. rewrite Hnone. reflexivity. }
  assert (Hstage : forall sch claims s,
            runsEachOnce sch ->
            exists claims' s',
              verifyClaims lib e sch claims s = Some ((claims', []), s')
              /\ length claims' = length claims
              /\ Forall (fun c => Claim.SourceType c = SourceTypeModelBased) claims').
  { intros sch claims s Hsch.
    destruct (verifyClaims_airGapped_returns e sch claims s Hag) as (claims' & s' & Hvc).
    exists claims', s'. split; [done|].
    apply (verifyClaims_spec lib) in Hvc as (Hlen & Hall & _); [|done].
    split; [done|].
    eapply Forall_impl; [exact Hall|]. intros c (_ & Htag & _). by apply Htag. }
  split; [done|]. split; [|split; [done|]].
  - intros query maxR sched s. by apply Search_no_sources.
  - intros sch text s Hsch Hmiss.
    destruct (Extract_total lib (extractor e) text (afterLookup lib e text s))
      as [[[extracted|err] s1] Hx].
    + destruct (Hstage sch extracted s1 Hsch) as (claims' & s2 & Hvc & _ & Htags).
      destruct (calculateAnalysis_total lib (sha256_hex lib text) claims'
                  ((time_Now lib (world s2)).1 - (time_Now lib (world s)).1)
                  (mkSt (time_Now lib (world s2)).2 (log s2))) as [[a s3] Hca].
      eexists (inl _), _. split.
      * apply (VerifyText_miss_stages lib); [done|].
        exists (inl extracted), s1. split; [done|].
        exists claims', [], s2, a, s3. by repeat split.
      * by split.
    + exists (inr err), s1. split; [|done].
      apply (VerifyText_miss_stages lib); [done|].
      exists (inr err), s1. by split.
Qed.
End AirGappedRuns.

(** C6, witness: neither DuckDuckGo nor PubMed is configured. *)
Lemma NewEngine_without_sources_is_model_based_witness :
  let e := verify.NewEngine
             (Demo.source "DuckDuckGo" ([Demo.ev "http://d/1" "delta"], None))
             (Demo.source "PubMed" ([], Some "PubMed returned status 500"))
             (Demo.cfg false false) (Demo.provider ("E2", None) ("V", None))
             (database.SQLiteStore_asStore
                (Demo.sqlite database.ErrNoRows (database.RowsRead [] None))) in
  search.clients (verify.searchClient e) = []
  /\ (verify.airGapped e = true
      /\ (forall query maxR sched s,
            search.Search (verify.searchClient e) query maxR sched s
            = Some (([], [Warning.mk "search" "No search sources configured"]), s))
      /\ (forall sch claims s,
            verify.runsEachOnce sch ->
            exists claims' s',
              verify.verifyClaims Demo.lib e sch claims s = Some ((claims', []), s')
              /\ length claims' = length claims
              /\ Forall (fun c => Claim.SourceType c = SourceTypeModelBased) claims')
      /\ (forall sch text s,
            verify.runsEachOnce sch ->
            (cacheLookup Demo.lib e text s).1.1 = None ->
            exists r s',
              verify.VerifyText Demo.lib e sch text s = Some (r, s')
              /\ match r with
                 | inl resp =>
                     Forall (fun c => Claim.SourceType c = SourceTypeModelBased)
                            (VerificationResponse.Claims resp)
                     /\ VerificationResponse.Warnings resp = []
                 | inr err =>
                     verify.Extract Demo.lib (verify.extractor e) text
                       (afterLookup Demo.lib e text s)
                     = Some (inr err, s')
                 end)).
Proof.
  intros e. split; [reflexivity|].
  apply (NewEngine_without_sources_is_model_based Demo.lib). reflexivity.
Defined.

(** C6, as stated, fails on a run answered from the cache: the engine
    has no source and is air-gapped, an analysis is stored under the
    hash of the text, and the claim stored with it, tagged
    evidence_backed by the run that made it, is returned as it is. *)
Lemma airGapped_cache_hit_returns_stored_tags :
  let stored :=
    Claim.mk "c1" "Water boils at 100 C" "factual" 0 StatusVerified (9 # 10)
      SourceTypeEvidenceBacked [Demo.ev "http://d/1" "delta"] "fine" 0 in
  let e := Demo.engine false false ("E2", None) ("V", None)
             (database.Scanned Demo.cached) (database.RowsRead [stored] None) in
  search.clients (verify.searchClient e) = []
  /\ verify.airGapped e = true
  /\ exists resp s',
       verify.VerifyText Demo.lib e Demo.inOrder "hello" Demo.s0 = Some (inl resp, s')
       /\ VerificationResponse.Claims resp = [stored]
       /\ ~ Forall (fun c => Claim.SourceType c = SourceTypeModelBased)
                   (VerificationResponse.Claims resp).
Proof.
  intros stored e. split; [reflexivity|]. split; [reflexivity|].
  eexists _, _. split; [vm_compute; reflexivity|]. split; [reflexivity|].
  simpl. intros H. apply Forall_cons in H as [H _]. discriminate.
Qed.

(* ===================================================================== *)
(** ** Further properties: scoring, knowledge-only verdicts, extraction *)
(* ===================================================================== *)

Section MoreVerifyProperties.
Import search llm database verify.
Context {World : Type} (lib : Lib World).
Implicit Types (e : Engine (World := World)) (s : St World).

Definition unresolvedCount (claims : list Claim.t) : Z :=
  Z.of_nat (length (filter (fun c => ~ resolved (Claim.Status c)) claims)).

Lemma counts_with_unresolved claims :
  countOf StatusVerified claims + countOf StatusMixed claims
  + countOf StatusUnsupported claims + unresolvedCount claims
  = Z.of_nat (length claims).
Proof.
  unfold unresolvedCount. induction claims as [|c claims IH]; [reflexivity|].
  rewrite !countOf_cons, filter_cons. simpl length.
  unfold resolved, StatusVerified, StatusMixed, StatusUnsupported in *.
  repeat case_decide; simpl length; try lia; try congruence; exfalso; tauto.
Qed.

(** X10.  [calculateAnalysis] always returns, whatever the statuses of
    the claims.  Its total is the number of claims; a claim whose
    status is none of verified, mixed and unsupported (a pending one)
    is counted in the total and in none of the three counters, so the
    counters add up to the total less those claims; and the score is
    between 0 and 10 all the same. *)
Theorem calculateAnalysis_counts_resolved_claims_only docHash claims duration s :
  exists a s',
    calculateAnalysis lib docHash claims duration s = Some (a, s')
    /\ AnalysisResult.TotalClaims a = Z.of_nat (length claims)
    /\ AnalysisResult.VerifiedClaims a + AnalysisResult.MixedClaims a
       + AnalysisResult.UnsupportedClaims a
       = AnalysisResult.TotalClaims a - unresolvedCount claims
    /\ 0 <= unresolvedCount claims
    /\ (0 <= AnalysisResult.OverallScore a /\ AnalysisResult.OverallScore a <= 10)%Q
    /\ AnalysisResult.Status a = "completed"
    /\ AnalysisResult.DocumentHash a = docHash.
Proof.
  unfold calculateAnalysis. rewrite countStatuses_spec.
  unfold bind, ask, ret.
  destruct (uuid_New lib (world s)) as [id w1]. simpl.
  destruct (time_Now lib w1) as [now w2]. simpl.
  eexists _, _. split; [reflexivity|]. simpl.
  pose proof (counts_with_unresolved claims) as Hsum.
  pose proof (countOf_range StatusVerified claims).
  pose proof (countOf_range StatusMixed claims).
  pose proof (countOf_range StatusUnsupported claims).
  assert (0 <= unresolvedCount claims) by (unfold unresolvedCount; lia).
  split; [done|]. split; [lia|]. split; [done|]. split; [|done].
  apply overallScore_range; lia.
Qed.

Definition disclaimer : string :=
  " [Note: Verified using model knowledge only, without external evidence sources]".

(** X11.  A knowledge-only verification makes one model call, for the
    claim's text, and its result follows the answer.  If the provider
    fails, it is unsupported with confidence 0, no reasoning and the
    error "verification failed: " with the provider's.  If the answer
    does not decode, the same with "failed to parse verification
    response: " and the decoder's error.  Otherwise there is no error,
    the status is the decoded one if that is verified, mixed or
    unsupported and unsupported if it is anything else, the confidence
    is the decoded one, and the reasoning is the decoded one followed
    by the note that no external evidence was used. *)
Theorem VerifyWithoutEvidence_outcomes v claim s :
  let answer :=
    CompleteWithSystem (v_provider v) (knowledgeSystemPrompt lib)
      ("Claim to verify: " +:+ Claim.Text claim) DefaultCompletionOptions (world s) in
  exists r,
    VerifyWithoutEvidence lib v claim s
    = Some (r, mkSt answer.2 (log s ++ [knowledgeCall lib (Claim.Text claim)]))
    /\ match answer.1.2 with
       | Some cause =>
           r = (StatusUnsupported, 0%Q, EmptyString,
                Some ("verification failed: " +:+ cause))
       | None =>
           match ClaimVerifier_parseResponse lib answer.1.1 with
           | inr cause =>
               r = (StatusUnsupported, 0%Q, EmptyString,
                    Some ("failed to parse verification response: " +:+ cause))
           | inl result =>
               r.2 = None
               /\ (resolved (vr_Status result) -> r.1.1.1 = vr_Status result)
               /\ (~ resolved (vr_Status result) -> r.1.1.1 = StatusUnsupported)
               /\ r.1.1.2 = vr_Confidence result
               /\ r.1.2 = vr_Reasoning result +:+ disclaimer
           end
       end.
Proof.
  cbv zeta. unfold VerifyWithoutEvidence, bind, call, knowledgeCall.
  destruct (CompleteWithSystem _ _ _ _ _) as [[text err] w]. simpl.
  destruct err as [cause|]; [by eexists|].
  destruct (ClaimVerifier_parseResponse lib text) as [result|cause]; [|by eexists].
  eexists. split; [reflexivity|]. simpl. split; [done|].
  unfold statusOf, resolved, StatusVerified, StatusMixed, StatusUnsupported.
  split; [|split; [|done]].
  - intros [E|[E|E]]; rewrite E; reflexivity.
  - intros Hn. repeat case_decide; try done; exfalso; apply Hn; auto.
Qed.

(** What [Extract] makes of one entry of the decoded response. *)
Definition freshClaim (c : Claim.t) (ec : extractedClaim) : Prop :=
  Claim.Text c = ec_Text ec /\ Claim.Type_ c = ec_Type ec
  /\ Claim.SentenceIndex c = ec_SentenceIndex ec
  /\ Claim.Status c = StatusPending /\ Claim.Evidences c = []
  /\ Claim.Confidence c = 0%Q /\ Claim.SourceType c = EmptyString
  /\ Claim.Reasoning c = EmptyString.

Lemma mapM_claimOf_fresh (ecs : list extractedClaim) s claims s' :
  mapM (claimOf lib) ecs s = Some (claims, s') -> Forall2 freshClaim claims ecs.
Proof.
  revert s claims s'. induction ecs as [|ec ecs IH]; intros s claims s'; simpl.
  - intros [<- _]%ret_Some. constructor.
  - intros H. inv_bind H. inv_bind H. apply ret_Some in H as [<- _].
    unfold claimOf in Hrun. inv_bind Hrun. apply ret_Some in Hrun as [<- _].
    constructor; [by repeat split | by eapply IH].
Qed.

(** X12.  A successful extraction made one model call, with a budget
    of 4096 tokens, and returns one claim per entry of the decoded
    answer, in the order of the answer: each with the entry's text,
    type and sentence index, pending, without evidence, confidence,
    source type or reasoning. *)
Theorem Extract_returns_pending_claims x text s claims s' :
  Extract lib x text s = Some (inl claims, s') ->
  let answer :=
    (CompleteWithSystem (x_provider x) (extractionSystemPrompt lib (customClaimTypes x))
       ("Text to analyze:" +:+ nl +:+ nl +:+ text)
       (mkOptions 4096 0%Q EmptyString) (world s)).1 in
  answer.2 = None
  /\ (exists result,
        decodeExtraction lib answer.1 = inl result
        /\ Forall2 freshClaim claims (er_Claims result))
  /\ log s' = log s ++ [extractionCall lib x text].
Proof.
  intros H. cbv zeta.
  pose proof (Extract_calls_once lib x text _ _ _ H) as Hlog.
  unfold Extract in H. inv_bind H. apply call_Some in Hrun as [-> ->].
  simpl in *.
  destruct (_.1.2) as [err|] eqn:Eerr; [by apply ret_Some in H as [[=] _]|].
  inv_bind H. destruct a as [cs|err]; apply ret_Some in H as [[= <-] <-].
  split; [done|]. split; [|done].
  unfold ClaimExtractor_parseResponse in Hrun.
  destruct (decodeExtraction lib _) as [result|err] eqn:Edec;
    [|by apply ret_Some in Hrun as [[=] _]].
  inv_bind Hrun. apply ret_Some in Hrun as [[= <-] _].
  exists result. split; [done|]. by eapply mapM_claimOf_fresh.
Qed.

(** X13.  An engine is air-gapped exactly when neither search source
    is both switched on in the configuration and available; its
    sources are the switched-on available ones, DuckDuckGo first.  The
    Wikipedia switch plays no part. *)
Theorem NewEngine_airGapped_iff (duckDuckGo pubMed : SearchClient.t World)
    cfg provider st :
  let e := NewEngine duckDuckGo pubMed cfg provider st in
  let ddg := cfg_DuckDuckGo (cfg_Search cfg) && SearchClient.Available duckDuckGo in
  let pm := cfg_PubMed (cfg_Search cfg) && SearchClient.Available pubMed in
  airGapped e = negb (ddg || pm)
  /\ clients (searchClient e)
     = (if ddg then [duckDuckGo] else []) ++ (if pm then [pubMed] else []).
Proof.
  cbv zeta. unfold NewEngine, NewAggregatedSearchClient, HasClients. simpl.
  rewrite filter_app.
  assert (Hone : forall (on : bool) (c : SearchClient.t World),
            filter (fun c => SearchClient.Available c = true) (if on then [c] else [])
            = if on && SearchClient.Available c then [c] else []).
  { intros on c. destruct on; [|done]. simpl.
    rewrite filter_cons. case_decide as Hc.
    - by rewrite Hc.
    - apply not_true_is_false in Hc. by rewrite Hc. }
  rewrite !Hone. split; [|done].
  destruct (_ && _), (_ && _); reflexivity.
Qed.
End MoreVerifyProperties.

(* ===================================================================== *)
(** ** Further properties of the DuckDuckGo source *)
(* ===================================================================== *)

Section MoreDuckDuckGoProperties.
Import search.
Context {World : Type}.

Definition urls (evs : list Evidence.t) : list string := map Evidence.SourceURL evs.

Lemma dedupLoop_extends evidences (seen : gmap string bool) unique maxResults :
  exists kept,
    dedupLoop evidences seen unique maxResults = unique ++ kept
    /\ kept `sublist_of` evidences.
Proof.
  revert seen unique. induction evidences as [|e rest IH]; intros seen unique; simpl.
  - exists []. by rewrite app_nil_r.
  - destruct (negb _ && negb _).
    + destruct (maxResults <=? _).
      * exists [e]. split; [done|]. apply sublist_skip, sublist_nil_l.
      * destruct (IH (<[Evidence.SourceURL e := true]> seen) (unique ++ [e]))
          as (kept & -> & Hsub).
        exists (e :: kept). split; [by rewrite <- app_assoc | by apply sublist_skip].
    + destruct (IH seen unique) as (kept & -> & Hsub).
      exists kept. split; [done | by apply sublist_cons].
Qed.

Lemma dedupLoop_capped evidences (seen : gmap string bool) unique maxResults :
  Z.of_nat (length unique) < Z.max 1 maxResults ->
  Z.of_nat (length (dedupLoop evidences seen unique maxResults)) <= Z.max 1 maxResults.
Proof.
  revert seen unique. induction evidences as [|e rest IH]; intros seen unique Hlt; simpl.
  - lia.
  - destruct (negb _ && negb _); [|by apply IH].
    destruct (Z.leb_spec maxResults (Z.of_nat (length (unique ++ [e])))) as [Hle|Hgt].
    + rewrite length_app in *. simpl in *. lia.
    + apply IH. lia.
Qed.

Lemma dedupLoop_complete evidences (seen : gmap string bool) unique maxResults :
  (forall url, default false (seen !! url) = true <-> url ∈ urls unique) ->
  Z.of_nat (length (dedupLoop evidences seen unique maxResults)) < maxResults ->
  forall e, e ∈ evidences -> Evidence.Snippet e <> EmptyString ->
            Evidence.SourceURL e ∈ urls (dedupLoop evidences seen unique maxResults).
Proof.
  revert seen unique. induction evidences as [|e rest IH]; intros seen unique Hseen;
    simpl; [by intros _ x ?%elem_of_nil|].
  destruct (default false (seen !! Evidence.SourceURL e)) eqn:Es; simpl.
  - intros Hlen x Hx Hsn. apply elem_of_cons in Hx as [->|Hx]; [|by apply IH].
    apply Hseen in Es.
    destruct (dedupLoop_extends rest seen unique maxResults) as (kept & -> & _).
    unfold urls. rewrite map_app, elem_of_app. by left.
  - destruct (String.eqb (Evidence.Snippet e) EmptyString) eqn:Eq; simpl.
    + apply String.eqb_eq in Eq. intros Hlen x Hx Hsn.
      apply elem_of_cons in Hx as [->|Hx]; [done | by apply IH].
    + destruct (Z.leb_spec maxResults (Z.of_nat (length (unique ++ [e])))) as [Hle|Hgt];
        [lia|].
      assert (Hseen' : forall url,
                default false (<[Evidence.SourceURL e := true]> seen !! url) = true
                <-> url ∈ urls (unique ++ [e])).
      { intros url. unfold urls. rewrite map_app, elem_of_app. simpl.
        rewrite list_elem_of_singleton. fold (urls unique). rewrite <- Hseen.
        destruct (decide (url = Evidence.SourceURL e)) as [->|Hneq].
        - rewrite lookup_insert_eq. simpl. split; [by right | done].
        - rewrite lookup_insert_ne by done. split; [by left | by intros [?|?]]. }
      intros Hlen x Hx Hsn. apply elem_of_cons in Hx as [->|Hx]; [|by apply IH].
      destruct (dedupLoop_extends rest (<[Evidence.SourceURL e := true]> seen)
                  (unique ++ [e]) maxResults) as (kept & -> & _).
      unfold urls. rewrite !map_app, !elem_of_app. left. right. simpl. by left.
Qed.

(** X14.  Whatever its two searches return, the list the DuckDuckGo
    source returns has no repeated URL, no empty snippet, and at most
    [maxResults] entries (one when [maxResults] is below one). *)
Theorem DuckDuckGo_Search_result (c : DuckDuckGoClient World) query maxResults
    (w : World) :
  let evs := (DuckDuckGo_Search c query maxResults w).1.1 in
  NoDup (urls evs)
  /\ Forall (fun e => Evidence.Snippet e <> EmptyString) evs
  /\ Z.of_nat (length evs) <= Z.max 1 maxResults.
Proof.
  cbv zeta. unfold DuckDuckGo_Search.
  destruct (retryTwice _ w) as [[ev1 err1] w1].
  destruct (retryTwice _ w1) as [[ev2 err2] w2].
  assert (Hu : uniqueAndNonEmpty (dedupLoop (ev1 ++ ev2) ∅ [] maxResults)).
  { apply dedupLoop_unique.
    - intros url. rewrite lookup_empty. simpl. split; [done | by intros ?%elem_of_nil].
    - split; [apply NoDup_nil_2 | apply Forall_nil_2]. }
  assert (Hc : Z.of_nat (length (dedupLoop (ev1 ++ ev2) ∅ [] maxResults))
               <= Z.max 1 maxResults) by (apply dedupLoop_capped; simpl; lia).
  destruct Hu as [Hnd Hne].
  destruct (dedupLoop _ _ _ _) as [|e l].
  - destruct err2, err1; simpl; (split; [constructor|]; split; [constructor | lia]).
  - destruct err2, err1; simpl; done.
Qed.

(** X15.  The deduplication loop of the DuckDuckGo source keeps a
    sub-sequence of what the two searches returned, at most
    [maxResults] long (one when [maxResults] is below one); and unless
    it stopped at that bound, the page of every evidence with a
    non-empty snippet is among the pages it kept. *)
Theorem dedupLoop_keeps_a_covering_sublist evidences maxResults :
  let kept := dedupLoop evidences ∅ [] maxResults in
  kept `sublist_of` evidences
  /\ Z.of_nat (length kept) <= Z.max 1 maxResults
  /\ (Z.of_nat (length kept) < maxResults ->
      forall e, e ∈ evidences -> Evidence.Snippet e <> EmptyString ->
                Evidence.SourceURL e ∈ urls kept).
Proof.
  cbv zeta. split; [|split].
  - destruct (dedupLoop_extends evidences ∅ [] maxResults) as (kept & -> & Hsub). done.
  - apply dedupLoop_capped. simpl. lia.
  - apply dedupLoop_complete. intros url. rewrite lookup_empty. simpl.
    split; [done | by intros ?%elem_of_nil].
Qed.

(** X16.  The DuckDuckGo source reports an error exactly when it has
    no evidence to return and the first attempt of one of its two
    searches failed, even if the retry of that search succeeded; it
    never returns evidence together with an error. *)
Theorem DuckDuckGo_Search_error_iff (c : DuckDuckGoClient World) query maxResults
    (w : World) :
  let keywords := extractKeywords c query in
  let instant := searchInstantAnswer c keywords maxResults in
  let html := searchHTMLWithContent c keywords maxResults in
  let r := DuckDuckGo_Search c query maxResults w in
  (r.1.2 <> None <->
   r.1.1 = []
   /\ ((instant w).1.2 <> None \/ (html (retryTwice instant w).2).1.2 <> None))
  /\ (r.1.1 <> [] -> r.1.2 = None).
Proof.
  cbv zeta. unfold DuckDuckGo_Search.
  assert (Hretry : forall f (w0 : World),
            (retryTwice f w0).1.2 <> None <-> (f w0).1.2 <> None).
  { intros f w0. unfold retryTwice.
    destruct (f w0) as [[evs [err0|]] w1]; simpl; [|done].
    destruct (f w1) as [[evs1 [err1|]] w2]; simpl; done. }
  pose proof (Hretry (searchInstantAnswer c (extractKeywords c query) maxResults) w) as H1.
  destruct (retryTwice (searchInstantAnswer c (extractKeywords c query) maxResults) w)
    as [[ev1 err1] w1]. simpl in *.
  pose proof (Hretry (searchHTMLWithContent c (extractKeywords c query) maxResults) w1)
    as H2.
  destruct (retryTwice (searchHTMLWithContent c (extractKeywords c query) maxResults) w1)
    as [[ev2 err2] w2]. simpl in *.
  rewrite <- H1, <- H2.
  destruct (dedupLoop (ev1 ++ ev2) ∅ [] maxResults) as [|e l];
    destruct err2 as [e2|], err1 as [e1|]; simpl; split; try done;
    split; try done; try (intros [_ [?|?]]; done); try (intros _; split; [done|]; auto);
    try (by intros [? _]).
Qed.
End MoreDuckDuckGoProperties.

(* ===================================================================== *)
(** ** Properties of the PubMed source and of the instant answers *)
(* ===================================================================== *)

Lemma append_nonempty (s t : string) : s <> EmptyString -> s +:+ t <> EmptyString.
Proof. by destruct s. Qed.

Lemma append_slash_inj (s t : string) : s +:+ "/" = t +:+ "/" -> s = t.
Proof.
  revert t. induction s as [|a s IH]; intros [|b t]; simpl; intros H.
  - done.
  - injection H as _ H. by destruct t.
  - injection H as _ H. by destruct s.
  - injection H as -> H. f_equal. by apply IH.
Qed.

Lemma NoDup_List_filter {A} (f : A -> bool) (l : list A) :
  NoDup l -> NoDup (List.filter f l).
Proof.
  induction 1 as [|x l Hx Hnd IH]; simpl; [constructor|].
  destruct (f x); [|done]. constructor; [|done].
  intros Hin. apply Hx. apply list_elem_of_In in Hin.
  apply List.filter_In in Hin as [Hin _]. by apply list_elem_of_In.
Qed.

Section PubMedProperties.
Import sources.
Context {World : Type}.
Implicit Types (c : PubMedClient World) (w : World).

(** The summary has an article with a title for the id. *)
Definition titled (result : gmap string article) (pmid : string) : bool :=
  match result !! pmid with
  | Some a => negb (String.eqb (Title a) EmptyString)
  | None => false
  end.

Definition pubmedEvidence (now : Time) (e : Evidence.t) : Prop :=
  Evidence.SourceName e = "PubMed" /\ Evidence.SourceType e = "academic"
  /\ Evidence.Snippet e <> EmptyString /\ Evidence.RetrievedAt e = now.

Lemma articleURL_inj : Inj (=) (=) articleURL.
Proof.
  intros a b H. unfold articleURL in H. simpl in H.
  injection H as H. by apply append_slash_inj.
Qed.

Lemma snippetOf_nonempty a : Title a <> EmptyString -> snippetOf a <> EmptyString.
Proof.
  intros Ht. unfold snippetOf. destruct (String.eqb _ _); [done|].
  by apply append_nonempty.
Qed.

Lemma buildEvidences_spec c result now ids w :
  let evs := (buildEvidences c result now ids w).1 in
  Forall (pubmedEvidence now) evs
  /\ map Evidence.SourceURL evs = map articleURL (List.filter (titled result) ids).
Proof.
  cbv zeta. revert w. induction ids as [|pmid rest IH]; intros w; simpl.
  - split; constructor.
  - unfold titled at 1. destruct (result !! pmid) as [a|] eqn:Ea; [|apply IH].
    destruct (String.eqb (Title a) EmptyString) eqn:Et; simpl; [apply IH|].
    destruct (net_uuid_New (pm_net c) w) as [id w1].
    specialize (IH w1). destruct (buildEvidences c result now rest w1) as [evs w2].
    simpl in *. destruct IH as [IH1 IH2]. split; [|by rewrite IH2].
    constructor; [|done]. repeat split; simpl.
    apply snippetOf_nonempty. by apply String.eqb_neq.
Qed.

(** X17.  Whatever the network and the decoders do, every piece of
    evidence PubMed returns is named PubMed, is of type academic, has
    a non-empty snippet and the URL of a PubMed article, and all carry
    one retrieval time; evidence is never returned together with an
    error. *)
Theorem PubMed_Search_evidence c query maxResults w :
  let r := (PubMed_Search c query maxResults w).1 in
  (exists now,
      Forall (fun e => pubmedEvidence now e
                       /\ exists pmid, Evidence.SourceURL e = articleURL pmid) r.1)
  /\ (r.2 <> None -> r.1 = []).
Proof.
  cbv zeta. unfold PubMed_Search.
  assert (Hnil : forall (err : option error) (w' : World),
            (exists now : Time,
                Forall (fun e => pubmedEvidence now e
                                 /\ exists pmid, Evidence.SourceURL e = articleURL pmid)
                  ((@nil Evidence.t, err), w').1.1)
            /\ (((@nil Evidence.t, err), w').1.2 <> None
                -> ((@nil Evidence.t, err), w').1.1 = [])).
  { intros err w'. split; [exists 0; constructor | done]. }
  destruct (http_NewRequest _ _); [apply Hnil|].
  destruct (httpClient_Do _ _ w) as [[resp|err] w1]; [|apply Hnil].
  destruct (negb _); [apply Hnil|].
  destruct (pm_decodeSearch c _) as [found|err]; [|apply Hnil].
  case_decide; [apply Hnil|].
  destruct (http_NewRequest _ _); [apply Hnil|].
  destruct (httpClient_Do _ _ w1) as [[resp2|err] w2]; [|apply Hnil].
  destruct (pm_decodeSummary c _) as [summary|err]; [|apply Hnil].
  destruct (net_time_Now _ w2) as [now w3].
  pose proof (buildEvidences_spec c (Result summary) now (IDList found) w3) as [H1 H2].
  destruct (buildEvidences _ _ _ _ w3) as [evs w4]. simpl in *.
  split; [|by intros []]. exists now.
  apply Forall_lookup. intros i e Hi. split.
  - by eapply (proj1 (Forall_lookup _ _) H1).
  - assert (Hu : map Evidence.SourceURL evs !! i = Some (Evidence.SourceURL e))
      by (by rewrite list_lookup_fmap, Hi).
    rewrite H2 in Hu. apply list_lookup_fmap_Some in Hu as (pmid & Hp & _).
    by exists pmid.
Qed.

(** X18.  When both requests are answered and both answers decode,
    PubMed returns, without an error, one piece of evidence for each id
    of the search answer that the summary knows with a title, in the
    order of the ids, whatever the status code of the summary answer;
    distinct ids give distinct URLs. *)
Theorem PubMed_Search_follows_id_list c query maxResults w resp w1 found resp2 w2 summary :
  http_NewRequest (pm_net c) (searchURL c query maxResults) = None ->
  httpClient_Do (pm_net c) (searchURL c query maxResults) w = (inl resp, w1) ->
  StatusCode resp = 200 ->
  pm_decodeSearch c (Body resp) = inl found ->
  http_NewRequest (pm_net c) (summaryURL (IDList found)) = None ->
  httpClient_Do (pm_net c) (summaryURL (IDList found)) w1 = (inl resp2, w2) ->
  pm_decodeSummary c (Body resp2) = inl summary ->
  let r := (PubMed_Search c query maxResults w).1 in
  r.2 = None
  /\ map Evidence.SourceURL r.1
     = map articleURL (List.filter (titled (Result summary)) (IDList found))
  /\ (NoDup (IDList found) -> NoDup (map Evidence.SourceURL r.1)).
Proof.
  intros Hreq Hdo Hok Hdec Hreq2 Hdo2 Hdec2. cbv zeta. unfold PubMed_Search.
  rewrite Hreq, Hdo, Hok, Hdec. simpl. case_decide as Hlen.
  - apply nil_length_inv in Hlen. rewrite Hlen. simpl.
    split; [done|]. split; [done|]. intros _. constructor.
  - rewrite Hreq2, Hdo2, Hdec2.
    destruct (net_time_Now _ w2) as [now w3].
    pose proof (buildEvidences_spec c (Result summary) now (IDList found) w3) as [_ H2].
    destruct (buildEvidences _ _ _ _ w3) as [evs w4]. simpl in *.
    split; [done|]. split; [done|]. intros Hnd. rewrite H2.
    apply (NoDup_fmap_2 articleURL (Inj0 := articleURL_inj)). by apply NoDup_List_filter.
Qed.

(** X19.  A search that finds no id returns neither evidence nor an
    error, in the world the first request left: the summary is not
    asked for. *)
Theorem PubMed_Search_no_ids c query maxResults w resp w1 found :
  http_NewRequest (pm_net c) (searchURL c query maxResults) = None ->
  httpClient_Do (pm_net c) (searchURL c query maxResults) w = (inl resp, w1) ->
  StatusCode resp = 200 ->
  pm_decodeSearch c (Body resp) = inl found ->
  IDList found = [] ->
  PubMed_Search c query maxResults w = (([], None), w1).
Proof.
  intros Hreq Hdo Hok Hdec Hnil. unfold PubMed_Search.
  rewrite Hreq, Hdo, Hok, Hdec, Hnil. reflexivity.
Qed.
End PubMedProperties.

Section InstantAnswerProperties.
Import sources.
Context {World : Type}.
Implicit Types (c : InstantAnswerClient World) (w : World).

Definition instantEvidence (now : Time) (e : Evidence.t) : Prop :=
  Evidence.SourceName e = "DuckDuckGo" /\ Evidence.SourceType e = "search_engine"
  /\ Evidence.Snippet e <> EmptyString /\ Evidence.RetrievedAt e = now.

Lemma topicEvidences_spec c now maxResults topics evidences w :
  let evs := (topicEvidences c now maxResults topics evidences w).1 in
  (Forall (instantEvidence now) evidences -> Forall (instantEvidence now) evs)
  /\ Z.of_nat (length evs) <= Z.max (Z.of_nat (length evidences)) maxResults
  /\ (exists added,
         evs = evidences ++ added
         /\ map Evidence.Snippet added `sublist_of` map Text topics).
Proof.
  cbv zeta. revert evidences w.
  induction topics as [|topic rest IH]; intros evidences w; simpl.
  - split; [done|]. split; [lia|]. exists []. by rewrite app_nil_r.
  - destruct (maxResults <=? _) eqn:Ecap; simpl.
    { split; [done|]. split; [lia|]. exists []. rewrite app_nil_r.
      split; [done|]. apply sublist_nil_l. }
    apply Z.leb_gt in Ecap.
    destruct (String.eqb (Text topic) EmptyString) eqn:Et; simpl.
    + destruct (IH evidences w) as (H1 & H2 & added & H3 & H4).
      split; [done|]. split; [done|]. exists added. split; [done|].
      by apply sublist_cons.
    + destruct (net_uuid_New (ia_net c) w) as [id w1].
      destruct (IH (evidences ++ [Evidence.mk id "DuckDuckGo" (FirstURL topic)
                                    "search_engine" (Text topic) 0%Q now]) w1)
        as (H1 & H2 & added & H3 & H4).
      split.
      * intros Hall. apply H1. apply Forall_app. split; [done|].
        constructor; [|constructor]. repeat split; simpl.
        by apply String.eqb_neq.
      * split.
        -- rewrite length_app in H2. simpl in H2. lia.
        -- eexists (_ :: added). split.
           ++ rewrite H3, <- app_assoc. reflexivity.
           ++ simpl. by apply sublist_skip.
Qed.

(** X20.  Whatever the network and the decoder do, the instant-answer
    search returns at most [maxResults] pieces of evidence, or one when
    the answer has an abstract and [maxResults] is below 1; each is
    named DuckDuckGo, of type search_engine and has a non-empty
    snippet; and evidence is never returned together with an error. *)
Theorem searchInstantAnswer_evidence c query maxResults w :
  let r := (searchInstantAnswer_impl c query maxResults w).1 in
  (exists now, Forall (instantEvidence now) r.1)
  /\ Z.of_nat (length r.1) <= Z.max 1 maxResults
  /\ (r.2 <> None -> r.1 = []).
Proof.
  cbv zeta. unfold searchInstantAnswer_impl.
  assert (Hnil : forall (err : option error) (w' : World),
            (exists now : Time, Forall (instantEvidence now) ((@nil Evidence.t, err), w').1.1)
            /\ Z.of_nat (length ((@nil Evidence.t, err), w').1.1) <= Z.max 1 maxResults
            /\ (((@nil Evidence.t, err), w').1.2 <> None
                -> ((@nil Evidence.t, err), w').1.1 = [])).
  { intros err w'. split; [exists 0; constructor|]. simpl. split; [lia | done]. }
  destruct (http_NewRequest _ _); [apply Hnil|].
  destruct (httpClient_Do _ _ w) as [[resp|err] w1]; [|apply Hnil].
  destruct (negb (StatusCode resp =? 200)); [apply Hnil|].
  destruct (ia_decode c _) as [data|err]; [|apply Hnil].
  destruct (net_time_Now _ w1) as [now w2].
  destruct (String.eqb (Abstract data) EmptyString) eqn:Ea; simpl.
  - pose proof (topicEvidences_spec c now maxResults (RelatedTopics data) [] w2)
      as (H1 & H2 & _).
    destruct (topicEvidences _ _ _ _ _ w2) as [evs w4]. simpl in *.
    split; [exists now; apply H1; constructor|]. split; [lia | done].
  - destruct (net_uuid_New _ w2) as [id w3].
    pose proof (topicEvidences_spec c now maxResults (RelatedTopics data)
                  [Evidence.mk id "DuckDuckGo" (AbstractURL data) "search_engine"
                     (Abstract data) 0%Q now] w3) as (H1 & H2 & _).
    destruct (topicEvidences _ _ _ _ _ w3) as [evs w4]. simpl in *.
    split; [|split; [lia | done]]. exists now. apply H1.
    constructor; [|constructor]. repeat split; simpl. by apply String.eqb_neq.
Qed.
End InstantAnswerProperties.

(* ===================================================================== *)
(** ** Properties of the configuration and of the provider it selects *)
(* ===================================================================== *)

Section ConfigProperties.
Import config providers.

Definition knownProviders : list string :=
  ["openai"; "azure"; "anthropic"; "gemini"; "ollama"].

Definition keyedProviders : list string := ["openai"; "anthropic"; "gemini"].

Lemma validProviders_spec (p : string) :
  default false (validProviders !! p) = true <-> p ∈ knownProviders.
Proof.
  unfold validProviders, knownProviders.
  destruct (decide (p = "openai")) as [->|?];
    [split; [intros _; apply list_elem_of_In; simpl; auto 10 | reflexivity]
    |rewrite lookup_insert_ne by done].
  destruct (decide (p = "azure")) as [->|?];
    [split; [intros _; apply list_elem_of_In; simpl; auto 10 | reflexivity]
    |rewrite lookup_insert_ne by done].
  destruct (decide (p = "anthropic")) as [->|?];
    [split; [intros _; apply list_elem_of_In; simpl; auto 10 | reflexivity]
    |rewrite lookup_insert_ne by done].
  destruct (decide (p = "gemini")) as [->|?];
    [split; [intros _; apply list_elem_of_In; simpl; auto 10 | reflexivity]
    |rewrite lookup_insert_ne by done].
  destruct (decide (p = "ollama")) as [->|?];
    [split; [intros _; apply list_elem_of_In; simpl; auto 10 | reflexivity]
    |rewrite lookup_insert_ne by done].
  rewrite lookup_empty. simpl. split; [done|].
  intros Hin. apply list_elem_of_In in Hin. simpl in Hin. intuition congruence.
Qed.

Lemma Validate_None (c : Config) :
  Validate c = None
  <-> (1 <= Port (Server c) <= 65535)
      /\ (Driver (Database c) = "sqlite" \/ Driver (Database c) = "postgres")
      /\ Provider (LLM c) ∈ knownProviders
      /\ (Provider (LLM c) ∈ keyedProviders -> APIKey (LLM c) <> EmptyString).
Proof.
  unfold Validate, keyedProviders.
  destruct (Z.ltb_spec (Port (Server c)) 1); simpl;
    [split; [done | intros (? & _); lia]|].
  destruct (Z.ltb_spec 65535 (Port (Server c))); simpl;
    [split; [done | intros (? & _); lia]|].
  assert (Hdrv : negb (String.eqb (Driver (Database c)) "sqlite")
                 && negb (String.eqb (Driver (Database c)) "postgres") = false
                 <-> Driver (Database c) = "sqlite" \/ Driver (Database c) = "postgres").
  { destruct (String.eqb_spec (Driver (Database c)) "sqlite");
      destruct (String.eqb_spec (Driver (Database c)) "postgres"); simpl;
      intuition congruence. }
  destruct (negb _ && negb _);
    [split; [done | intros (_ & Hd & _); apply Hdrv in Hd; done]|].
  pose proof (validProviders_spec (Provider (LLM c))) as Hv.
  destruct (default false _); simpl;
    [|split; [done | intros (_ & _ & Hin & _); apply Hv in Hin; done]].
  assert (Hin : Provider (LLM c) ∈ knownProviders) by (by apply Hv).
  assert (Hd : Driver (Database c) = "sqlite" \/ Driver (Database c) = "postgres")
    by (by apply Hdrv).
  destruct (String.eqb_spec (Provider (LLM c)) "openai") as [E1|E1].
  { destruct (String.eqb _ _) eqn:Ek.
    - split; [done|]. intros (_ & _ & _ & Hneed). apply String.eqb_eq in Ek.
      destruct Hneed; [rewrite E1; apply list_elem_of_In; simpl; auto | done].
    - apply String.eqb_neq in Ek. split; [|done]. intros _. repeat split; try done; lia. }
  destruct (String.eqb_spec (Provider (LLM c)) "anthropic") as [E2|E2].
  { destruct (String.eqb _ _) eqn:Ek.
    - split; [done|]. intros (_ & _ & _ & Hneed). apply String.eqb_eq in Ek.
      destruct Hneed; [rewrite E2; apply list_elem_of_In; simpl; auto | done].
    - apply String.eqb_neq in Ek. split; [|done]. intros _. repeat split; try done; lia. }
  destruct (String.eqb_spec (Provider (LLM c)) "gemini") as [E3|E3].
  { destruct (String.eqb _ _) eqn:Ek.
    - split; [done|]. intros (_ & _ & _ & Hneed). apply String.eqb_eq in Ek.
      destruct Hneed; [rewrite E3; apply list_elem_of_In; simpl; auto | done].
    - apply String.eqb_neq in Ek. split; [|done]. intros _. repeat split; try done; lia. }
  split; [|done]. intros _. repeat split; try done; try lia.
  intros Hmem. apply list_elem_of_In in Hmem. simpl in Hmem. intuition congruence.
Qed.

(** X21.  [Validate] accepts a configuration exactly when its port is
    between 1 and 65535, its database driver is sqlite or postgres, its
    provider is one of openai, azure, anthropic, gemini and ollama, and
    an API key is set when the provider is openai, anthropic or gemini.
    The defaults alone are not accepted: they name openai and carry no
    key. *)
Theorem Validate_accepts_iff (c : Config) :
  (Validate c = None
   <-> (1 <= Port (Server c) <= 65535)
       /\ (Driver (Database c) = "sqlite" \/ Driver (Database c) = "postgres")
       /\ Provider (LLM c) ∈ knownProviders
       /\ (Provider (LLM c) ∈ keyedProviders -> APIKey (LLM c) <> EmptyString))
  /\ Validate DefaultConfig = Some "OpenAI API key is required".
Proof. split; [apply Validate_None | reflexivity]. Qed.

(** X22.  A configuration [Load] returns is what the YAML decoder made
    of the defaults and of the file's content after interpolation, it
    passes [Validate], and reading it changed nothing but what reading
    the file changed. *)
Theorem Load_returns_valid_configurations {World : Type} (os : OS World) path
    (w : World) cfg w' :
  Load os path w = (inl cfg, w') ->
  Validate cfg = None
  /\ exists data,
       os_ReadFile os path w = (inl data, w')
       /\ yaml_Unmarshal os (interpolateEnvVars os data w') DefaultConfig = (cfg, None).
Proof.
  unfold Load. destruct (os_ReadFile os path w) as [[data|err] w1].
  - destruct (yaml_Unmarshal os _ DefaultConfig) as [cfg1 [err|]] eqn:Ey; [done|].
    destruct (Validate cfg1) eqn:Ev; [done|]. intros [= <- <-]. eauto.
  - by destruct (os_IsNotExist os err).
Qed.

(** X23.  A configuration that passes [Validate] gets a provider of the
    name it asks for, except azure: [Validate] accepts it and
    [NewProvider] rejects it. *)
Theorem NewProvider_after_Validate (c : Config) :
  Validate c = None ->
  (Provider (LLM c) = "azure"
   /\ NewProvider (LLM c) = inr "unsupported LLM provider: azure")
  \/ (Provider (LLM c) <> "azure"
      /\ exists p, NewProvider (LLM c) = inl p /\ Name p = Provider (LLM c)).
Proof.
  intros (_ & _ & Hin & Hkey)%Validate_None.
  unfold NewProvider, NewOpenAIProvider, NewAnthropicProvider, NewGeminiProvider,
    NewOllamaProvider.
  unfold knownProviders in Hin. unfold keyedProviders in Hkey.
  assert (Hcases : Provider (LLM c) = "openai" \/ Provider (LLM c) = "azure"
                   \/ Provider (LLM c) = "anthropic" \/ Provider (LLM c) = "gemini"
                   \/ Provider (LLM c) = "ollama").
  { apply list_elem_of_In in Hin. simpl in Hin. intuition congruence. }
  destruct Hcases as [E|[E|[E|[E|E]]]]; rewrite E in *; simpl.
  - right. split; [done|].
    destruct (String.eqb_spec (APIKey (LLM c)) EmptyString) as [Hk|Hk];
      [destruct Hkey; [apply list_elem_of_In; simpl; auto | done] | eauto].
  - by left.
  - right. split; [done|].
    destruct (String.eqb_spec (APIKey (LLM c)) EmptyString) as [Hk|Hk];
      [destruct Hkey; [apply list_elem_of_In; simpl; auto | done] | eauto].
  - right. split; [done|].
    destruct (String.eqb_spec (APIKey (LLM c)) EmptyString) as [Hk|Hk];
      [destruct Hkey; [apply list_elem_of_In; simpl; auto | done] | eauto].
  - right. split; [done|]. eauto.
Qed.

Lemma orDefault_spec value fallback :
  fallback <> EmptyString ->
  orDefault value fallback <> EmptyString
  /\ (value <> EmptyString -> orDefault value fallback = value).
Proof.
  intros Hf. unfold orDefault.
  destruct (String.eqb_spec value EmptyString); [done|]. done.
Qed.

(** X24.  A provider that was created has the name the configuration
    asked for and a model name that is never empty: the configured
    model, or the provider's own default when none is configured. *)
Theorem NewProvider_model (cfg : LLMConfig) p :
  NewProvider cfg = inl p ->
  Name p = Provider cfg
  /\ modelOf p <> EmptyString
  /\ (Model cfg <> EmptyString -> modelOf p = Model cfg).
Proof.
  unfold NewProvider, NewOpenAIProvider, NewAnthropicProvider, NewGeminiProvider,
    NewOllamaProvider.
  destruct (String.eqb_spec (Provider cfg) "openai") as [->|_].
  { destruct (String.eqb _ _); [done|]. intros [= <-]. simpl.
    split; [done|]. by apply orDefault_spec. }
  destruct (String.eqb_spec (Provider cfg) "anthropic") as [->|_].
  { destruct (String.eqb _ _); [done|]. intros [= <-]. simpl.
    split; [done|]. by apply orDefault_spec. }
  destruct (String.eqb_spec (Provider cfg) "gemini") as [->|_].
  { destruct (String.eqb _ _); [done|]. intros [= <-]. simpl.
    split; [done|]. by apply orDefault_spec. }
  destruct (String.eqb_spec (Provider cfg) "ollama") as [->|_]; [|done].
  intros [= <-]. simpl. split; [done|]. by apply orDefault_spec.
Qed.
End ConfigProperties.

(* ===================================================================== *)
(** ** Properties of the handlers *)
(* ===================================================================== *)

Section HandlerProperties.
Import search llm database verify api.
Context {World : Type} (lib : Lib World).
Implicit Types (h : Handler World) (s : St World).

(** [VerifyText] fails only when the extraction of an uncached text
    fails. *)
Lemma VerifyText_error e sch text s err s' :
  VerifyText lib e sch text s = Some (inr err, s') ->
  (cacheLookup lib e text s).1.1 = None
  /\ Extract lib (extractor e) text (afterLookup lib e text s) = Some (inr err, s').
Proof.
  rewrite VerifyText_unfold.
  destruct ((cacheLookup lib e text s).1.1) as [existing|]; [done|].
  intros Hrun. split; [done|]. unfold fullRun in Hrun. inv_bind Hrun.
  destruct a as [claims|err0]; [|by apply ret_Some in Hrun as [[= <-] <-]].
  inv_bind Hrun. inv_bind Hrun. inv_bind Hrun. inv_bind Hrun. inv_bind Hrun.
  by apply ret_Some in Hrun as [[=] _].
Qed.

(** X25.  The verification endpoint has three replies.  400, without
    any call and in an unchanged state, when the body does not decode
    or its text is empty.  500 when the engine fails: its message is
    the engine's error after "Verification failed: ", and the run has
    made the lookup by hash and the extraction call and nothing else,
    so nothing was searched or saved.  201 with the engine's response
    otherwise. *)
Theorem Handler_VerifyText_replies h sch requestBody s reply s' :
  Handler_VerifyText lib h sch requestBody s = Some (reply, s') ->
  (status reply = 400 /\ s' = s
   /\ ((exists err, json_Decode_VerifyRequest h requestBody = inr err
                    /\ body reply = ErrorBody "Invalid request body")
       \/ (exists req, json_Decode_VerifyRequest h requestBody = inl req
                       /\ Text req = EmptyString
                       /\ body reply = ErrorBody "Text is required")))
  \/ (exists req, json_Decode_VerifyRequest h requestBody = inl req
        /\ Text req <> EmptyString
        /\ ((status reply = 500
             /\ exists err,
                  VerifyText lib (engine h) sch (Text req) s = Some (inr err, s')
                  /\ body reply = ErrorBody ("Verification failed: " +:+ err)
                  /\ log s' = log s
                              ++ [EvGetAnalysisByHash (sha256_hex lib (Text req));
                                  extractionCall lib (extractor (engine h)) (Text req)])
            \/ (status reply = 201
                /\ exists result,
                     VerifyText lib (engine h) sch (Text req) s = Some (inl result, s')
                     /\ body reply = ResponseBody result))).
Proof.
  unfold Handler_VerifyText.
  destruct (json_Decode_VerifyRequest h requestBody) as [req|err] eqn:Edec.
  - destruct (String.eqb_spec (Text req) EmptyString) as [Ht|Ht].
    + intros [<- <-]%ret_Some. left. split; [done|]. split; [done|]. right. eauto.
    + intros Hrun. inv_bind Hrun. right. exists req. split; [done|]. split; [done|].
      destruct a as [result|err]; apply ret_Some in Hrun as [<- <-].
      * right. split; [done|]. eauto.
      * left. split; [done|]. exists err. split; [done|]. split; [done|].
        destruct (VerifyText_error _ _ _ _ _ _ Hrun0) as [Hmiss Hex].
        rewrite (Extract_calls_once lib _ _ _ _ _ Hex). simpl.
        by rewrite <- app_assoc.
  - intros [<- <-]%ret_Some. left. split; [done|]. split; [done|]. left. eauto.
Qed.

(** X26.  A page of results is always asked of the store with a limit
    between 1 and 100 and an offset that is not negative, whatever the
    query says: a limit that is missing, not a number or out of range
    becomes 20, a negative offset 0.  The reply repeats the limit and
    the offset that were used, with what the store returned for
    them. *)
Theorem Handler_ListResults_page h query (w : World) results limit offset :
  (Handler_ListResults h query w).1 = writeJSON 200 (PageBody results limit offset) ->
  let asked := (strconv_Atoi h (query "limit")).1 in
  1 <= limit <= 100 /\ 0 <= offset
  /\ limit = (if decide (1 <= asked <= 100) then asked else 20)
  /\ offset = Z.max 0 (strconv_Atoi h (query "offset")).1
  /\ (store_ListAnalyses h limit offset w).1 = (results, None).
Proof.
  unfold Handler_ListResults. cbv zeta.
  set (asked := (strconv_Atoi h (query "limit")).1).
  set (from := (strconv_Atoi h (query "offset")).1).
  assert (Hl : (if (asked <=? 0) || (100 <? asked) then 20 else asked)
               = if decide (1 <= asked <= 100) then asked else 20).
  { destruct (Z.leb_spec asked 0), (Z.ltb_spec 100 asked); simpl;
      case_decide; lia. }
  assert (Ho : (if from <? 0 then 0 else from) = Z.max 0 from).
  { destruct (Z.ltb_spec from 0); lia. }
  rewrite Hl, Ho.
  destruct (store_ListAnalyses h _ _ w) as [[found [err|]] w1] eqn:Es; simpl; [done|].
  intros [= <- <- <-]. rewrite Es. simpl.
  split; [case_decide; lia|]. split; [lia|]. done.
Qed.
End HandlerProperties.

(* ===================================================================== *)
(** ** Termination of the admission protocol *)
(* ===================================================================== *)

Section AdmissionTermination.
Import admission.

(** The transitions a goroutine in a phase has still to make. *)
Definition stepsLeft (p : Phase) : nat :=
  match p with
  | Waiting => 3
  | InFlight => 2
  | Released => 1
  | Finished => 0
  end.

(** The transitions left before [wg.Wait()] returns: four for each
    goroutine not yet started, and those of the started ones. *)
Definition remaining (n : nat) (s : State) : nat :=
  (4 * (n - length (tasks s)) + sum_list (map stepsLeft (tasks s)))%nat.

Lemma sum_insert (l : list Phase) idx old new :
  l !! idx = Some old ->
  (sum_list (map stepsLeft (<[idx := new]> l)) + stepsLeft old
   = sum_list (map stepsLeft l) + stepsLeft new)%nat.
Proof.
  revert idx. induction l as [|p l IH]; intros [|idx] Hl; simpl in *; try done.
  - injection Hl as ->. lia.
  - specialize (IH idx Hl). lia.
Qed.

Lemma sum_snoc (l : list Phase) p :
  sum_list (map stepsLeft (l ++ [p])) = (sum_list (map stepsLeft l) + stepsLeft p)%nat.
Proof. induction l as [|q l IH]; simpl; lia. Qed.

Lemma step_remaining n s s' :
  step n s s' -> remaining n s = S (remaining n s').
Proof.
  unfold remaining.
  intros [s0 Hn | s0 idx Hidx Hfree | s0 idx Hidx Hpos | s0 idx Hidx]; simpl.
  - rewrite length_app, sum_snoc. simpl. lia.
  - pose proof (sum_insert _ _ _ InFlight Hidx). rewrite length_insert. simpl in *. lia.
  - pose proof (sum_insert _ _ _ Released Hidx). rewrite length_insert. simpl in *. lia.
  - pose proof (sum_insert _ _ _ Finished Hidx). rewrite length_insert. simpl in *. lia.
Qed.

Lemma run_remaining n acts s s' :
  run n acts s = Some s' -> remaining n s = (length acts + remaining n s')%nat.
Proof.
  revert s. induction acts as [|a acts IH]; intros s; simpl.
  - by intros [= <-].
  - destruct (act n s a) as [s1|] eqn:E; [|done]. intros Hrun.
    rewrite (step_remaining n s s1) by (by apply (act_step n s a)).
    by rewrite (IH s1 Hrun).
Qed.

Lemma sum_none (l : list Phase) :
  sum_list (map stepsLeft l) = 0%nat <-> l = replicate (length l) Finished.
Proof.
  induction l as [|p l IH]; simpl; [done|]. split.
  - intros H. destruct p; simpl in H; try lia. f_equal. by apply IH.
  - intros [= -> Hl]. simpl. by apply IH.
Qed.

Lemma waitReturns_remaining n s :
  reachable n s -> waitReturns n s <-> remaining n s = 0%nat.
Proof.
  intros Hr. pose proof (reachable_invariant n s Hr) as (_ & _ & Hwg & Hlen).
  unfold remaining. split.
  - intros Hw. rewrite (waitReturns_all_finished n s Hr Hw).
    rewrite length_replicate, Nat.sub_diag. simpl.
    apply sum_none. by rewrite length_replicate.
  - intros H0. assert (Hn : length (tasks s) = n) by lia.
    split; [done|]. rewrite Hwg.
    assert (Hs : sum_list (map stepsLeft (tasks s)) = 0%nat) by lia.
    apply sum_none in Hs. rewrite Hs. clear.
    unfold countPhase. induction (length (tasks s)) as [|k IH]; [done|].
    simpl. rewrite filter_cons. by rewrite decide_False by (by intros []).
Qed.

(** The semaphore is never what holds the stage up: while [wg.Wait()]
    cannot return and no goroutine holds a slot, some goroutine can
    start, take a slot or call [wg.Done()]. *)
Lemma admission_moves_without_release n s :
  reachable n s -> ~ waitReturns n s -> inFlight s = 0%nat ->
  exists a s', act n s a = Some s' /\ forall idx, a <> Receive idx.
Proof.
  intros Hr Hnot Hnone.
  pose proof (reachable_invariant n s Hr) as (Hbuf & Hcap & Hwg & Hlen).
  destruct (decide (length (tasks s) < n)%nat) as [Hlt|Hge].
  { exists Go. simpl. rewrite decide_True by done. eauto. }
  assert (Hpos : (0 < countPhase (fun p => p <> Finished) (tasks s))%nat).
  { destruct (wg s) eqn:E; [|lia]. destruct Hnot. split; [lia | done]. }
  apply countPhase_some in Hpos as (idx & p & Hidx & Hp).
  destruct p; try done.
  - exists (Send idx). simpl. rewrite decide_True; [eauto|].
    split; [done|]. unfold capacity. lia.
  - exfalso. unfold inFlight in Hnone.
    assert (Hin : InFlight ∈ filter (fun p => p = InFlight) (tasks s)).
    { apply list_elem_of_filter. split; [done|]. by eapply list_elem_of_lookup_2. }
    destruct (filter (fun p => p = InFlight) (tasks s)); [|done].
    by apply elem_of_nil in Hin.
  - exists (Done idx). simpl. rewrite decide_True by done. eauto.
Qed.

(** X27.  In the admission protocol of [verifyClaims] over [n] claims
    every goroutine makes at most four transitions (start, send on the
    semaphore, receive from it, [wg.Done()]): a run from the start has
    at most [4 * n] of them, and [wg.Wait()] can return exactly after
    [4 * n].  And the semaphore cannot deadlock the stage: as long as
    [wg.Wait()] cannot return and no goroutine holds a slot, some
    goroutine can start, take a slot or call [wg.Done()].  Whether a
    goroutine that holds a slot ever releases it is not part of the
    protocol: that is the verification of its claim. *)
Theorem verifyClaims_semaphore_never_blocks n acts s :
  run n acts init = Some s ->
  (length acts <= 4 * n)%nat
  /\ (waitReturns n s <-> length acts = (4 * n)%nat)
  /\ (~ waitReturns n s -> inFlight s = 0%nat ->
      exists a s', act n s a = Some s' /\ forall idx, a <> Receive idx).
Proof.
  intros Hrun.
  assert (Hr : reachable n s) by (by eapply run_reachable; [apply reach_init|]).
  pose proof (run_remaining n acts init s Hrun) as Hm.
  unfold remaining at 1 in Hm. simpl in Hm.
  pose proof (waitReturns_remaining n s Hr) as Hw.
  split; [lia|]. split.
  - rewrite Hw. lia.
  - by apply admission_moves_without_release.
Qed.

(** X28.  When [wg.Wait()] returns, the goroutines admitted through the
    semaphore are those of all the claims, each once: whatever the
    interleaving, the order of admission is a permutation of the
    indices of the claims. *)
Theorem verifyClaims_admits_each_claim_once n acts s :
  run n acts init = Some s ->
  waitReturns n s ->
  admitted s ≡ₚ seq 0 n.
Proof.
  intros Hrun Hw. apply admitted_each_once; [|done].
  by eapply run_reachable; [apply reach_init|].
Qed.
End AdmissionTermination.

(* ===================================================================== *)
(** ** Further runs in the concrete world *)
(* ===================================================================== *)

Section ExtraWitnesses.
Import search llm database verify.

(** X2, witness: two claims, both sources configured, nothing cached,
    and a store that refuses both saves. *)
Lemma VerifyText_saves_what_it_returns_witness :
  let e := NewEngine (Demo.source "DuckDuckGo" ([Demo.ev "http://d/1" "delta"], None))
             (Demo.source "PubMed" ([], Some "PubMed returned status 500"))
             (Demo.cfg true true) (Demo.provider ("E2", None) ("M", None))
             (SQLiteStore_asStore Demo.fullDisk) in
  exists extracted s1 claims ws s2,
    ((forall a w, (SaveAnalysis (store e) a w).1 = Some "disk full")
     /\ (forall id cs w, (SaveClaims (store e) id cs w).1 = Some "disk full")
     /\ (cacheLookup Demo.lib e "hello" Demo.s0).1.1 = None
     /\ Extract Demo.lib (extractor e) "hello" (afterLookup Demo.lib e "hello" Demo.s0)
        = Some (inl extracted, s1)
     /\ verifyClaims Demo.lib e Demo.inOrder extracted s1 = Some ((claims, ws), s2))
    /\ exists resp s' calls verdicts,
         VerifyText Demo.lib e Demo.inOrder "hello" Demo.s0 = Some (inl resp, s')
         /\ VerificationResponse.Claims resp = claims
         /\ VerificationResponse.Warnings resp = ws
         /\ VerificationResponse.ID resp
            = AnalysisResult.ID (VerificationResponse.Analysis resp)
         /\ VerificationResponse.DocumentHash resp = sha256_hex Demo.lib "hello"
         /\ AnalysisResult.DocumentHash (VerificationResponse.Analysis resp)
            = sha256_hex Demo.lib "hello"
         /\ AnalysisResult.Status (VerificationResponse.Analysis resp) = "completed"
         /\ log s' = log Demo.s0 ++ calls
         /\ filter (fun ev => is_search_call ev = false) calls
            = [EvGetAnalysisByHash (sha256_hex Demo.lib "hello");
               extractionCall Demo.lib (extractor e) "hello"]
              ++ verdicts
              ++ [EvSaveAnalysis (VerificationResponse.Analysis resp);
                  EvSaveClaims (AnalysisResult.ID (VerificationResponse.Analysis resp))
                    claims]
         /\ Forall (fun ev => is_model_call ev = true) verdicts.
Proof.
  intros e.
  assert (Hmiss : (cacheLookup Demo.lib e "hello" Demo.s0).1.1 = None) by reflexivity.
  assert (Hrun : exists extracted s1 claims ws s2,
            Extract Demo.lib (extractor e) "hello" (afterLookup Demo.lib e "hello" Demo.s0)
            = Some (inl extracted, s1)
            /\ verifyClaims Demo.lib e Demo.inOrder extracted s1 = Some ((claims, ws), s2))
    by (eexists _, _, _, _, _; split; [vm_compute; reflexivity | vm_compute; reflexivity]).
  destruct Hrun as (extracted & s1 & claims & ws & s2 & Hex & Hvc).
  exists extracted, s1, claims, ws, s2. split; [by repeat split|].
  exact (VerifyText_saves_what_it_returns Demo.lib e Demo.inOrder "hello" Demo.s0
           extracted s1 claims ws s2 Hmiss Hex Hvc).
Defined.

(** X3, witness: PubMed fails, and its result is received first. *)
Lemma Search_warns_instead_of_failing_witness :
  let sched := [RecvResult 1; RecvResult 0] in
  exists evs ws s',
    (clients Demo.oneFails <> []
     /\ Search Demo.oneFails "q" 6 sched Demo.s0 = Some ((evs, ws), s'))
    /\ exists results,
         mapM (searchOne "q" 6) (clients Demo.oneFails) Demo.s0 = Some (results, s')
         /\ map SearchResult.Source results = map SearchClient.Name (clients Demo.oneFails)
         /\ ws = concat (map (warned results) (take (length (clients Demo.oneFails)) sched))
         /\ (length ws
             + length (filter (fun c => receivesEvidence results c = true)
                         (take (length (clients Demo.oneFails)) sched))
             = length (clients Demo.oneFails))%nat.
Proof.
  intros sched.
  assert (Hne : clients Demo.oneFails <> []) by discriminate.
  assert (H : exists evs ws s', Search Demo.oneFails "q" 6 sched Demo.s0 = Some ((evs, ws), s'))
    by (eexists _, _, _; vm_compute; reflexivity).
  destruct H as (evs & ws & s' & H). exists evs, ws, s'. split; [by split|].
  exact (Search_warns_instead_of_failing Demo.oneFails "q" 6 sched Demo.s0 evs ws s' Hne H).
Defined.

(** X4, witness: the two sources of the concrete world. *)
Lemma Search_calls_only_its_sources_witness :
  exists r s',
    Search Demo.twoSources "q" 6 [RecvResult 0; CtxDone] Demo.s0 = Some (r, s')
    /\ exists calls,
         log s' = log Demo.s0 ++ calls
         /\ calls ⊆+ map (fun c => EvSearch (SearchClient.Name c) "q" 6)
                       (clients Demo.twoSources)
         /\ (clients Demo.twoSources = [] -> calls = []).
Proof.
  assert (H : exists r s',
            Search Demo.twoSources "q" 6 [RecvResult 0; CtxDone] Demo.s0 = Some (r, s'))
    by (eexists _, _; vm_compute; reflexivity).
  destruct H as (r & s' & H). exists r, s'. split; [exact H|].
  exact (Search_calls_only_its_sources _ _ _ _ _ _ _ H).
Defined.

(** X5, witness. *)
Lemma verifyClaims_keeps_claims_in_place_witness :
  let e := Demo.engine true true ("E2", None) ("V", None) ErrNoRows (RowsRead [] None) in
  exists claims' ws s',
    verifyClaims Demo.lib e Demo.inOrder Demo.twoClaims Demo.s0 = Some ((claims', ws), s')
    /\ Forall2 (fun c c' =>
                  Claim.ID c' = Claim.ID c /\ Claim.Text c' = Claim.Text c
                  /\ Claim.Type_ c' = Claim.Type_ c
                  /\ Claim.SentenceIndex c' = Claim.SentenceIndex c)
               Demo.twoClaims claims'.
Proof.
  intros e.
  assert (H : exists claims' ws s',
            verifyClaims Demo.lib e Demo.inOrder Demo.twoClaims Demo.s0
            = Some ((claims', ws), s'))
    by (eexists _, _, _; vm_compute; reflexivity).
  destruct H as (claims' & ws & s' & H). exists claims', ws, s'. split; [exact H|].
  exact (verifyClaims_keeps_claims_in_place Demo.lib _ _ _ _ _ _ _ H).
Defined.

(** X6, witness. *)
Lemma verifyClaims_tags_follow_evidence_witness :
  let e := Demo.engine true false ("E2", None) ("V", None) ErrNoRows (RowsRead [] None) in
  exists claims' ws s',
    (runsEachOnce Demo.inOrder
     /\ verifyClaims Demo.lib e Demo.inOrder Demo.twoClaims Demo.s0 = Some ((claims', ws), s'))
    /\ Forall (fun c =>
                 (Claim.SourceType c = SourceTypeEvidenceBacked /\ Claim.Evidences c <> [])
                 \/ (Claim.SourceType c = SourceTypeModelBased /\ Claim.Evidences c = []))
              claims'.
Proof.
  intros e.
  assert (Hs : runsEachOnce Demo.inOrder) by (intros n; reflexivity).
  assert (H : exists claims' ws s',
            verifyClaims Demo.lib e Demo.inOrder Demo.twoClaims Demo.s0
            = Some ((claims', ws), s'))
    by (eexists _, _, _; vm_compute; reflexivity).
  destruct H as (claims' & ws & s' & H). exists claims', ws, s'. split; [by split|].
  exact (verifyClaims_tags_follow_evidence Demo.lib _ _ _ _ _ _ _ Hs H).
Defined.

(** X7, witness: the provider is unreachable. *)
Lemma verifyClaims_degrades_to_unsupported_witness :
  let down := (EmptyString, Some "connection refused") in
  let e := Demo.engine true true down down ErrNoRows (RowsRead [] None) in
  exists claims' ws s',
    (neverAnswers Demo.lib (v_provider (verifier e))
     /\ runsEachOnce Demo.inOrder
     /\ verifyClaims Demo.lib e Demo.inOrder Demo.twoClaims Demo.s0 = Some ((claims', ws), s'))
    /\ (length claims' = length Demo.twoClaims
        /\ Forall (fun c =>
                     Claim.Status c = StatusUnsupported
                     /\ Claim.Confidence c = 0%Q
                     /\ (Claim.Reasoning c = "Verification error"
                         \/ Claim.Reasoning c = "Verification error - no evidence found"))
                  claims').
Proof.
  intros down e.
  assert (Hno : neverAnswers Demo.lib (v_provider (verifier e))).
  { intros system user opts w. left. simpl. by case_decide. }
  assert (Hs : runsEachOnce Demo.inOrder) by (intros n; reflexivity).
  assert (H : exists claims' ws s',
            verifyClaims Demo.lib e Demo.inOrder Demo.twoClaims Demo.s0
            = Some ((claims', ws), s'))
    by (eexists _, _, _; vm_compute; reflexivity).
  destruct H as (claims' & ws & s' & H). exists claims', ws, s'. split; [by repeat split|].
  exact (verifyClaims_degrades_to_unsupported Demo.lib _ _ _ _ _ _ _ Hno Hs H).
Defined.

(** X8, witness: no source is configured. *)
Lemma verifyClaims_airGapped_one_call_per_claim_witness :
  let e := Demo.engine false false ("E2", None) ("V", None) ErrNoRows (RowsRead [] None) in
  (airGapped e = true /\ runsEachOnce Demo.inOrder)
  /\ exists claims' s' calls,
       verifyClaims Demo.lib e Demo.inOrder Demo.twoClaims Demo.s0 = Some ((claims', []), s')
       /\ log s' = log Demo.s0 ++ calls
       /\ calls ≡ₚ map (fun c => knowledgeCall Demo.lib (Claim.Text c)) Demo.twoClaims.
Proof.
  intros e.
  assert (Ha : airGapped e = true) by reflexivity.
  assert (Hs : runsEachOnce Demo.inOrder) by (intros n; reflexivity).
  split; [by split|].
  exact (verifyClaims_airGapped_one_call_per_claim Demo.lib e Demo.inOrder Demo.twoClaims
           Demo.s0 Ha Hs).
Defined.

(** X9, witness: PubMed fails for each of the two claims. *)
Lemma verifyClaims_warnings_name_their_source_witness :
  let e := Demo.engine true true ("E2", None) ("V", None) ErrNoRows (RowsRead [] None) in
  exists claims' ws s',
    verifyClaims Demo.lib e Demo.inOrder Demo.twoClaims Demo.s0 = Some ((claims', ws), s')
    /\ Forall (fun w => Warning.Source w = "search"
                        \/ Warning.Source w
                           ∈ map SearchClient.Name (clients (searchClient e)))
              ws.
Proof.
  intros e.
  assert (H : exists claims' ws s',
            verifyClaims Demo.lib e Demo.inOrder Demo.twoClaims Demo.s0
            = Some ((claims', ws), s'))
    by (eexists _, _, _; vm_compute; reflexivity).
  destruct H as (claims' & ws & s' & H). exists claims', ws, s'. split; [exact H|].
  exact (verifyClaims_warnings_name_their_source Demo.lib _ _ _ _ _ _ _ H).
Defined.

(** X12, witness: the provider answers with two claims. *)
Lemma Extract_returns_pending_claims_witness :
  let x := extractor (Demo.engine true true ("E2", None) ("V", None)
                        ErrNoRows (RowsRead [] None)) in
  exists claims s',
    Extract Demo.lib x "hello" Demo.s0 = Some (inl claims, s')
    /\ (let answer :=
          (CompleteWithSystem (x_provider x)
             (extractionSystemPrompt Demo.lib (customClaimTypes x))
             ("Text to analyze:" +:+ nl +:+ nl +:+ "hello")
             (mkOptions 4096 0%Q EmptyString) (world Demo.s0)).1 in
        answer.2 = None
        /\ (exists result,
              decodeExtraction Demo.lib answer.1 = inl result
              /\ Forall2 freshClaim claims (er_Claims result))
        /\ log s' = log Demo.s0 ++ [extractionCall Demo.lib x "hello"]).
Proof.
  intros x.
  assert (H : exists claims s', Extract Demo.lib x "hello" Demo.s0 = Some (inl claims, s'))
    by (eexists _, _; vm_compute; reflexivity).
  destruct H as (claims & s' & H). exists claims, s'. split; [exact H|].
  exact (Extract_returns_pending_claims Demo.lib _ _ _ _ _ H).
Defined.
End ExtraWitnesses.

Section MoreWitnesses.
Import search llm database verify.

(** X18, witness: three ids, one with a titled article; the summary
    answer is decoded whatever its status. *)
Lemma PubMed_Search_follows_id_list_witness :
  let c := Demo.pubmed in
  let found := sources.mkSearchResponse ["11"; "22"; "33"] in
  let summary :=
    sources.mkSummaryResponse
      (<["11" := sources.mkArticle "Boiling points" "2020" "Nature"]>
         (<["22" := sources.mkArticle EmptyString "2021" "Science"]> ∅)) in
  let resp := sources.mkResponse 200 (sources.searchURL c "water" 5) in
  let resp2 := sources.mkResponse 200 (sources.summaryURL (sources.IDList found)) in
  (sources.http_NewRequest (sources.pm_net c) (sources.searchURL c "water" 5) = None
   /\ sources.httpClient_Do (sources.pm_net c) (sources.searchURL c "water" 5) 0%nat
      = (inl resp, 1%nat)
   /\ sources.StatusCode resp = 200
   /\ sources.pm_decodeSearch c (sources.Body resp) = inl found
   /\ sources.http_NewRequest (sources.pm_net c)
        (sources.summaryURL (sources.IDList found)) = None
   /\ sources.httpClient_Do (sources.pm_net c)
        (sources.summaryURL (sources.IDList found)) 1%nat = (inl resp2, 2%nat)
   /\ sources.pm_decodeSummary c (sources.Body resp2) = inl summary)
  /\ (let r := (sources.PubMed_Search c "water" 5 0%nat).1 in
      r.2 = None
      /\ map Evidence.SourceURL r.1
         = map sources.articleURL
             (List.filter (titled (sources.Result summary)) (sources.IDList found))
      /\ (NoDup (sources.IDList found) -> NoDup (map Evidence.SourceURL r.1))).
Proof.
  intros c found summary resp resp2.
  split; [repeat split|].
  exact (PubMed_Search_follows_id_list c "water" 5 0%nat resp 1%nat found resp2 2%nat
           summary eq_refl eq_refl eq_refl eq_refl eq_refl eq_refl eq_refl).
Defined.

(** X19, witness: the search answer lists no id. *)
Lemma PubMed_Search_no_ids_witness :
  let c := {| sources.pm_net := Demo.net;
              sources.pm_decodeSearch := fun _ => inl (sources.mkSearchResponse []);
              sources.pm_decodeSummary := fun _ => inr "unexpected end of JSON input" |} in
  let resp := sources.mkResponse 200 (sources.searchURL c "water" 5) in
  (sources.http_NewRequest (sources.pm_net c) (sources.searchURL c "water" 5) = None
   /\ sources.httpClient_Do (sources.pm_net c) (sources.searchURL c "water" 5) 0%nat
      = (inl resp, 1%nat)
   /\ sources.StatusCode resp = 200
   /\ sources.pm_decodeSearch c (sources.Body resp) = inl (sources.mkSearchResponse [])
   /\ sources.IDList (sources.mkSearchResponse []) = [])
  /\ sources.PubMed_Search c "water" 5 0%nat = (([], None), 1%nat).
Proof.
  intros c resp. split; [repeat split|].
  exact (PubMed_Search_no_ids c "water" 5 0%nat resp 1%nat (sources.mkSearchResponse [])
           eq_refl eq_refl eq_refl eq_refl eq_refl).
Defined.

(** X22, witness: the file selects ollama, which needs no key. *)
Lemma Load_returns_valid_configurations_witness :
  config.Load (Demo.os (Demo.ollama, None)) "verity.yaml" 0%nat = (inl Demo.ollama, 0%nat)
  /\ (config.Validate Demo.ollama = None
      /\ exists data,
           config.os_ReadFile (Demo.os (Demo.ollama, None)) "verity.yaml" 0%nat
           = (inl data, 0%nat)
           /\ config.yaml_Unmarshal (Demo.os (Demo.ollama, None))
                (config.interpolateEnvVars (Demo.os (Demo.ollama, None)) data 0%nat)
                config.DefaultConfig
              = (Demo.ollama, None)).
Proof.
  assert (H : config.Load (Demo.os (Demo.ollama, None)) "verity.yaml" 0%nat
              = (inl Demo.ollama, 0%nat)) by (vm_compute; reflexivity).
  split; [exact H|].
  exact (Load_returns_valid_configurations _ _ _ _ _ H).
Defined.

(** X23, witness: azure passes [Validate]. *)
Lemma NewProvider_after_Validate_witness :
  config.Validate Demo.azure = None
  /\ ((config.Provider (config.LLM Demo.azure) = "azure"
       /\ providers.NewProvider (config.LLM Demo.azure)
          = inr "unsupported LLM provider: azure")
      \/ (config.Provider (config.LLM Demo.azure) <> "azure"
          /\ exists p, providers.NewProvider (config.LLM Demo.azure) = inl p
                       /\ providers.Name p = config.Provider (config.LLM Demo.azure))).
Proof.
  assert (H : config.Validate Demo.azure = None) by (vm_compute; reflexivity).
  split; [exact H|]. exact (NewProvider_after_Validate Demo.azure H).
Defined.

(** X24, witness: ollama without a configured model. *)
Lemma NewProvider_model_witness :
  let cfg := config.LLM Demo.ollama in
  let p := providers.OllamaProvider "http://localhost:11434" "llama3" in
  providers.NewProvider cfg = inl p
  /\ (providers.Name p = config.Provider cfg
      /\ providers.modelOf p <> EmptyString
      /\ (config.Model cfg <> EmptyString -> providers.modelOf p = config.Model cfg)).
Proof.
  intros cfg p.
  assert (H : providers.NewProvider cfg = inl p) by reflexivity.
  split; [exact H|]. exact (NewProvider_model cfg p H).
Defined.

(** X25, witness: a request whose text gives two claims. *)
Lemma Handler_VerifyText_replies_witness :
  let h := Demo.handler ("E2", None) in
  exists reply s',
    api.Handler_VerifyText Demo.lib h Demo.inOrder "hello" Demo.s0 = Some (reply, s')
    /\ ((api.status reply = 400 /\ s' = Demo.s0
         /\ ((exists err, api.json_Decode_VerifyRequest h "hello" = inr err
                          /\ api.body reply = api.ErrorBody "Invalid request body")
             \/ (exists req, api.json_Decode_VerifyRequest h "hello" = inl req
                             /\ api.Text req = EmptyString
                             /\ api.body reply = api.ErrorBody "Text is required")))
        \/ (exists req, api.json_Decode_VerifyRequest h "hello" = inl req
              /\ api.Text req <> EmptyString
              /\ ((api.status reply = 500
                   /\ exists err,
                        VerifyText Demo.lib (api.engine h) Demo.inOrder (api.Text req)
                          Demo.s0 = Some (inr err, s')
                        /\ api.body reply = api.ErrorBody ("Verification failed: " +:+ err)
                        /\ log s'
                           = log Demo.s0
                             ++ [EvGetAnalysisByHash (sha256_hex Demo.lib (api.Text req));
                                 extractionCall Demo.lib (extractor (api.engine h))
                                   (api.Text req)])
                  \/ (api.status reply = 201
                      /\ exists result,
                           VerifyText Demo.lib (api.engine h) Demo.inOrder (api.Text req)
                             Demo.s0 = Some (inl result, s')
                           /\ api.body reply = api.ResponseBody result)))).
Proof.
  intros h.
  assert (H : exists reply s',
            api.Handler_VerifyText Demo.lib h Demo.inOrder "hello" Demo.s0
            = Some (reply, s'))
    by (eexists _, _; vm_compute; reflexivity).
  destruct H as (reply & s' & H). exists reply, s'. split; [exact H|].
  exact (Handler_VerifyText_replies Demo.lib h Demo.inOrder "hello" Demo.s0 reply s' H).
Defined.

(** X26, witness: a limit of 500 and no offset. *)
Lemma Handler_ListResults_page_witness :
  let h := Demo.handler ("E2", None) in
  let query := fun name : string => if decide (name = "limit") then "500" else EmptyString in
  (api.Handler_ListResults h query 0%nat).1
  = api.writeJSON 200 (api.PageBody [Demo.cached] 20 0)
  /\ (let asked := (api.strconv_Atoi h (query "limit")).1 in
      1 <= 20 <= 100 /\ 0 <= 0
      /\ 20 = (if decide (1 <= asked <= 100) then asked else 20)
      /\ 0 = Z.max 0 (api.strconv_Atoi h (query "offset")).1
      /\ (api.store_ListAnalyses h 20 0 0%nat).1 = ([Demo.cached], None)).
Proof.
  intros h query.
  assert (H : (api.Handler_ListResults h query 0%nat).1
              = api.writeJSON 200 (api.PageBody [Demo.cached] 20 0)) by reflexivity.
  split; [exact H|].
  exact (Handler_ListResults_page h query 0%nat [Demo.cached] 20 0 H).
Defined.

(** X27, witness: two claims; the goroutine of the first has finished,
    that of the second has not yet taken a slot. *)
Lemma verifyClaims_semaphore_never_blocks_witness :
  let acts := [admission.Go; admission.Go; admission.Send 0; admission.Receive 0;
               admission.Done 0]%nat in
  let s := admission.mkState [admission.Finished; admission.Waiting] 0 1 [0]%nat in
  admission.run 2 acts admission.init = Some s
  /\ ((length acts <= 4 * 2)%nat
      /\ (admission.waitReturns 2 s <-> length acts = (4 * 2)%nat)
      /\ (~ admission.waitReturns 2 s -> admission.inFlight s = 0%nat ->
          exists a s', admission.act 2 s a = Some s'
                       /\ forall idx, a <> admission.Receive idx)).
Proof.
  intros acts s.
  assert (H : admission.run 2 acts admission.init = Some s) by reflexivity.
  split; [exact H|]. exact (verifyClaims_semaphore_never_blocks 2 acts s H).
Defined.

(** X28, witness: two claims, the second goroutine admitted first. *)
Lemma verifyClaims_admits_each_claim_once_witness :
  let acts := [admission.Go; admission.Go; admission.Send 1; admission.Send 0;
               admission.Receive 0; admission.Done 0; admission.Receive 1;
               admission.Done 1]%nat in
  let s := admission.mkState [admission.Finished; admission.Finished] 0 0 [1; 0]%nat in
  (admission.run 2 acts admission.init = Some s /\ admission.waitReturns 2 s)
  /\ admission.admitted s ≡ₚ seq 0 2.
Proof.
  intros acts s.
  assert (H : admission.run 2 acts admission.init = Some s) by reflexivity.
  assert (Hw : admission.waitReturns 2 s) by (by split).
  split; [by split|]. exact (verifyClaims_admits_each_claim_once 2 acts s H Hw).
Defined.
End MoreWitnesses.

(* ===================================================================== *)
(** ** The authentication middleware *)
(* ===================================================================== *)

Section AuthProperties.
Import api.
Context {World : Type}.

Lemma splitAtSpace_spec (s before after : string) :
  splitAtSpace s = Some (before, after) ->
  s = before +:+ " " +:+ after /\ splitAtSpace before = None.
Proof.
  revert before. induction s as [|a s IH]; intros before; simpl; [done|].
  destruct (Ascii.eqb_spec a space) as [->|Hne].
  - intros [= <- <-]. by split.
  - destruct (splitAtSpace s) as [[x y]|]; [|done]. intros [= <- <-].
    destruct (IH x eq_refl) as [-> Hx]. split; [done|]. simpl.
    destruct (Ascii.eqb_spec a space); [done|]. by rewrite Hx.
Qed.

Lemma splitAtSpace_app (scheme token : string) :
  splitAtSpace scheme = None ->
  splitAtSpace (scheme +:+ " " +:+ token) = Some (scheme, token).
Proof.
  induction scheme as [|a scheme IH]; simpl; [done|].
  destruct (Ascii.eqb a space); [done|].
  destruct (splitAtSpace scheme) as [[x y]|] eqn:E; [done|].
  intros _. by rewrite IH.
Qed.

(** X29.  The middleware lets a request through only in two cases: the
    health path, untouched and without consulting the store; or a
    header made of a scheme without a space that lowercases to
    "bearer", one space and a token whose SHA-256 the store finds
    without error, and then with the key the store returned.  Every
    other request is rejected, and how is fixed by the request and the
    store: 401 when the header is missing, has no space or another
    scheme, 500 whenever the lookup of a well-formed header's token
    fails, 401 when the store does not know the token. *)
Theorem AuthMiddleware_outcomes (store : AuthStore World) r (w : World) served w' :
  AuthMiddleware store r w = (served, w') ->
  match served with
  | Forwarded None => URL_Path r = "/api/v1/health" /\ w' = w
  | Forwarded (Some key) =>
      URL_Path r <> "/api/v1/health"
      /\ exists scheme token,
           Authorization r = scheme +:+ " " +:+ token
           /\ splitAtSpace scheme = None
           /\ strings_ToLower store scheme = "bearer"
           /\ GetAPIKeyByHash store (auth_sha256_hex store token) w = ((Some key, None), w')
  | Rejected code message =>
      URL_Path r <> "/api/v1/health"
      /\ ((code = 401 /\ message = errorJSON "Missing Authorization header"
           /\ Authorization r = EmptyString /\ w' = w)
          \/ (code = 401 /\ message = errorJSON "Invalid Authorization header format"
              /\ Authorization r <> EmptyString /\ w' = w
              /\ (splitAtSpace (Authorization r) = None
                  \/ exists scheme token,
                       Authorization r = scheme +:+ " " +:+ token
                       /\ splitAtSpace scheme = None
                       /\ strings_ToLower store scheme <> "bearer"))
          \/ (exists scheme token,
                Authorization r = scheme +:+ " " +:+ token
                /\ splitAtSpace scheme = None
                /\ strings_ToLower store scheme = "bearer"
                /\ ((code = 401 /\ message = errorJSON "Invalid API key"
                     /\ GetAPIKeyByHash store (auth_sha256_hex store token) w
                        = ((None, None), w'))
                    \/ (code = 500 /\ message = errorJSON "Internal server error"
                        /\ exists found err,
                             GetAPIKeyByHash store (auth_sha256_hex store token) w
                             = ((found, Some err), w')))))
  end
  /\ (URL_Path r <> "/api/v1/health" ->
      forall scheme token found err w1,
        Authorization r = scheme +:+ " " +:+ token ->
        splitAtSpace scheme = None ->
        strings_ToLower store scheme = "bearer" ->
        GetAPIKeyByHash store (auth_sha256_hex store token) w = ((found, Some err), w1) ->
        served = Rejected 500 (errorJSON "Internal server error") /\ w' = w1).
Proof.
  intros H. unfold AuthMiddleware, strings_SplitN2 in H. split.
  - revert H.
    destruct (String.eqb_spec (URL_Path r) "/api/v1/health") as [Hp|Hp];
      [by intros [= <- <-]|].
    destruct (String.eqb_spec (Authorization r) EmptyString) as [He|He];
      [intros [= <- <-]; split; [done|]; left; done|].
    destruct (splitAtSpace (Authorization r)) as [[scheme token]|] eqn:Es;
      [|intros [= <- <-]; split; [done|]; right; left; repeat split; auto].
    apply splitAtSpace_spec in Es as [Hh Hs].
    destruct (String.eqb_spec (strings_ToLower store scheme) "bearer") as [Hb|Hb]; simpl.
    + destruct (GetAPIKeyByHash store (auth_sha256_hex store token) w)
        as [[found [err|]] w1] eqn:Eg.
      * destruct found as [key|]; intros [= <- <-]; (split; [done|]); right; right;
          exists scheme, token; (do 3 (split; [done|])); right;
          (do 2 (split; [done|])); eauto.
      * destruct found as [key|]; intros [= <- <-]; (split; [done|]).
        -- by exists scheme, token.
        -- right; right. exists scheme, token. do 3 (split; [done|]). by left.
    + intros [= <- <-]. split; [done|]. right. left. do 4 (split; [done|]).
      right. by exists scheme, token.
  - intros Hp scheme token found err w1 Hh Hs Hb Hg. revert H.
    destruct (String.eqb_spec (URL_Path r) "/api/v1/health"); [done|].
    rewrite Hh. rewrite (splitAtSpace_app scheme token Hs).
    destruct (String.eqb_spec (scheme +:+ " " +:+ token) EmptyString) as [He|_].
    { by destruct scheme. }
    rewrite Hb. simpl. rewrite Hg. destruct found; by intros [= <- <-].
Qed.
End AuthProperties.

(** X29, witness: a known key, sent with the scheme [Bearer]. *)
Lemma AuthMiddleware_outcomes_witness :
  let r := api.mkRequest "/api/v1/verify" "Bearer vrt_abc" in
  api.AuthMiddleware Demo.auth r 0%nat = (api.Forwarded (Some Demo.knownKey), 1%nat)
  /\ ((api.URL_Path r <> "/api/v1/health"
       /\ exists scheme token,
            api.Authorization r = scheme +:+ " " +:+ token
            /\ api.splitAtSpace scheme = None
            /\ api.strings_ToLower Demo.auth scheme = "bearer"
            /\ api.GetAPIKeyByHash Demo.auth (api.auth_sha256_hex Demo.auth token) 0%nat
               = ((Some Demo.knownKey, None), 1%nat))
      /\ (api.URL_Path r <> "/api/v1/health" ->
          forall scheme token found err w1,
            api.Authorization r = scheme +:+ " " +:+ token ->
            api.splitAtSpace scheme = None ->
            api.strings_ToLower Demo.auth scheme = "bearer" ->
            api.GetAPIKeyByHash Demo.auth (api.auth_sha256_hex Demo.auth token) 0%nat
            = ((found, Some err), w1) ->
            api.Forwarded (Some Demo.knownKey)
            = api.Rejected 500 (api.errorJSON "Internal server error")
            /\ 1%nat = w1)).
Proof.
  intros r.
  assert (H : api.AuthMiddleware Demo.auth r 0%nat
              = (api.Forwarded (Some Demo.knownKey), 1%nat)) by reflexivity.
  split; [exact H|].
  exact (AuthMiddleware_outcomes Demo.auth r 0%nat _ _ H).
Defined.
